(** * logseq-md-export: a shallow embedding of [logseq-md-export.py]

    The exporter reads one Logseq page, classifies every line
    ([get_line_type]), and in a second pass rewrites each line and computes
    its Markdown indentation ([export_file_to_folder]).  Python strings are
    sequences of Unicode code points, modelled as lists of [N]; Python
    integers are [Z]; the list of per-line dictionaries is a list of records
    that the second pass updates in place by index. *)

From Stdlib Require Import String Ascii NArith ZArith Lia.
From stdpp Require Import base tactics option list numbers.

Local Open Scope Z_scope.

(** ** Strings *)

Definition char := N.
Definition str := list char.

Definition tab : char := 9%N.
Definition nl : char := 10%N.
Definition cr : char := 13%N.

(** [lit] turns a literal of the source into a Python string. *)
Definition lit (s : string) : str := map N_of_ascii (list_ascii_of_string s).

Definition str_eqb (a b : str) : bool := bool_decide (a = b).

Fixpoint startswith (sub s : str) : bool :=
  match sub, s with
  | [], _ => true
  | _ :: _, [] => false
  | a :: sub', c :: s' => N.eqb a c && startswith sub' s'
  end.

(** [s.find(sub)]: lowest index at which [sub] occurs, [-1] when absent. *)
Fixpoint find_from (sub s : str) (k : Z) : Z :=
  if startswith sub s then k
  else match s with
       | [] => -1
       | _ :: s' => find_from sub s' (k + 1)
       end.

Definition find (s sub : str) : Z := find_from sub s 0.

(** [sub in s], written [s.find(sub) >= 0] in the source. *)
Definition contains (s sub : str) : bool := 0 <=? find s sub.

(** [s[k:]] with Python's treatment of a negative or too large bound. *)
Definition slice_from (s : str) (k : Z) : str :=
  let n := Z.of_nat (length s) in
  let j := if k <? 0 then Z.max 0 (n + k) else k in
  drop (Z.to_nat j) s.

(** ** Exceptions and results *)

Inductive exn :=
| IndexError
| SystemExit (code : Z)
| OSError.

Inductive result (A : Type) :=
| Ok (a : A)
| Raise (e : exn).
Arguments Ok {A} a.
Arguments Raise {A} e.

#[global] Instance result_ret : MRet result := fun _ a => Ok a.
#[global] Instance result_bind : MBind result := fun _ _ f r =>
  match r with
  | Ok a => f a
  | Raise e => Raise e
  end.

(** [l[k]]: a negative index counts from the end, an index out of range
    raises [IndexError]. *)
Definition py_index {A} (l : list A) (k : Z) : result A :=
  let n := Z.of_nat (length l) in
  let j := if k <? 0 then k + n else k in
  if (j <? 0) || (n <=? j) then Raise IndexError
  else match l !! Z.to_nat j with
       | Some x => Ok x
       | None => Raise IndexError
       end.

(** ** Regular expressions

    The patterns of the source use literals, [.], [^], [$], a star over a
    single character or over [.], and groups that are neither nested nor
    starred.  [rmatch] is a backtracking matcher for this fragment with the
    priorities of Python's [re]: a star first tries its longest run. *)

Inductive atom :=
| Chr (c : char)
| Dot.

Definition atom_ok (a : atom) (c : char) : bool :=
  match a with
  | Chr d => N.eqb c d
  | Dot => negb (N.eqb c nl)
  end.

Inductive tok :=
| Bol
| Eol
| One (a : atom)
| Star (a : atom)
| GOpen
| GClose.

Definition regex := list tok.

(** The text of the group being matched, if one is open. *)
Definition push (c : char) (g : option str) : option str :=
  match g with
  | Some t => Some (t ++ [c])
  | None => None
  end.

Definition close (g : option str) : str :=
  match g with
  | Some t => t
  | None => []
  end.

(** A greedy star over one item: take the longest run first and give
    characters back one at a time while the rest [k] of the pattern fails. *)
Fixpoint star (a : atom) (k : bool -> option str -> str -> option (list str))
    (bol : bool) (g : option str) (s : str) {struct s} : option (list str) :=
  match s with
  | c :: s' =>
      if atom_ok a c then
        match star a k false (push c g) s' with
        | Some r => Some r
        | None => k bol g s
        end
      else k bol g s
  | [] => k bol g s
  end.

(** [rmatch p bol g gs s]: match [p] against a prefix of [s]; [bol] tells
    whether [s] is the whole subject, [g] is the open group, [gs] the closed
    ones.  The result is the tuple of [groups()]. *)
Fixpoint rmatch (p : regex) (bol : bool) (g : option str) (gs : list str)
    (s : str) {struct p} : option (list str) :=
  match p with
  | [] => Some gs
  | Bol :: p' => if bol then rmatch p' bol g gs s else None
  | Eol :: p' =>
      match s with
      | [] => rmatch p' bol g gs s
      | [c] => if N.eqb c nl then rmatch p' bol g gs s else None
      | _ => None
      end
  | One a :: p' =>
      match s with
      | c :: s' => if atom_ok a c then rmatch p' false (push c g) gs s' else None
      | [] => None
      end
  | Star a :: p' => star a (fun bol g s => rmatch p' bol g gs s) bol g s
  | GOpen :: p' => rmatch p' bol (Some []) gs s
  | GClose :: p' => rmatch p' bol None (gs ++ [close g]) s
  end.

(** [re.search]: the first start position at which the pattern matches. *)
Fixpoint search_from (p : regex) (bol : bool) (s : str) : option (list str) :=
  match rmatch p bol None [] s with
  | Some gs => Some gs
  | None =>
      match s with
      | [] => None
      | _ :: s' => search_from p false s'
      end
  end.

Definition re_search (p : regex) (s : str) : option (list str) :=
  search_from p true s.

(** [m.groups()[k]]; every group of the patterns below takes part in every
    match, so no entry is ever [None]. *)
Definition group (gs : list str) (k : nat) : str := nth k gs [].

(** *** Compiling a pattern

    The patterns are kept as the source writes them.  [re_compile] reads a
    pattern left to right: a backslash quotes the next character (and
    backslash-t is a tab, as in Python for both plain and raw literals),
    a star applies to the single item before it, and a brace that opens no
    repetition count stands for itself. *)

Inductive ptok :=
| PLit (c : char)
| PDot
| PBol
| PEol
| POpen
| PClose
| PStar.

Definition unescape (c : char) : char :=
  if N.eqb c 116%N then tab else c.

Fixpoint lex (cs : str) : list ptok :=
  match cs with
  | [] => []
  | c :: r =>
      if N.eqb c 92%N then
        match r with
        | d :: r' => PLit (unescape d) :: lex r'
        | [] => [PLit c]
        end
      else if N.eqb c 46%N then PDot :: lex r
      else if N.eqb c 94%N then PBol :: lex r
      else if N.eqb c 36%N then PEol :: lex r
      else if N.eqb c 40%N then POpen :: lex r
      else if N.eqb c 41%N then PClose :: lex r
      else if N.eqb c 42%N then PStar :: lex r
      else PLit c :: lex r
  end.

Definition item (t : ptok) : tok :=
  match t with
  | PLit c => One (Chr c)
  | PDot => One Dot
  | PBol => Bol
  | PEol => Eol
  | POpen => GOpen
  | PClose => GClose
  | PStar => One (Chr 42%N)
  end.

Definition starred (t : ptok) : tok :=
  match t with
  | PLit c => Star (Chr c)
  | PDot => Star Dot
  | _ => item t
  end.

Fixpoint stars (ts : list ptok) : regex :=
  match ts with
  | [] => []
  | t :: r =>
      match r with
      | PStar :: r' => starred t :: stars r'
      | _ => item t :: stars r
      end
  end.

Definition re_compile (pattern : string) : regex := stars (lex (lit pattern)).

Definition re_line : regex := re_compile "^(\t*)(.*)$".
Definition re_parent_code_block : regex := re_compile "^(\t*)- (```)".
Definition re_child_code_block : regex := re_compile "^(\t*)  (```)".
Definition re_asset : regex := re_compile "(^.*\[.*\]\()(../)assets/(.*)\)".
Definition re_drawio : regex := re_compile "(^.*){{renderer :drawio, (.*.svg)}}".
Definition re_todo : regex := re_compile "(^\t*)- TODO (.*)$".
Definition re_doing : regex := re_compile "(^\t*)- DOING (.*)$".
Definition re_done : regex := re_compile "(^\t*)- DONE (.*)$".
Definition re_later : regex := re_compile "(^\t*)- LATER (.*)$".
Definition re_now : regex := re_compile "(^\t*)- NOW (.*)$".

Definition lits (s : string) : regex := map (fun c => One (Chr c)) (lit s).

(** ** The file system

    What the exporter does to the world: the calls to [import_asset], the
    files that end up under the output's [assets] directory, and the exported
    document once it is written.  [copy_ok subdir filename] tells whether
    [shutil.copy] of that asset succeeds on this file system. *)

Record world := {
  copy_ok : str -> str -> bool;
  import_calls : list (str * str);
  copied : list str;
  written : option str
}.

Definition M (A : Type) : Type := world -> result A * world.

#[global] Instance M_ret : MRet M := fun _ a w => (Ok a, w).
#[global] Instance M_bind : MBind M := fun _ _ f m w =>
  match m w with
  | (Ok a, w') => f a w'
  | (Raise e, w') => (Raise e, w')
  end.

Definition lift {A} (r : result A) : M A := fun w => (r, w).

(** [import_asset(logseq_file_base_dir, filename, output_project_path, subdir)] *)
Definition import_asset (filename subdir : str) : M unit := fun w =>
  let calls := import_calls w ++ [(filename, subdir)] in
  if copy_ok w subdir filename then
    (Ok tt, {| copy_ok := copy_ok w; import_calls := calls;
               copied := copied w ++ [filename]; written := written w |})
  else
    (Raise OSError, {| copy_ok := copy_ok w; import_calls := calls;
                       copied := copied w; written := written w |}).

(** Writing the document at the end of the export; the write is taken to
    succeed. *)
Definition write_output (text : str) : M unit := fun w =>
  (Ok tt, {| copy_ok := copy_ok w; import_calls := import_calls w;
             copied := copied w; written := Some text |}).

(** ** Classified lines *)

Inductive LineType :=
| TITLE
| LIST
| QUOTE
| CODE_BLOCK_MARKER
| CODE
| EMPTY
| TEXT.

Inductive LineHierarchy :=
| PARENT
| CHILD.

#[global] Instance LineType_eq_dec : EqDecision LineType.
Proof. solve_decision. Defined.
#[global] Instance LineHierarchy_eq_dec : EqDecision LineHierarchy.
Proof. solve_decision. Defined.

Definition is_type (t u : LineType) : bool := bool_decide (t = u).

Record line_info := {
  content : str;
  indent : Z;
  type : LineType;
  hierarchy : LineHierarchy
}.

Definition set_content (c : str) (l : line_info) : line_info :=
  {| content := c; indent := indent l; type := type l; hierarchy := hierarchy l |}.

Definition chr (a : ascii) : char := N_of_ascii a.

(** [get_line_type(line, line_content_raw)] *)
Definition get_line_type (line line_content_raw : str)
  : result (LineType * LineHierarchy) :=
  L1_tag ← py_index line_content_raw 0;
  let L2_tag :=
    if 2 <? Z.of_nat (length line_content_raw) then line_content_raw !! 2%nat
    else None in
  if N.eqb L1_tag (chr "#") then Ok (TITLE, PARENT)
  else
    match L2_tag with
    | None =>
        if N.eqb L1_tag (chr "-") then Ok (EMPTY, PARENT)
        else if N.eqb L1_tag (chr " ") then Ok (EMPTY, CHILD)
        else Raise (SystemExit 1)
    | Some L2 =>
        if N.eqb L2 (chr " ") then Ok (TEXT, CHILD)
        else if N.eqb L2 (chr ">") then
          if N.eqb L1_tag (chr "-") then Ok (QUOTE, PARENT)
          else Ok (QUOTE, CHILD)
        else if N.eqb L2 (chr "#") then
          if N.eqb L1_tag (chr "-") then Ok (TITLE, PARENT)
          else if N.eqb L1_tag (chr " ") then Ok (TEXT, CHILD)
          else Raise (SystemExit 1)
        else if N.eqb L2 (chr "`") then
          let parent_code_block := re_search re_parent_code_block line in
          let child_code_block := re_search re_child_code_block line in
          if parent_code_block is Some _ then Ok (CODE_BLOCK_MARKER, PARENT)
          else if child_code_block is Some _ then Ok (CODE_BLOCK_MARKER, CHILD)
          else if N.eqb L1_tag (chr "-") then Ok (LIST, PARENT)
          else if N.eqb L1_tag (chr " ") then Ok (TEXT, CHILD)
          else Raise (SystemExit 1)
        else
          if N.eqb L1_tag (chr "-") then Ok (LIST, PARENT)
          else Ok (TEXT, CHILD)
    end.

(** ** Reading the page

    The page is opened in text mode, so every line end of the file reaches the
    program as a single newline; [readlines] keeps the newline on each line. *)

Fixpoint translate_newlines (s : str) : str :=
  match s with
  | [] => []
  | c :: r =>
      if N.eqb c cr then
        match r with
        | d :: r' => if N.eqb d nl then nl :: translate_newlines r'
                     else nl :: translate_newlines r
        | [] => [nl]
        end
      else c :: translate_newlines r
  end.

Fixpoint split_lines (cur s : str) : list str :=
  match s with
  | [] => if cur is [] then [] else [cur]
  | c :: r =>
      if N.eqb c nl then (cur ++ [nl]) :: split_lines [] r
      else split_lines (cur ++ [c]) r
  end.

Definition readlines (file_text : str) : list str :=
  split_lines [] (translate_newlines file_text).

(** The first loop of [export_file_to_folder]: one dictionary per line. *)
Fixpoint classify_lines (lines_raw : list str) (lines : list line_info)
  : result (list line_info) :=
  match lines_raw with
  | [] => Ok lines
  | line :: rest =>
      match re_search re_line line with
      | None => classify_lines rest lines
      | Some groups =>
          let line_content_raw := group groups 1 in
          let line_indent := Z.of_nat (length (group groups 0)) in
          '(line_type, line_hierarchy) ← get_line_type line line_content_raw;
          classify_lines rest
            (lines ++ [ {| content := line_content_raw; indent := line_indent;
                           type := line_type; hierarchy := line_hierarchy |} ])
      end
  end.

(** ** The second loop

    The variables that live across iterations.  [lines] is the list of
    dictionaries itself: the loop assigns to [line_info["content"]], which
    later iterations and the [:END:] scan read back.  The variable [content]
    is assigned on every path that reaches the output, so its value does not
    cross iterations and it is not part of the record. *)

Record locals := {
  lines : list line_info;
  target_line_indent : Z;
  cur_list_depth : Z;
  last_target_line_indent : Z;
  traversing_code_block : bool;
  lines_to_skip : Z;
  output_content : str
}.

Definition set_lines (v : list line_info) (s : locals) : locals :=
  {| lines := v; target_line_indent := target_line_indent s;
     cur_list_depth := cur_list_depth s;
     last_target_line_indent := last_target_line_indent s;
     traversing_code_block := traversing_code_block s;
     lines_to_skip := lines_to_skip s; output_content := output_content s |}.

Definition set_target_line_indent (v : Z) (s : locals) : locals :=
  {| lines := lines s; target_line_indent := v;
     cur_list_depth := cur_list_depth s;
     last_target_line_indent := last_target_line_indent s;
     traversing_code_block := traversing_code_block s;
     lines_to_skip := lines_to_skip s; output_content := output_content s |}.

Definition set_cur_list_depth (v : Z) (s : locals) : locals :=
  {| lines := lines s; target_line_indent := target_line_indent s;
     cur_list_depth := v;
     last_target_line_indent := last_target_line_indent s;
     traversing_code_block := traversing_code_block s;
     lines_to_skip := lines_to_skip s; output_content := output_content s |}.

Definition set_last_target_line_indent (v : Z) (s : locals) : locals :=
  {| lines := lines s; target_line_indent := target_line_indent s;
     cur_list_depth := cur_list_depth s;
     last_target_line_indent := v;
     traversing_code_block := traversing_code_block s;
     lines_to_skip := lines_to_skip s; output_content := output_content s |}.

Definition set_traversing_code_block (v : bool) (s : locals) : locals :=
  {| lines := lines s; target_line_indent := target_line_indent s;
     cur_list_depth := cur_list_depth s;
     last_target_line_indent := last_target_line_indent s;
     traversing_code_block := v;
     lines_to_skip := lines_to_skip s; output_content := output_content s |}.

Definition set_lines_to_skip (v : Z) (s : locals) : locals :=
  {| lines := lines s; target_line_indent := target_line_indent s;
     cur_list_depth := cur_list_depth s;
     last_target_line_indent := last_target_line_indent s;
     traversing_code_block := traversing_code_block s;
     lines_to_skip := v; output_content := output_content s |}.

Definition set_output_content (v : str) (s : locals) : locals :=
  {| lines := lines s; target_line_indent := target_line_indent s;
     cur_list_depth := cur_list_depth s;
     last_target_line_indent := last_target_line_indent s;
     traversing_code_block := traversing_code_block s;
     lines_to_skip := lines_to_skip s; output_content := v |}.

Definition init_locals (ls : list line_info) : locals :=
  {| lines := ls; target_line_indent := 0; cur_list_depth := 0;
     last_target_line_indent := 0; traversing_code_block := false;
     lines_to_skip := 0; output_content := [] |}.

(** One task marker: the [elif] body shared, up to its literals, by TODO,
    DOING, LATER and NOW. *)
Definition task_rewrite (re : regex) (glyph word : string) (c : str) : str :=
  match re_search re c with
  | Some groups => group groups 0 ++ lit glyph ++ lit word ++ group groups 1
  | None => c
  end.

(** The [elif] chain after the code-fence test: the new value of
    [line_info["content"]]. *)
Definition directive_rewrite (c : str) : M str :=
  if contains c (lit "../assets") then
    match re_search re_asset c with
    | Some groups =>
        let filename := group groups 2 in
        _ ← import_asset filename [];
        mret (group groups 0 ++ lit "assets/" ++ group groups 2 ++ lit ")")
    | None => mret c
    end
  else if contains c (lit "{{renderer :drawio,") then
    match re_search re_drawio c with
    | Some groups =>
        let filename := group groups 1 in
        _ ← import_asset filename (lit "storages/logseq-drawio-plugin");
        mret (group groups 0 ++ lit "![" ++ filename ++ lit "]"
                ++ lit "(assets/" ++ filename ++ lit ")")
    | None => mret c
    end
  else if contains c (lit "- TODO ") then
    mret (task_rewrite re_todo "- **&#x2610;" " TODO** " c)
  else if contains c (lit "- DOING ") then
    mret (task_rewrite re_doing "- **&#x231B;" " DOING** " c)
  else if contains c (lit "- DONE ") then
    match re_search re_done c with
    | Some groups =>
        mret (group groups 0 ++ lit "- **&#x2611;** ~~" ++ group groups 1 ++ lit "~~")
    | None => mret c
    end
  else if contains c (lit "- LATER ") then
    mret (task_rewrite re_later "- **&#x23F2;" " LATER** " c)
  else if contains c (lit "- NOW ") then
    mret (task_rewrite re_now "- **&#x23F0;" " NOW** " c)
  else mret c.

(** The code-fence toggle and the directive rewrite of line [i]. *)
Definition rewrite_line (i : nat) (line_info : line_info) (s : locals) : M locals :=
  if is_type (type line_info) CODE_BLOCK_MARKER then
    mret (set_traversing_code_block (negb (traversing_code_block s)) s)
  else
    c ← directive_rewrite (content line_info);
    mret (set_lines (<[i := set_content c line_info]> (lines s)) s).

(** CALCULATE TARGET INDENTATION.  [lines[i - 1]] at [i = 0] is the last line
    of the page. *)
Definition target_indentation (i : nat) (line_info : line_info) (s : locals)
  : result locals :=
  s ← (if bool_decide (i = 0%nat) then Ok (set_target_line_indent 0 s)
       else if is_type (type line_info) TITLE then Ok (set_target_line_indent 0 s)
       else
         prev ← py_index (lines s) (Z.of_nat i - 1);
         if is_type (type prev) TITLE then Ok (set_target_line_indent 0 s)
         else Ok s);
  if negb (is_type (type line_info) TITLE) then
    prev ← py_index (lines s) (Z.of_nat i - 1);
    if negb (is_type (type prev) TITLE) then
      if indent prev <? indent line_info then
        let s := set_cur_list_depth (cur_list_depth s + 1) s in
        if 1 <? cur_list_depth s then
          Ok (set_target_line_indent (last_target_line_indent s + 1) s)
        else
          Ok (set_target_line_indent (last_target_line_indent s) s)
      else if indent line_info <? indent prev then
        let s := set_target_line_indent
                   (Z.max 0 (last_target_line_indent s
                             - (indent prev - indent line_info))) s in
        Ok (set_cur_list_depth (cur_list_depth s - 1) s)
      else
        Ok (set_target_line_indent (last_target_line_indent s) s)
    else Ok s
  else Ok s.

(** [i < len(lines) - 1 and P(lines[i + 1])] *)
Definition next_line_is (i : nat) (s : locals) (P : line_info -> bool)
  : result bool :=
  if Z.of_nat i <? Z.of_nat (length (lines s)) - 1 then
    next ← py_index (lines s) (Z.of_nat i + 1);
    Ok (P next)
  else Ok false.

(** The scan for [:END:], from the [:LOGBOOK:] line on: how many lines come
    before the first one that contains it. *)
Fixpoint lines_before_end (ls : list line_info) : Z :=
  match ls with
  | [] => 0
  | l :: r =>
      if contains (content l) (lit ":END:") then 0
      else 1 + lines_before_end r
  end.

(** Represent each line depending on its type.  [None] is [continue]. *)
Definition by_type (no_br : bool) (i : nat) (line_info : line_info)
    (s : locals) : result (option str * locals) :=
  match type line_info with
  | TITLE =>
      Ok (Some (slice_from (content line_info)
                  (find (content line_info) (lit "#"))),
          set_cur_list_depth 0 s)
  | LIST =>
      if 0 <? cur_list_depth s then
        b ← next_line_is i s (fun next => indent next <? indent line_info);
        Ok (Some (if b : bool then content line_info ++ [nl]
                  else content line_info), s)
      else
        b ← next_line_is i s (fun next =>
               is_type (type next) LIST && (indent next =? indent line_info));
        Ok (Some (if b : bool then slice_from (content line_info) 2 ++ lit "\"
                  else slice_from (content line_info) 2), s)
  | TEXT =>
      if contains (content line_info) (lit "collapsed:: true") then
        Ok (None, s)
      else if contains (content line_info) (lit ":LOGBOOK:") then
        Ok (None,
            set_lines_to_skip
              (lines_to_skip s + lines_before_end (drop i (lines s))) s)
      else
        b ← next_line_is i s (fun next =>
               negb (is_type (type next) (type line_info)));
        Ok (Some (if b : bool then slice_from (content line_info) 2 ++ [nl]
                  else slice_from (content line_info) 2), s)
  | CODE => Ok (Some (slice_from (content line_info) 2), s)
  | EMPTY => Ok (Some (if negb no_br then lit "<br>" ++ [nl] else [nl]), s)
  | CODE_BLOCK_MARKER => Ok (Some (slice_from (content line_info) 2), s)
  | QUOTE => Ok (Some (slice_from (content line_info) 2), s)
  end.

(** The backslash before a following TEXT line. *)
Definition continuation (i : nat) (line_info : line_info) (c : str)
    (s : locals) : result str :=
  if negb (is_type (type line_info) CODE_BLOCK_MARKER) then
    b ← next_line_is i s (fun next =>
           is_type (type next) TEXT && negb (is_type (type line_info) TITLE));
    Ok (if b : bool then c ++ lit "\" else c)
  else Ok c.

Definition represent (no_br : bool) (i : nat) (line_info : line_info)
    (s : locals) : result (option str * locals) :=
  if traversing_code_block s then
    Ok (Some (slice_from (content line_info) 2), s)
  else
    r ← by_type no_br i line_info s;
    match r with
    | (None, s) => Ok (None, s)
    | (Some c, s) => c ← continuation i line_info c s; Ok (Some c, s)
    end.

(** The end of the loop body: newline, tabs, output, indentation baseline. *)
Definition emit (line_info : line_info) (c : str) (s : locals) : locals :=
  let c := c ++ [nl] in
  let tabs := replicate (Z.to_nat (target_line_indent s)) tab in
  let c := tabs ++ c in
  let s := set_output_content (output_content s ++ c) s in
  if bool_decide (hierarchy line_info = PARENT) then
    set_last_target_line_indent (target_line_indent s) s
  else s.

(** One iteration of [for i, line_info in enumerate(lines)]. *)
Definition body (no_br : bool) (i : nat) (s : locals) : M locals :=
  if 0 <? lines_to_skip s then
    mret (set_lines_to_skip (lines_to_skip s - 1) s)
  else
    line_info ← lift (py_index (lines s) (Z.of_nat i));
    s ← rewrite_line i line_info s;
    line_info ← lift (py_index (lines s) (Z.of_nat i));
    s ← lift (target_indentation i line_info s);
    r ← lift (represent no_br i line_info s);
    match r with
    | (None, s) => mret s
    | (Some c, s) => mret (emit line_info c s)
    end.

Fixpoint loop (no_br : bool) (idx : list nat) (s : locals) : M locals :=
  match idx with
  | [] => mret s
  | i :: rest => s ← body no_br i s; loop no_br rest s
  end.

(** The state after the first [n] lines of the second loop. *)
Definition run_lines (no_br : bool) (ls : list line_info) (n : nat) : M locals :=
  loop no_br (seq 0 n) (init_locals ls).

(** [export_file_to_folder(logseq_file, output_path, no_br)], on the text of
    the page: the model starts when the page has been read and decoded.
    [os.makedirs(output_path)] and the read come before that and can fail;
    they are not part of it. *)
Definition export_file_to_folder (file_text : str) (no_br : bool) : M unit :=
  let lines_raw := readlines file_text in
  ls ← lift (classify_lines lines_raw []);
  s ← run_lines no_br ls (length ls);
  write_output (output_content s).

(** A file system on which nothing has happened yet. *)
Definition fresh (ok : str -> str -> bool) : world :=
  {| copy_ok := ok; import_calls := []; copied := []; written := None |}.

(** The exit status of the process: an uncaught exception ends it with 1. *)
Definition exit_status {A} (r : result A) : Z :=
  match r with
  | Ok _ => 0
  | Raise (SystemExit code) => code
  | Raise _ => 1
  end.


(** ** Notions used to state the properties *)

(** A line is left out of the output when it is TEXT and holds one of the two
    Logseq-only tags. *)
Definition dropped (li : line_info) : bool :=
  is_type (type li) TEXT
  && (contains (content li) (lit "collapsed:: true")
      || contains (content li) (lit ":LOGBOOK:")).

(** What the representation stage leaves alone. *)
Definition frame (s s' : locals) : Prop :=
  lines s' = lines s
  ∧ target_line_indent s' = target_line_indent s
  ∧ last_target_line_indent s' = last_target_line_indent s
  ∧ traversing_code_block s' = traversing_code_block s
  ∧ output_content s' = output_content s.

(** The skip counter after a dropped line. *)
Definition skip_after (i : nat) (li : line_info) (s : locals) : Z :=
  if contains (content li) (lit "collapsed:: true") then lines_to_skip s
  else lines_to_skip s + lines_before_end (drop i (lines s)).

(** The part of a dictionary that the second loop never assigns. *)
Definition skel (li : line_info) : Z * LineType * LineHierarchy :=
  (indent li, type li, hierarchy li).

(** What holds of the variables between any two iterations, for the page
    whose classified lines are [ls]. *)
Record invariant (ls : list line_info) (s : locals) : Prop := {
  inv_shape : skel <$> lines s = skel <$> ls;
  inv_target : 0 ≤ target_line_indent s;
  inv_last : 0 ≤ last_target_line_indent s;
  inv_skip : 0 ≤ lines_to_skip s
}.

(** Line [i] is processed when the loop reaches it with the skip counter at
    zero. *)
Definition processed (no_br : bool) (ls : list line_info) (w : world)
    (i : nat) : bool :=
  match run_lines no_br ls i w with
  | (Ok s, _) => negb (0 <? lines_to_skip s)
  | (Raise _, _) => false
  end.

Definition is_marker_at (ls : list line_info) (i : nat) : bool :=
  match ls !! i with
  | Some li => is_type (type li) CODE_BLOCK_MARKER
  | None => false
  end.

(** How many CODE_BLOCK_MARKER lines there are among the first [n]. *)
Fixpoint markers (ls : list line_info) (n : nat) : nat :=
  match n with
  | O => O
  | S m => (markers ls m + if is_marker_at ls m then 1 else 0)%nat
  end.

(** How many of them are processed. *)
Fixpoint processed_markers (no_br : bool) (ls : list line_info) (w : world)
    (n : nat) : nat :=
  match n with
  | O => O
  | S m =>
      (processed_markers no_br ls w m
       + if processed no_br ls w m && is_marker_at ls m then 1 else 0)%nat
  end.

(** ** Pages and file systems used as examples *)

(** A file system on which every asset can be copied. *)
Definition always_ok : str -> str -> bool := fun _ _ => true.

(** Lines of text, each ended by a newline. *)
Definition page (ls : list str) : str := concat (map (fun l => l ++ [nl]) ls).

(** The substrings that start a branch of the rewrite chain. *)
Definition triggers : list str :=
  [lit "../assets"; lit "{{renderer :drawio,"; lit "- TODO "; lit "- DOING ";
   lit "- DONE "; lit "- LATER "; lit "- NOW "].

Definition no_trigger (c : str) : bool :=
  forallb (fun t => negb (contains c t)) triggers.

(** The tabs that [emit] puts before a line. *)
Definition tabs_of (s : locals) : str :=
  replicate (Z.to_nat (target_line_indent s)) tab.

(** The open group after a run of characters went into it. *)
Definition pushes (xs : str) (g : option str) : option str :=
  match g with
  | Some t => Some (t ++ xs)
  | None => None
  end.

(** A string without a newline: what [.*] can take whole. *)
Definition no_newline (s : str) : Prop := Forall (fun c => c ≠ nl) s.

(** The triggers tested before [t] in the rewrite chain, and a content on
    which none of them is found. *)
Fixpoint chain_before (t : str) (l : list str) : list str :=
  match l with
  | [] => []
  | u :: l' => if str_eqb u t then [] else u :: chain_before t l'
  end.

Definition none_before (t c : str) : bool :=
  forallb (fun u => negb (contains c u)) (chain_before t triggers).

(** A content made of [k] tabs, a literal and the rest of the line. *)
Definition marked (k : nat) (kw : string) (rest : str) : str :=
  replicate k tab ++ lit kw ++ rest.

(** No rule of the classifier matches: the content begins with something
    other than [#], [-] and a space, and its third character is missing, or
    is [#], or is a backquote that opens no fence. *)
Definition no_rule_matches (line content : str) : bool :=
  match content with
  | [] => false
  | L1 :: _ =>
      negb (N.eqb L1 (chr "#")) && negb (N.eqb L1 (chr "-"))
      && negb (N.eqb L1 (chr " "))
      && match content !! 2%nat with
         | None => true
         | Some L2 =>
             N.eqb L2 (chr "#")
             || (N.eqb L2 (chr "`")
                 && negb (bool_decide (is_Some (re_search re_parent_code_block line)))
                 && negb (bool_decide (is_Some (re_search re_child_code_block line))))
         end
  end.


(** ** Notions used to state further properties *)

(** The dictionary [li] holds the whole of [line]: the line is the
    indentation in tabs, the content and the line end; the content is not
    empty, holds no newline and does not begin with a tab; type and hierarchy
    are the classifier's answer for it. *)
Definition holds_line (line : str) (li : line_info) : Prop :=
  ∃ e, (e = [] ∨ e = [nl])
    ∧ line = replicate (Z.to_nat (indent li)) tab ++ content li ++ e
    ∧ content li ≠ [] ∧ no_newline (content li)
    ∧ head (content li) ≠ Some tab
    ∧ get_line_type line (content li) = Ok (type li, hierarchy li).

(** The task markers in the order in which the rewrite chain tests them:
    the marker, what is written in its place, and what is written after the
    rest of the line. *)
Definition task_markers : list (string * string * string) :=
  [ ("- TODO ", "- **&#x2610; TODO** ", "");
    ("- DOING ", "- **&#x231B; DOING** ", "");
    ("- DONE ", "- **&#x2611;** ~~", "~~");
    ("- LATER ", "- **&#x23F2; LATER** ", "");
    ("- NOW ", "- **&#x23F0; NOW** ", "") ]%string.

(** The directory of the drawio plugin under [assets]. *)
Definition drawio_subdir : str := lit "storages/logseq-drawio-plugin".

(** A content without its leading tabs. *)
Fixpoint after_tabs (s : str) : str :=
  match s with
  | c :: r => if N.eqb c tab then after_tabs r else s
  | [] => []
  end.

Definition raised {A} (r : result A) : bool :=
  match r with
  | Ok _ => false
  | Raise _ => true
  end.

(** What a stretch of the second loop does to the file system, from [w] to
    [w']: it makes the calls [calls] to [import_asset], each from [assets]
    itself or from the drawio plugin's directory, and touches nothing else.
    When it ends normally every copy succeeded; when it fails the last call
    is the one whose copy failed, and the copies before it stay. *)
Definition imports (w : world) (calls : list (str * str)) (failed : bool)
    (w' : world) : Prop :=
  copy_ok w' = copy_ok w ∧ written w' = written w
  ∧ import_calls w' = import_calls w ++ calls
  ∧ Forall (λ call, call.2 = [] ∨ call.2 = drawio_subdir) calls
  ∧ (if failed then
       ∃ before f sd,
         calls = before ++ [(f, sd)] ∧ copy_ok w sd f = false
         ∧ Forall (λ call, copy_ok w call.2 call.1 = true) before
         ∧ copied w' = copied w ++ before.*1
     else
       Forall (λ call, copy_ok w call.2 call.1 = true) calls
       ∧ copied w' = copied w ++ calls.*1).

(** How many newlines a text holds. *)
Definition newlines (s : str) : nat := length (List.filter (N.eqb nl) s).

(** ** A flat list

    What the exporter writes for line [i] of a page made of LIST lines of
    one indentation: the content without its bullet, a backslash unless the
    line is the last one, and a newline. *)
Definition flat_line (ls : list line_info) (i : nat) (l : line_info) : str :=
  slice_from (content l) 2
    ++ (if bool_decide (S i < length ls)%nat then lit "\" else [])
    ++ [nl].

Definition flat_output (ls : list line_info) : str :=
  concat (imap (flat_line ls) ls).

(** The variables of the second loop after [n] lines of such a page. *)
Definition flat_state (ls : list line_info) (n : nat) : locals :=
  {| lines := ls; target_line_indent := 0; cur_list_depth := 0;
     last_target_line_indent := 0; traversing_code_block := false;
     lines_to_skip := 0;
     output_content := concat (imap (flat_line ls) (take n ls)) |}.
(** ** The text of an emitted line

    What the representation stage gives for a line, taken apart: a text
    without newline, then a newline in three cases, then a backslash before
    a line that continues this one.  [s] holds the variables after the
    indentation stage. *)

(** A test on the line after line [i]; false on the last line. *)
Definition next_is (i : nat) (s : locals) (P : line_info -> bool) : bool :=
  match lines s !! S i with
  | Some next => P next
  | None => false
  end.

Definition base_text (no_br : bool) (li : line_info) (s : locals) : str :=
  if traversing_code_block s then slice_from (content li) 2
  else
    match type li with
    | TITLE => slice_from (content li) (find (content li) (lit "#"))
    | LIST =>
        if 0 <? cur_list_depth s then content li
        else slice_from (content li) 2
    | EMPTY => if no_br then [] else lit "<br>"
    | _ => slice_from (content li) 2
    end.

(** The text holds a newline of its own: outside a code block, for an EMPTY
    line, for a LIST line below the first level whose next line is less
    indented, and for a TEXT line whose next line is not TEXT. *)
Definition breaks_line (i : nat) (li : line_info) (s : locals) : bool :=
  negb (traversing_code_block s)
  && match type li with
     | EMPTY => true
     | LIST =>
         (0 <? cur_list_depth s)
         && next_is i s (fun next => indent next <? indent li)
     | TEXT => next_is i s (fun next => negb (is_type (type next) TEXT))
     | _ => false
     end.

(** The text ends with a backslash: outside a code block, for a LIST line
    of the first level before a LIST line of the same indentation, and for
    any line but a TITLE and a fence marker before a TEXT line. *)
Definition continued (i : nat) (li : line_info) (s : locals) : bool :=
  negb (traversing_code_block s)
  && match type li with
     | TITLE => false
     | CODE_BLOCK_MARKER => false
     | LIST =>
         (negb (0 <? cur_list_depth s)
          && next_is i s (fun next =>
               is_type (type next) LIST && (indent next =? indent li)))
         || next_is i s (fun next => is_type (type next) TEXT)
     | _ => next_is i s (fun next => is_type (type next) TEXT)
     end.

Definition rendered (no_br : bool) (i : nat) (li : line_info) (s : locals)
  : str :=
  base_text no_br li s
    ++ (if breaks_line i li s then [nl] else [])
    ++ (if continued i li s then lit "\" else []).

(** ** The two loops

    Lines 131 to 366 of [export_file_to_folder], from the lines read to the
    variables after the last line. *)
Definition two_loops (lines_raw : list str) (no_br : bool) : M locals :=
  ls ← lift (classify_lines lines_raw []);
  run_lines no_br ls (length ls).

(** * The patterns, compiled *)

Example re_line_tokens :
  re_line = [Bol; GOpen; Star (Chr tab); GClose; GOpen; Star Dot; GClose; Eol].
Proof. reflexivity. Qed.

Example re_asset_tokens :
  re_asset
  = [GOpen; Bol; Star Dot] ++ lits "[" ++ [Star Dot] ++ lits "](" ++ [GClose]
      ++ [GOpen; One Dot; One Dot] ++ lits "/" ++ [GClose]
      ++ lits "assets/" ++ [GOpen; Star Dot; GClose] ++ lits ")".
Proof. reflexivity. Qed.

Example re_drawio_tokens :
  re_drawio
  = [GOpen; Bol; Star Dot; GClose] ++ lits "{{renderer :drawio, "
      ++ [GOpen; Star Dot; One Dot] ++ lits "svg" ++ [GClose] ++ lits "}}".
Proof. reflexivity. Qed.

Example re_todo_tokens :
  re_todo
  = [GOpen; Bol; Star (Chr tab); GClose] ++ lits "- TODO "
      ++ [GOpen; Star Dot; GClose; Eol].
Proof. reflexivity. Qed.

(** What the matcher gives on a few subjects, as Python's [re.search] does:
    the line end before a final newline only, a search that cannot start
    after the first position, stars that give characters back. *)
Example re_line_ex :
  re_search re_line ([tab; tab] ++ lit "- C" ++ [nl])
  = Some [[tab; tab]; lit "- C"]
  ∧ re_search re_line (lit "a" ++ [tab] ++ lit "b") = Some [[]; lit "a" ++ [tab] ++ lit "b"]
  ∧ re_search re_line (lit "a" ++ [nl] ++ lit "b") = None
  ∧ re_search re_line [nl] = Some [[]; []].
Proof. repeat split. Qed.

Example re_code_block_ex :
  re_search re_parent_code_block ([tab] ++ lit "- ```python" ++ [nl])
  = Some [[tab]; lit "```"]
  ∧ re_search re_parent_code_block (lit "x- ```" ++ [nl]) = None
  ∧ re_search re_child_code_block ([tab] ++ lit "  ```" ++ [nl])
    = Some [[tab]; lit "```"].
Proof. repeat split. Qed.

Example re_asset_ex :
  re_search re_asset (lit "![x](../assets/img.png)")
  = Some [lit "![x]("; lit "../"; lit "img.png"]
  ∧ re_search re_asset
      (lit "- [a](b) ![x](../assets/i(1).png) and (more) text")
    = Some [lit "- [a](b) ![x]("; lit "../"; lit "i(1).png) and (more"]
  ∧ re_search re_asset (lit "![x](xy/assets/img.png)")
    = Some [lit "![x]("; lit "xy/"; lit "img.png"]
  ∧ re_search re_asset (lit "![x](../assets/img.png") = None.
Proof. repeat split. Qed.

Example re_drawio_ex :
  re_search re_drawio (lit "- {{renderer :drawio, a.svg}} tail")
  = Some [lit "- "; lit "a.svg"]
  ∧ re_search re_drawio (lit "{{renderer :drawio, xsvg}}")
    = Some [[]; lit "xsvg"]
  ∧ re_search re_drawio (lit "{{renderer :drawio, svg}}") = None.
Proof. repeat split. Qed.

Example re_task_ex :
  re_search re_todo (lit "- TODO buy milk") = Some [[]; lit "buy milk"]
  ∧ re_search re_todo (lit "  - TODO buy milk") = None
  ∧ re_search re_done ([tab] ++ lit "- DONE " ++ [nl]) = Some [[tab]; []].
Proof. repeat split. Qed.

(** * Reasoning about the monads *)

Lemma bind_result_inv {A B} (r : result A) (f : A → result B) (b : B) :
  r ≫= f = Ok b → ∃ a, r = Ok a ∧ f a = Ok b.
Proof. destruct r as [a|e]; [by exists a | done]. Qed.

Lemma bind_M_inv {A B} (m : M A) (f : A → M B) (w w' : world) (b : B) :
  (m ≫= f) w = (Ok b, w') → ∃ a w1, m w = (Ok a, w1) ∧ f a w1 = (Ok b, w').
Proof.
  unfold mbind, M_bind. destruct (m w) as [[a|e] w1]; [|done].
  intros H. by exists a, w1.
Qed.

Lemma lift_inv {A} (r : result A) (w w' : world) (a : A) :
  lift r w = (Ok a, w') → r = Ok a ∧ w' = w.
Proof. unfold lift. by intros [= -> ->]. Qed.

Lemma ret_M_inv {A} (a a' : A) (w w' : world) :
  (mret a : M A) w = (Ok a', w') → a' = a ∧ w' = w.
Proof. by intros [= -> ->]. Qed.

(** * Indexing *)

Lemma py_index_Ok {A} (l : list A) (k : Z) (n : nat) (x : A) :
  l !! n = Some x →
  k = Z.of_nat n ∨ k = Z.of_nat n - Z.of_nat (length l) →
  py_index l k = Ok x.
Proof.
  intros H Hk. pose proof (lookup_lt_Some _ _ _ H) as Hlt.
  unfold py_index.
  set (j := if k <? 0 then k + Z.of_nat (length l) else k).
  assert (j = Z.of_nat n) as ->.
  { unfold j. destruct (Z.ltb_spec k 0); lia. }
  destruct (Z.ltb_spec (Z.of_nat n) 0); [lia|].
  destruct (Z.leb_spec (Z.of_nat (length l)) (Z.of_nat n)); [lia|].
  cbn [orb]. by rewrite Nat2Z.id, H.
Qed.

Lemma py_index_nat {A} (l : list A) (i : nat) (x : A) :
  l !! i = Some x → py_index l (Z.of_nat i) = Ok x.
Proof. intros H. eapply py_index_Ok; eauto. Qed.

Lemma py_index_prev {A} (l : list A) (i : nat) :
  (i < length l)%nat →
  ∃ x, py_index l (Z.of_nat i - 1) = Ok x
       ∧ (∀ j, i = S j → l !! j = Some x)
       ∧ (i = 0%nat → l !! (length l - 1)%nat = Some x).
Proof.
  intros Hlt. destruct i as [|j].
  - destruct (lookup_lt_is_Some_2 l (length l - 1)) as [x Hx]; [lia|].
    exists x. split; [|split; [lia|done]].
    eapply py_index_Ok; [done|]. right. lia.
  - destruct (lookup_lt_is_Some_2 l j) as [x Hx]; [lia|].
    exists x. split; [|split; [|lia]].
    + eapply py_index_Ok; [done|]. left. lia.
    + by intros ? [= <-].
Qed.

Lemma py_index_next {A} (l : list A) (i : nat) :
  Z.of_nat i < Z.of_nat (length l) - 1 →
  ∃ x, py_index l (Z.of_nat i + 1) = Ok x ∧ l !! S i = Some x.
Proof.
  intros Hlt. destruct (lookup_lt_is_Some_2 l (S i)) as [x Hx]; [lia|].
  exists x. split; [|done].
  replace (Z.of_nat i + 1) with (Z.of_nat (S i)) by lia.
  by apply py_index_nat.
Qed.

(** * The stages of the loop body *)

Lemma rewrite_line_inv i li s w s' w' :
  rewrite_line i li s w = (Ok s', w') →
  (type li = CODE_BLOCK_MARKER
   ∧ s' = set_traversing_code_block (negb (traversing_code_block s)) s
   ∧ w' = w)
  ∨ (type li ≠ CODE_BLOCK_MARKER
     ∧ ∃ c, directive_rewrite (content li) w = (Ok c, w')
            ∧ s' = set_lines (<[i := set_content c li]> (lines s)) s).
Proof.
  unfold rewrite_line, is_type. case_bool_decide as Ht.
  - intros [-> ->]%ret_M_inv. by left.
  - intros (c & w1 & Hc & [-> ->]%ret_M_inv)%bind_M_inv. right. eauto.
Qed.

Lemma target_indentation_spec i li s :
  (i < length (lines s))%nat →
  ∃ t d,
    target_indentation i li s
    = Ok {| lines := lines s; target_line_indent := t; cur_list_depth := d;
            last_target_line_indent := last_target_line_indent s;
            traversing_code_block := traversing_code_block s;
            lines_to_skip := lines_to_skip s;
            output_content := output_content s |}
    ∧ (0 ≤ target_line_indent s → 0 ≤ last_target_line_indent s → 0 ≤ t)
    ∧ (type li = TITLE → t = 0)
    ∧ (∀ j p, i = S j → lines s !! j = Some p → type p = TITLE → t = 0).
Proof.
  intros Hlt. destruct (py_index_prev (lines s) i Hlt) as (p & Hp & Hprev & _).
  unfold target_indentation, is_type.
  repeat first
    [ progress cbn [mbind result_bind negb lines set_target_line_indent
                    set_cur_list_depth]
    | rewrite Hp
    | case_bool_decide
    | match goal with
      | |- context [if ?a <? ?b then _ else _] => destruct (Z.ltb_spec a b)
      end ].
  all: try congruence.
  all: cbn; eexists _, _; (split; [reflexivity|]).
  all: repeat split; intros; subst; try lia; try congruence.
  all: try (match goal with H : ∀ j, _ = S j → _ |- _ => specialize (H _ eq_refl) end; congruence).
  all: cbn; lia.
Qed.

Lemma next_line_is_total i s P :
  ∃ b, next_line_is i s P = Ok b
       ∧ (b = true → ∃ next, lines s !! S i = Some next ∧ P next = true).
Proof.
  unfold next_line_is.
  destruct (Z.ltb_spec (Z.of_nat i) (Z.of_nat (length (lines s)) - 1)) as [Hlt|Hge].
  - destruct (py_index_next _ _ Hlt) as (x & -> & Hx). exists (P x).
    split; [done|]. intros HP. by exists x.
  - exists false. split; [done|]. done.
Qed.

Lemma by_type_spec no_br i li s :
  ∃ r s', by_type no_br i li s = Ok (r, s') ∧ frame s s'
    ∧ match r with
      | None => dropped li = true
                ∧ cur_list_depth s' = cur_list_depth s
                ∧ lines_to_skip s' = skip_after i li s
      | Some c => dropped li = false ∧ lines_to_skip s' = lines_to_skip s
      end.
Proof.
  unfold by_type, dropped, skip_after, is_type, frame.
  destruct (type li) eqn:Ht; cbn [mbind result_bind].
  all: repeat first
    [ match goal with
      | |- context [next_line_is ?i ?s ?P] =>
          destruct (next_line_is_total i s P) as (? & -> & _)
      | |- context [if contains ?a ?b then _ else _] => destruct (contains a b) eqn:?
      | |- context [if ?a <? ?b then _ else _] => destruct (Z.ltb_spec a b)
      end
    | progress cbn [mbind result_bind] ].
  all: eexists _, _; (split; [reflexivity|]); cbn.
  all: repeat split; try done.
  all: try by rewrite bool_decide_eq_false_2.
  all: try by rewrite bool_decide_eq_true_2.
Qed.

Lemma represent_spec no_br i li s :
  ∃ r s', represent no_br i li s = Ok (r, s') ∧ frame s s'
    ∧ match r with
      | None => traversing_code_block s = false ∧ dropped li = true
                ∧ cur_list_depth s' = cur_list_depth s
                ∧ lines_to_skip s' = skip_after i li s
      | Some c => (traversing_code_block s = true
                   → c = slice_from (content li) 2 ∧ s' = s)
                  ∧ (traversing_code_block s = true ∨ dropped li = false)
                  ∧ lines_to_skip s' = lines_to_skip s
      end.
Proof.
  unfold represent. destruct (traversing_code_block s) eqn:Htr.
  - eexists _, _. split; [reflexivity|]. split; [done|]. naive_solver.
  - destruct (by_type_spec no_br i li s) as ([c|] & s' & -> & Hf & Hr);
      cbn [mbind result_bind].
    + destruct Hr as [Hd Hs]. unfold continuation.
      destruct (negb _); cbn [mbind result_bind].
      * destruct (next_line_is_total i s' (λ next,
            is_type (type next) TEXT && negb (is_type (type li) TITLE)))
          as (b & -> & _). cbn [mbind result_bind].
        eexists _, _. split; [reflexivity|]. split; [done|]. naive_solver.
      * eexists _, _. split; [reflexivity|]. split; [done|]. naive_solver.
    + destruct Hr as (Hd & Hc & Hs).
      eexists _, _. split; [reflexivity|]. split; [done|]. naive_solver.
Qed.

Lemma body_inv no_br i s w s' w' li :
  lines s !! i = Some li →
  body no_br i s w = (Ok s', w') →
  (0 < lines_to_skip s
   ∧ s' = set_lines_to_skip (lines_to_skip s - 1) s ∧ w' = w)
  ∨ (lines_to_skip s ≤ 0
     ∧ ∃ s1 li1 s2 r s3,
         rewrite_line i li s w = (Ok s1, w')
         ∧ lines s1 !! i = Some li1
         ∧ target_indentation i li1 s1 = Ok s2
         ∧ represent no_br i li1 s2 = Ok (r, s3)
         ∧ s' = match r with
                | None => s3
                | Some c => emit li1 c s3
                end).
Proof.
  intros Hli. unfold body.
  destruct (Z.ltb_spec 0 (lines_to_skip s)) as [Hskip|Hskip].
  - intros [-> ->]%ret_M_inv. by left.
  - intros (li0 & w0 & [Hli0 ->]%lift_inv & H)%bind_M_inv.
    rewrite (py_index_nat _ _ _ Hli) in Hli0. injection Hli0 as <-.
    apply bind_M_inv in H as (s1 & w1 & Hrw & H).
    apply bind_M_inv in H as (li1 & w2 & [Hli1 ->]%lift_inv & H).
    apply bind_M_inv in H as (s2 & w3 & [Hti ->]%lift_inv & H).
    apply bind_M_inv in H as ([r s3] & w4 & [Hrep ->]%lift_inv & H).
    right. split; [done|].
    assert (is_Some (lines s1 !! i)) as [li1' Hli1'].
    { apply lookup_lt_is_Some.
      apply rewrite_line_inv in Hrw as [(_ & -> & _)|(_ & c & _ & ->)]; cbn;
        rewrite ?length_insert; by eapply lookup_lt_Some. }
    rewrite (py_index_nat _ _ _ Hli1') in Hli1. injection Hli1 as <-.
    exists s1, li1', s2, r, s3.
    destruct r as [c|]; apply ret_M_inv in H as [-> ->]; done.
Qed.

(** What one processed line does, in one statement: [li1] is the line after
    the rewrite, [t] its target indentation, [r] what is appended. *)
Lemma body_processed no_br i s w s' w' li :
  lines s !! i = Some li →
  lines_to_skip s ≤ 0 →
  body no_br i s w = (Ok s', w') →
  ∃ li1 r,
    lines s' = <[i := li1]> (lines s)
    ∧ indent li1 = indent li ∧ type li1 = type li ∧ hierarchy li1 = hierarchy li
    ∧ (if is_type (type li) CODE_BLOCK_MARKER
       then li1 = li ∧ w' = w
            ∧ traversing_code_block s' = negb (traversing_code_block s)
       else directive_rewrite (content li) w = (Ok (content li1), w')
            ∧ traversing_code_block s' = traversing_code_block s)
    ∧ (0 ≤ target_line_indent s → 0 ≤ last_target_line_indent s
       → 0 ≤ target_line_indent s')
    ∧ (type li = TITLE → target_line_indent s' = 0)
    ∧ (∀ j p, i = S j → lines s !! j = Some p → type p = TITLE
       → target_line_indent s' = 0)
    ∧ match r with
      | None =>
          traversing_code_block s' = false ∧ dropped li1 = true
          ∧ output_content s' = output_content s
          ∧ last_target_line_indent s' = last_target_line_indent s
          ∧ lines_to_skip s' = skip_after i li1 (set_lines (lines s') s)
      | Some c =>
          output_content s'
          = output_content s
              ++ replicate (Z.to_nat (target_line_indent s')) tab ++ c ++ [nl]
          ∧ last_target_line_indent s'
            = (if bool_decide (hierarchy li = PARENT) then target_line_indent s'
               else last_target_line_indent s)
          ∧ lines_to_skip s' = lines_to_skip s
          ∧ (traversing_code_block s' = true → c = slice_from (content li1) 2)
          ∧ (traversing_code_block s' = true ∨ dropped li1 = false)
      end.
Proof.
  intros Hli Hskip Hbody.
  pose proof (lookup_lt_Some _ _ _ Hli) as Hlt.
  destruct (body_inv _ _ _ _ _ _ _ Hli Hbody)
    as [(? & _)|(_ & s1 & li1 & s2 & r & s3 & Hrw & Hli1 & Hti & Hrep & ->)]; [lia|].
  assert (lines s1 = <[i := li1]> (lines s)
          ∧ indent li1 = indent li ∧ type li1 = type li
          ∧ hierarchy li1 = hierarchy li
          ∧ target_line_indent s1 = target_line_indent s
          ∧ last_target_line_indent s1 = last_target_line_indent s
          ∧ lines_to_skip s1 = lines_to_skip s
          ∧ output_content s1 = output_content s
          ∧ (if is_type (type li) CODE_BLOCK_MARKER
             then li1 = li ∧ w' = w
                  ∧ traversing_code_block s1 = negb (traversing_code_block s)
             else directive_rewrite (content li) w = (Ok (content li1), w')
                  ∧ traversing_code_block s1 = traversing_code_block s))
    as (Hl1 & Hind & Hty & Hhi & Ht1 & Hlast1 & Hsk1 & Hout1 & Hrw1).
  { unfold is_type.
    apply rewrite_line_inv in Hrw as [(Hm & -> & ->)|(Hm & c & Hc & ->)];
      cbn in Hli1 |- *.
    - rewrite Hli in Hli1. injection Hli1 as <-.
      rewrite bool_decide_eq_true_2 by done.
      by rewrite list_insert_id. 
    - rewrite list_lookup_insert_eq in Hli1 by done. injection Hli1 as <-.
      rewrite bool_decide_eq_false_2 by done. done. }
  destruct (target_indentation_spec i li1 s1) as (t & d & Hti' & Hnn & Htt & Htp).
  { by rewrite Hl1, length_insert. }
  rewrite Hti' in Hti. injection Hti as <-.
  destruct (represent_spec no_br i li1
    {| lines := lines s1; target_line_indent := t; cur_list_depth := d;
       last_target_line_indent := last_target_line_indent s1;
       traversing_code_block := traversing_code_block s1;
       lines_to_skip := lines_to_skip s1;
       output_content := output_content s1 |})
    as (r' & s3' & Hrep' & (Hf1 & Hf2 & Hf3 & Hf4 & Hf5) & Hr).
  rewrite Hrep' in Hrep. injection Hrep as <- <-. cbn in Hf1, Hf2, Hf3, Hf4, Hf5.
  exists li1, r'.
  assert (traversing_code_block s3' = traversing_code_block s1) as Htr3 by done.
  assert (∀ j p, i = S j → lines s !! j = Some p → type p = TITLE → t = 0) as Htp'.
  { intros j p -> Hp. apply (Htp j p eq_refl).
    rewrite Hl1, list_lookup_insert_ne by lia. done. }
  rewrite Ht1, Hlast1 in Hnn. rewrite Hty in Htt.
  destruct r' as [c|]; cbn in Hr.
  - destruct Hr as (Hc & Hd & Hs). unfold emit.
    case_bool_decide as Hpar; cbn; rewrite ?Hf1, ?Hf2, ?Hf3, ?Hf4, ?Hf5.
    all: rewrite Hhi in Hpar.
    all: rewrite ?bool_decide_eq_true_2, ?bool_decide_eq_false_2 by done.
    all: rewrite Hs, Hsk1, Hout1, ?Hlast1.
    all: repeat (split; [done|]); split; [intros Htrue; by destruct (Hc Htrue)|done].
  - destruct Hr as (Htr & Hd & Hdep & Hs).
    rewrite Hf1, Hf2, Hf3, Hf4, Hf5.
    repeat (split; [done|]).
    rewrite Hs. unfold skip_after; cbn. rewrite Hsk1, Hl1. done.
Qed.

(** * The loop *)

Lemma loop_app no_br a b s w :
  loop no_br (a ++ b) s w
  = match loop no_br a s w with
    | (Ok s1, w1) => loop no_br b s1 w1
    | (Raise e, w1) => (Raise e, w1)
    end.
Proof.
  revert s w. induction a as [|i a IH]; intros s w; [done|].
  cbn [app loop]. unfold mbind, M_bind.
  destruct (body no_br i s w) as [[s1|e] w1]; [apply IH|done].
Qed.

Lemma run_lines_S no_br ls n w :
  run_lines no_br ls (S n) w
  = match run_lines no_br ls n w with
    | (Ok s, w1) => body no_br n s w1
    | (Raise e, w1) => (Raise e, w1)
    end.
Proof.
  unfold run_lines. rewrite seq_S, loop_app. cbn [Nat.add].
  destruct (loop no_br (seq 0 n) (init_locals ls) w) as [[s|e] w1]; [|done].
  cbn [loop]. unfold mbind, M_bind, mret, M_ret.
  by destruct (body no_br n s w1) as [[s1|e] w2].
Qed.

Lemma lines_before_end_nonneg ls : 0 ≤ lines_before_end ls.
Proof. induction ls as [|l ls IH]; cbn; [done|]. destruct (contains _ _); lia. Qed.

Lemma lines_before_end_le ls : lines_before_end ls ≤ Z.of_nat (length ls).
Proof.
  induction ls as [|l ls IH]; cbn [lines_before_end length]; [done|].
  destruct (contains _ _); lia.
Qed.

Lemma invariant_init ls : invariant ls (init_locals ls).
Proof. by split. Qed.

Lemma invariant_lookup ls s i l0 :
  invariant ls s → ls !! i = Some l0 →
  ∃ li, lines s !! i = Some li ∧ skel li = skel l0.
Proof.
  intros [Hshape _ _ _] Hl0.
  assert ((skel <$> lines s) !! i = Some (skel l0)) as H.
  { by rewrite Hshape, list_lookup_fmap, Hl0. }
  rewrite list_lookup_fmap in H.
  destruct (lines s !! i) as [li|]; [|done].
  cbn in H. exists li. split; [done|]. congruence.
Qed.

Lemma invariant_length ls s : invariant ls s → length (lines s) = length ls.
Proof.
  intros [Hshape _ _ _].
  by rewrite <- (length_fmap skel (lines s)), Hshape, length_fmap.
Qed.

Lemma invariant_body no_br ls i s w s' w' :
  invariant ls s → (i < length ls)%nat →
  body no_br i s w = (Ok s', w') → invariant ls s'.
Proof.
  intros Hinv Hi Hbody.
  destruct (lookup_lt_is_Some_2 ls i Hi) as [l0 Hl0].
  destruct (invariant_lookup _ _ _ _ Hinv Hl0) as (li & Hli & Hsk).
  destruct Hinv as [Hshape Ht Hl Hs].
  destruct (body_inv _ _ _ _ _ _ _ Hli Hbody) as [(Hpos & -> & _)|[Hzero _]].
  { split; cbn; [done..|lia]. }
  destruct (body_processed _ _ _ _ _ _ _ Hli Hzero Hbody)
    as (li1 & r & Hlines & Hind & Hty & Hhi & _ & Hnn & _ & _ & Hr).
  assert (0 ≤ target_line_indent s') as Ht' by auto.
  split; [|done|..].
  - rewrite Hlines, list_fmap_insert, <- Hshape.
    apply list_insert_id. rewrite list_lookup_fmap, Hli. cbn.
    unfold skel in *. rewrite Hind, Hty, Hhi. done.
  - destruct r as [c|].
    + destruct Hr as (_ & -> & _). by case_bool_decide.
    + destruct Hr as (_ & _ & _ & -> & _). done.
  - destruct r as [c|].
    + destruct Hr as (_ & _ & -> & _). done.
    + destruct Hr as (_ & _ & _ & _ & ->). unfold skip_after. cbn.
      pose proof (lines_before_end_nonneg (drop i (lines s'))).
      destruct (contains _ _); lia.
Qed.

Lemma invariant_run no_br ls n w s w' :
  (n ≤ length ls)%nat →
  run_lines no_br ls n w = (Ok s, w') → invariant ls s.
Proof.
  revert s w'. induction n as [|n IH]; intros s w' Hn.
  - unfold run_lines. cbn [seq loop]. intros [-> ->]%ret_M_inv.
    apply invariant_init.
  - rewrite run_lines_S.
    destruct (run_lines no_br ls n w) as [[s0|e] w0] eqn:Hrun; [|done].
    intros Hbody.
    apply (invariant_body no_br ls n s0 w0 s w'); [|lia|done].
    eapply IH; [lia|done].
Qed.

(** * Lines that are skipped, and lines not reached yet *)

Lemma body_skip no_br i s w :
  0 < lines_to_skip s →
  body no_br i s w = (Ok (set_lines_to_skip (lines_to_skip s - 1) s), w).
Proof.
  intros H. unfold body. by destruct (Z.ltb_spec 0 (lines_to_skip s)); [|lia].
Qed.

Lemma set_lines_to_skip_same s : set_lines_to_skip (lines_to_skip s) s = s.
Proof. by destruct s. Qed.

Lemma skip_run no_br ls w (k : nat) : ∀ n s w1,
  run_lines no_br ls n w = (Ok s, w1) →
  Z.of_nat k ≤ lines_to_skip s →
  run_lines no_br ls (n + k) w
  = (Ok (set_lines_to_skip (lines_to_skip s - Z.of_nat k) s), w1).
Proof.
  induction k as [|k IH]; intros n s w1 Hrun Hk.
  - rewrite Nat.add_0_r, Hrun. cbn. by rewrite Z.sub_0_r, set_lines_to_skip_same.
  - rewrite Nat.add_succ_r, run_lines_S, (IH n s w1 Hrun) by lia.
    rewrite body_skip by (cbn; lia).
    replace (lines_to_skip s - Z.of_nat (S k))
      with (lines_to_skip s - Z.of_nat k - 1) by lia.
    reflexivity.
Qed.

Lemma run_lines_untouched no_br ls n w s w' :
  (n ≤ length ls)%nat →
  run_lines no_br ls n w = (Ok s, w') →
  ∀ j, (n ≤ j)%nat → lines s !! j = ls !! j.
Proof.
  revert s w'. induction n as [|n IH]; intros s w' Hn.
  - unfold run_lines. cbn [seq loop]. by intros [-> ->]%ret_M_inv.
  - rewrite run_lines_S.
    destruct (run_lines no_br ls n w) as [[s0|e] w0] eqn:Hrun; [|done].
    intros Hbody j Hj. rewrite <- (IH s0 w0 ltac:(lia) eq_refl j) by lia.
    assert (invariant ls s0) as Hinv by (eapply invariant_run; [|done]; lia).
    destruct (lookup_lt_is_Some_2 ls n ltac:(lia)) as [l0 Hl0].
    destruct (invariant_lookup _ _ _ _ Hinv Hl0) as (li & Hli & Hsk).
    destruct (body_inv _ _ _ _ _ _ _ Hli Hbody) as [(Hpos & -> & _)|[Hzero _]].
    + done.
    + destruct (body_processed _ _ _ _ _ _ _ Hli Hzero Hbody)
        as (li1 & r & -> & _).
      apply list_lookup_insert_ne. lia.
Qed.

Lemma lines_before_end_spec ls :
  let e := Z.to_nat (lines_before_end ls) in
  (∀ j l, (j < e)%nat → ls !! j = Some l
          → contains (content l) (lit ":END:") = false)
  ∧ (∀ l, ls !! e = Some l → contains (content l) (lit ":END:") = true).
Proof.
  induction ls as [|l0 ls [IH1 IH2]]; cbn zeta; [by split|].
  cbn [lines_before_end].
  destruct (contains (content l0) (lit ":END:")) eqn:Hc.
  - split; [intros j l Hj; cbn in Hj; lia|]. cbn. by intros l [= <-].
  - pose proof (lines_before_end_nonneg ls).
    replace (Z.to_nat (1 + lines_before_end ls))
      with (S (Z.to_nat (lines_before_end ls))) by lia.
    split.
    + intros [|j] l Hj; cbn; [by intros [= <-]|]. apply IH1. lia.
    + cbn. apply IH2.
Qed.

Lemma directive_rewrite_no_trigger c w :
  no_trigger c = true → directive_rewrite c w = (Ok c, w).
Proof.
  unfold no_trigger, triggers. cbn [forallb].
  rewrite !andb_true_iff, !negb_true_iff.
  intros (H1 & H2 & H3 & H4 & H5 & H6 & H7 & _).
  unfold directive_rewrite. by rewrite H1, H2, H3, H4, H5, H6, H7.
Qed.

(** * Searching and matching *)

Lemma startswith_app t b : startswith t (t ++ b) = true.
Proof. induction t as [|c t IH]; cbn; [done|]. by rewrite N.eqb_refl. Qed.

Lemma find_from_eq sub s k :
  find_from sub s k
  = if startswith sub s then k
    else match s with
         | [] => -1
         | _ :: s' => find_from sub s' (k + 1)
         end.
Proof. by destruct s. Qed.

Lemma find_from_found t a b k :
  0 ≤ k → 0 ≤ find_from t (a ++ t ++ b) k.
Proof.
  revert k. induction a as [|c a IH]; intros k Hk.
  - cbn [app]. by rewrite find_from_eq, startswith_app.
  - cbn [app find_from]. destruct (startswith _ _); [done|]. apply IH. lia.
Qed.

Lemma contains_app a t b : contains (a ++ t ++ b) t = true.
Proof.
  unfold contains, find. apply Z.leb_le. by apply find_from_found.
Qed.

Lemma pushes_push x xs g : pushes xs (push x g) = pushes (x :: xs) g.
Proof. destruct g as [t|]; cbn; [|done]. by rewrite <- app_assoc. Qed.

(** A star takes the whole run [xs] when the character after it does not
    fit and the rest of the pattern matches from there. *)
Lemma star_greedy a k xs s bol g r :
  Forall (λ c, atom_ok a c = true) xs →
  match s with
  | [] => True
  | c :: _ => atom_ok a c = false
  end →
  k (match xs with [] => bol | _ => false end) (pushes xs g) s = Some r →
  star a k bol g (xs ++ s) = Some r.
Proof.
  intros Hxs Hs. revert bol g. induction Hxs as [|x xs Hx _ IH]; intros bol g.
  - cbn [app]. assert (pushes [] g = g) as ->.
    { destruct g; cbn; [|done]. by rewrite app_nil_r. }
    destruct s as [|c s]; cbn [star]; [done|]. by rewrite Hs.
  - cbn [app star]. rewrite Hx. intros Hk.
    rewrite (IH false (push x g)); [done|].
    rewrite pushes_push. by destruct xs.
Qed.

Lemma atom_ok_dot s : no_newline s → Forall (λ c, atom_ok Dot c = true) s.
Proof.
  apply Forall_impl. intros c Hc. cbn. by apply negb_true_iff, N.eqb_neq.
Qed.

Lemma atom_ok_tab k : Forall (λ c, atom_ok (Chr tab) c = true) (replicate k tab).
Proof. apply Forall_replicate. done. Qed.

Lemma re_search_at_start p s gs :
  rmatch p true None [] s = Some gs → re_search p s = Some gs.
Proof. intros H. unfold re_search. destruct s; cbn; by rewrite H. Qed.

(** The line pattern on a line: leading tabs, a content that does not start
    with a tab and has no newline, and the line end. *)
Lemma re_line_spec k c e :
  no_newline c →
  match c with t :: _ => t ≠ tab | [] => True end →
  e = [] ∨ e = [nl] →
  re_search re_line (replicate k tab ++ c ++ e) = Some [replicate k tab; c].
Proof.
  intros Hc Hhd He. apply re_search_at_start.
  rewrite re_line_tokens. cbn [rmatch].
  apply star_greedy; [apply atom_ok_tab| |].
  { destruct c as [|t c]; cbn [app].
    - by destruct He as [-> | ->].
    - cbn. by apply N.eqb_neq. }
  cbn [pushes app rmatch close].
  apply star_greedy; [by apply atom_ok_dot| |].
  { by destruct He as [-> | ->]. }
  cbn [pushes app rmatch close].
  by destruct He as [-> | ->].
Qed.

(** A task pattern on a content that starts with its marker. *)
Lemma re_task_spec (re : regex) (kw : string) (k : nat) (rest : str) :
  re = [GOpen; Bol; Star (Chr tab); GClose] ++ lits kw
         ++ [GOpen; Star Dot; GClose; Eol] →
  match lit kw with t :: _ => t ≠ tab | [] => False end →
  no_newline rest →
  re_search re (replicate k tab ++ lit kw ++ rest)
  = Some [replicate k tab; rest].
Proof.
  intros -> Hkw Hrest. apply re_search_at_start.
  cbn [app rmatch].
  apply star_greedy; [apply atom_ok_tab| |].
  { destruct (lit kw) as [|t ?]; [done|]. cbn. by apply N.eqb_neq. }
  cbn [pushes app rmatch close].
  generalize (match replicate k tab with [] => true | _ :: _ => false end).
  unfold lits. clear Hkw.
  induction (lit kw) as [|t l IH]; intros b.
  - cbn [map app rmatch].
    rewrite <- (app_nil_r rest) at 1.
    apply star_greedy; [by apply atom_ok_dot|done|].
    cbn [pushes app rmatch close]. done.
  - cbn [map app rmatch atom_ok]. rewrite N.eqb_refl. cbn [push]. apply IH.
Qed.

(** * The second loop runs to its end *)

Lemma directive_rewrite_total c w :
  (∀ a b, copy_ok w a b = true) →
  ∃ c' w', directive_rewrite c w = (Ok c', w') ∧ copy_ok w' = copy_ok w.
Proof.
  intros Hok. unfold directive_rewrite, task_rewrite.
  repeat match goal with
    | |- context [if contains ?a ?b then _ else _] => destruct (contains a b)
    | |- context [match re_search ?a ?b with _ => _ end] =>
        destruct (re_search a b)
    end.
  all: unfold mbind, M_bind, import_asset; rewrite ?Hok.
  all: by eexists _, _.
Qed.

Lemma body_total no_br i s w :
  (i < length (lines s))%nat →
  (∀ a b, copy_ok w a b = true) →
  ∃ s' w', body no_br i s w = (Ok s', w') ∧ copy_ok w' = copy_ok w.
Proof.
  intros Hi Hok. unfold body.
  destruct (0 <? lines_to_skip s); [by eexists _, _|].
  destruct (lookup_lt_is_Some_2 _ _ Hi) as [li Hli].
  unfold mbind at 1, M_bind at 1, lift at 1.
  rewrite (py_index_nat _ _ _ Hli).
  assert (∃ s1 w1, rewrite_line i li s w = (Ok s1, w1)
                   ∧ copy_ok w1 = copy_ok w
                   ∧ length (lines s1) = length (lines s))
    as (s1 & w1 & Hrw & Hok1 & Hlen).
  { unfold rewrite_line. destruct (is_type _ _); [by eexists _, _|].
    destruct (directive_rewrite_total (content li) w Hok) as (c & w1 & Hc & Hw).
    unfold mbind, M_bind. rewrite Hc.
    eexists _, _. split; [reflexivity|]. split; [done|].
    cbn. by rewrite length_insert. }
  unfold mbind at 1, M_bind at 1. rewrite Hrw.
  destruct (lookup_lt_is_Some_2 (lines s1) i ltac:(lia)) as [li1 Hli1].
  unfold mbind at 1, M_bind at 1, lift at 1.
  rewrite (py_index_nat _ _ _ Hli1).
  destruct (target_indentation_spec i li1 s1 ltac:(lia)) as (t & d & Hti & _).
  unfold mbind at 1, M_bind at 1, lift at 1. rewrite Hti.
  match goal with
  | |- context [represent no_br i li1 ?s2] =>
      destruct (represent_spec no_br i li1 s2) as (r & s3 & Hrep & _)
  end.
  unfold mbind at 1, M_bind at 1, lift at 1. rewrite Hrep.
  destruct r; by eexists _, _.
Qed.

Lemma run_lines_completes no_br ls n w :
  (∀ a b, copy_ok w a b = true) →
  (n ≤ length ls)%nat →
  ∃ s w', run_lines no_br ls n w = (Ok s, w') ∧ copy_ok w' = copy_ok w.
Proof.
  intros Hok. induction n as [|n IH]; intros Hn.
  - by eexists _, _.
  - destruct IH as (s & w1 & Hrun & Hok1); [lia|].
    rewrite run_lines_S, Hrun.
    destruct (body_total no_br n s w1) as (s' & w' & Hbody & Hok').
    { rewrite (invariant_length ls s); [lia|].
      eapply invariant_run; [|done]. lia. }
    { intros a b. by rewrite Hok1. }
    exists s', w'. split; [done|]. congruence.
Qed.

(** On a file system where every copy succeeds, a page whose lines all
    classify is exported. *)
Lemma export_completes text no_br w ls :
  (∀ a b, copy_ok w a b = true) →
  classify_lines (readlines text) [] = Ok ls →
  ∃ s w', run_lines no_br ls (length ls) w = (Ok s, w')
          ∧ export_file_to_folder text no_br w
            = (Ok tt, {| copy_ok := copy_ok w'; import_calls := import_calls w';
                         copied := copied w';
                         written := Some (output_content s) |}).
Proof.
  intros Hok Hc.
  destruct (run_lines_completes no_br ls (length ls) w Hok (le_n _))
    as (s & w' & Hrun & _).
  exists s, w'. split; [done|].
  unfold export_file_to_folder, mbind, M_bind, lift. by rewrite Hc, Hrun.
Qed.

(** * Every line that is read matches the line pattern *)

Lemma split_lines_shape s : ∀ cur l,
  no_newline cur →
  l ∈ split_lines cur s →
  ∃ b, no_newline b ∧ (l = b ++ [nl] ∨ (l = b ∧ b ≠ [])).
Proof.
  induction s as [|c s IH]; intros cur l Hcur; cbn [split_lines].
  - destruct cur as [|x cur]; [by intros ?%elem_of_nil|].
    intros ->%list_elem_of_singleton. exists (x :: cur). split; [done|].
    by right.
  - destruct (N.eqb_spec c nl) as [->|Hc].
    + intros [->|Hl]%elem_of_cons.
      * exists cur. split; [done|]. by left.
      * apply (IH [] l); [constructor|done].
    + apply IH. apply Forall_app. split; [done|]. by constructor.
Qed.

Lemma readlines_shape text l :
  l ∈ readlines text →
  ∃ b, no_newline b ∧ (l = b ++ [nl] ∨ (l = b ∧ b ≠ [])).
Proof. apply split_lines_shape. constructor. Qed.

Lemma leading_tabs (b : str) :
  ∃ k c, b = replicate k tab ++ c
         ∧ match c with t :: _ => t ≠ tab | [] => True end.
Proof.
  induction b as [|x b (k & c & -> & Hc)].
  - by exists 0%nat, [].
  - destruct (N.eqb_spec x tab) as [->|Hx].
    + by exists (S k), c.
    + by exists 0%nat, (x :: replicate k tab ++ c).
Qed.

(** The [continue] of the first loop is never taken: the pattern matches
    every line, with the leading tabs and the rest of the line up to its
    newline as groups. *)
Lemma re_line_total text l :
  l ∈ readlines text →
  ∃ k c e, l = replicate k tab ++ c ++ e
           ∧ no_newline c ∧ (e = [] ∨ e = [nl])
           ∧ re_search re_line l = Some [replicate k tab; c].
Proof.
  intros (b & Hb & Hl)%readlines_shape.
  destruct (leading_tabs b) as (k & c & -> & Hc).
  assert (no_newline c) as Hnc.
  { unfold no_newline in Hb. by apply Forall_app in Hb as [_ ?]. }
  destruct Hl as [-> | [-> _]].
  - exists k, c, [nl]. rewrite <- app_assoc. repeat split; [done|by right|].
    apply re_line_spec; [done|done|by right].
  - exists k, c, []. rewrite app_nil_r. repeat split; [done|by left|].
    rewrite <- (app_nil_r c) at 1. apply re_line_spec; [done|done|by left].
Qed.

(** * Target indentation *)

(** C3. The target indentation computed for any line is non-negative; a
    processed line that is a TITLE, or that comes right after a TITLE line,
    gets target indentation 0. *)
Theorem target_indent_nonneg_title_zero
    (text : str) (no_br : bool) (w : world) (ls : list line_info) (n : nat)
    (s : locals) (w1 : world) (s' : locals) (w2 : world) :
  classify_lines (readlines text) [] = Ok ls →
  (n < length ls)%nat →
  run_lines no_br ls n w = (Ok s, w1) →
  body no_br n s w1 = (Ok s', w2) →
  0 ≤ target_line_indent s'
  ∧ (lines_to_skip s = 0 →
     (∃ li, ls !! n = Some li ∧ type li = TITLE)
     ∨ (∃ j p, n = S j ∧ ls !! j = Some p ∧ type p = TITLE) →
     target_line_indent s' = 0).
Proof.
  intros _ Hn Hrun Hbody.
  assert (invariant ls s) as Hinv by (eapply invariant_run; [|done]; lia).
  assert (invariant ls s') as Hinv'.
  { by apply (invariant_body no_br ls n s w1 s' w2). }
  split; [by destruct Hinv'|].
  intros Hskip Htitle.
  destruct (lookup_lt_is_Some_2 ls n Hn) as [l0 Hl0].
  destruct (invariant_lookup _ _ _ _ Hinv Hl0) as (li & Hli & Hsk).
  destruct (body_processed _ _ _ _ _ _ _ Hli ltac:(lia) Hbody)
    as (li1 & r & _ & _ & _ & _ & _ & _ & Htt & Htp & _).
  destruct Htitle as [(l & Hl & Hty)|(j & p & -> & Hp & Hty)].
  - apply Htt. rewrite Hl0 in Hl. injection Hl as <-.
    unfold skel in Hsk. congruence.
  - destruct (invariant_lookup _ _ _ _ Hinv Hp) as (p' & Hp' & Hsk').
    apply (Htp j p' eq_refl Hp'). unfold skel in Hsk'. congruence.
Qed.

(** A heading followed by an indented bullet: the bullet gets no tab. *)
Lemma target_indent_witness :
  let text := page [lit "# T"; [tab] ++ lit "- a"] in
  ∃ ls s w1 s' w2,
    classify_lines (readlines text) [] = Ok ls
    ∧ run_lines false ls 1 (fresh always_ok) = (Ok s, w1)
    ∧ body false 1 s w1 = (Ok s', w2)
    ∧ 0 ≤ target_line_indent s' ∧ target_line_indent s' = 0.
Proof.
  intros text.
  epose proof (target_indent_nonneg_title_zero text false (fresh always_ok)
                 _ 1 _ _ _ _) as H.
  edestruct H as [Hnn Hz];
    [vm_compute; reflexivity | cbn; lia | vm_compute; reflexivity
    | vm_compute; reflexivity |].
  eexists _, _, _, _, _.
  split; [vm_compute; reflexivity|].
  split; [vm_compute; reflexivity|].
  split; [vm_compute; reflexivity|].
  split; [exact Hnn|].
  apply Hz; [vm_compute; reflexivity|].
  right. eexists _, _. split; [reflexivity|]. split; vm_compute; reflexivity.
Defined.

(** C1.  On the page of the claim the loop computes target indentations
    0, 0 and 0: at the first line [lines[i - 1]] is the last line, whose
    indent is larger, so the list depth starts at -1 and the second nesting
    step is the one that is absorbed. *)
Theorem nested_list_targets :
  let text := page [lit "- A"; [tab] ++ lit "- B"; [tab; tab] ++ lit "- C"] in
  ∃ ls,
    classify_lines (readlines text) [] = Ok ls
    ∧ map indent ls = [0; 1; 2]
    ∧ map (λ n, match run_lines false ls (S n) (fresh always_ok) with
                | (Ok s, _) => Some (target_line_indent s, cur_list_depth s)
                | (Raise _, _) => None
                end) [0; 1; 2]%nat
      = [Some (0, -1); Some (0, 0); Some (0, 1)]
    ∧ written (export_file_to_folder text false (fresh always_ok)).2
      = Some (page [lit "A"; lit "B"; lit "- C"]).
Proof.
  intros text. eexists. split; [vm_compute; reflexivity|].
  repeat split; vm_compute; reflexivity.
Qed.

(** With one more line at the root after the nested list, the last line
    of the page has the indent of the first one and the targets are those of
    the claim. *)
Example closed_page_targets :
  let text := page [lit "- A"; [tab] ++ lit "- B"; [tab; tab] ++ lit "- C";
                    lit "- D"] in
  ∃ ls,
    classify_lines (readlines text) [] = Ok ls
    ∧ map (λ n, match run_lines false ls (S n) (fresh always_ok) with
                | (Ok s, _) => Some (target_line_indent s, cur_list_depth s)
                | (Raise _, _) => None
                end) [0; 1; 2; 3]%nat
      = [Some (0, 0); Some (0, 1); Some (1, 2); Some (0, 1)].
Proof.
  intros text. eexists. split; vm_compute; reflexivity.
Qed.

(** * The code-fence toggle *)

Lemma toggle_parity no_br ls w n s w' :
  (n ≤ length ls)%nat →
  run_lines no_br ls n w = (Ok s, w') →
  traversing_code_block s = Nat.odd (processed_markers no_br ls w n).
Proof.
  revert s w'. induction n as [|n IH]; intros s w' Hn.
  - unfold run_lines. cbn [seq loop]. by intros [-> ->]%ret_M_inv.
  - rewrite run_lines_S.
    destruct (run_lines no_br ls n w) as [[s0|e] w0] eqn:Hrun; [|done].
    intros Hbody. cbn [processed_markers]. unfold processed. rewrite Hrun.
    specialize (IH s0 w0 ltac:(lia) eq_refl).
    assert (invariant ls s0) as Hinv by (eapply invariant_run; [|done]; lia).
    destruct (lookup_lt_is_Some_2 ls n ltac:(lia)) as [l0 Hl0].
    destruct (invariant_lookup _ _ _ _ Hinv Hl0) as (li & Hli & Hsk).
    unfold is_marker_at. rewrite Hl0.
    destruct (body_inv _ _ _ _ _ _ _ Hli Hbody) as [(Hpos & -> & _)|[Hzero _]].
    + destruct (Z.ltb_spec 0 (lines_to_skip s0)); [|lia].
      cbn. by rewrite Nat.add_0_r.
    + destruct (Z.ltb_spec 0 (lines_to_skip s0)); [lia|].
      destruct (body_processed _ _ _ _ _ _ _ Hli Hzero Hbody)
        as (li1 & r & _ & _ & _ & _ & Hrw & _).
      assert (type l0 = type li) as -> by (unfold skel in Hsk; congruence).
      cbn [negb andb].
      destruct (is_type (type li) CODE_BLOCK_MARKER).
      * destruct Hrw as (_ & _ & ->). rewrite IH.
        rewrite Nat.add_1_r, Nat.odd_succ, <- Nat.negb_odd. done.
      * destruct Hrw as (_ & ->). by rewrite Nat.add_0_r.
Qed.

(** C9, amended.  When the number of CODE_BLOCK_MARKER lines that the loop
    processes (those it does not skip inside a :LOGBOOK: block) is even, the
    toggle is false again after the last line. *)
Theorem fence_toggle_even_processed
    (text : str) (no_br : bool) (w : world) (ls : list line_info)
    (s : locals) (w' : world) :
  classify_lines (readlines text) [] = Ok ls →
  run_lines no_br ls (length ls) w = (Ok s, w') →
  Nat.even (processed_markers no_br ls w (length ls)) = true →
  traversing_code_block s = false.
Proof.
  intros _ Hrun Heven.
  rewrite (toggle_parity _ _ _ _ _ _ (le_n _) Hrun).
  by rewrite <- Nat.negb_even, Heven.
Qed.

(** A code block with its two fence markers. *)
Lemma fence_toggle_witness :
  let text := page [lit "- ```"; lit "  x = 1"; lit "  ```"] in
  ∃ ls s w',
    classify_lines (readlines text) [] = Ok ls
    ∧ run_lines false ls (length ls) (fresh always_ok) = (Ok s, w')
    ∧ Nat.even (processed_markers false ls (fresh always_ok) (length ls)) = true
    ∧ traversing_code_block s = false.
Proof.
  intros text.
  epose proof (fence_toggle_even_processed text false (fresh always_ok) _ _ _) as H.
  eexists _, _, _.
  split; [vm_compute; reflexivity|].
  split; [vm_compute; reflexivity|].
  split; [vm_compute; reflexivity|].
  apply H; vm_compute; reflexivity.
Defined.

(** C9 as stated fails: two fence markers, the first inside a :LOGBOOK:
    block and so never processed; the toggle ends true. *)
Lemma fence_toggle_counterexample :
  ¬ (∀ text no_br w ls s w',
       classify_lines (readlines text) [] = Ok ls →
       run_lines no_br ls (length ls) w = (Ok s, w') →
       Nat.even (markers ls (length ls)) = true →
       traversing_code_block s = false).
Proof.
  intros H.
  epose proof (H (page [lit "  :LOGBOOK:"; lit "- ```"; lit "  :END:"; lit "- ```"])
                 false (fresh always_ok) _ _ _) as Hf.
  cut (true = false); [discriminate|].
  etransitivity; [|apply Hf]; cycle 1.
  1-3: vm_compute; reflexivity.
  vm_compute; reflexivity.
Qed.

(** When the loop skips no line, the processed markers are all the markers
    of the page. *)
Lemma processed_markers_all no_br ls w n :
  (∀ i, (i < n)%nat → processed no_br ls w i = true) →
  processed_markers no_br ls w n = markers ls n.
Proof.
  induction n as [|n IH]; intros Hall; [done|].
  cbn [processed_markers markers].
  rewrite IH by (intros i Hi; apply Hall; lia).
  by rewrite (Hall n) by lia.
Qed.

Lemma fence_toggle_no_skip text no_br w ls s w' :
  classify_lines (readlines text) [] = Ok ls →
  run_lines no_br ls (length ls) w = (Ok s, w') →
  (∀ i, (i < length ls)%nat → processed no_br ls w i = true) →
  Nat.even (markers ls (length ls)) = true →
  traversing_code_block s = false.
Proof.
  intros _ Hrun Hall Heven.
  rewrite (toggle_parity _ _ _ _ _ _ (le_n _) Hrun), processed_markers_all by done.
  by rewrite <- Nat.negb_even, Heven.
Qed.

(** * Inside a code block *)

(** C2, amended.  While the code-block toggle is true, a processed line is
    emitted as its content minus the first two characters, whatever its
    type: none of the type-specific representations applies.  The content is
    the one left by the rewrite chain, which runs on every line that is not a
    fence marker, inside a code block too; a line that holds none of the
    trigger substrings goes through verbatim and imports nothing. *)
Theorem code_block_line_stripped
    (text : str) (no_br : bool) (w : world) (ls : list line_info) (n : nat)
    (li : line_info) (s : locals) (w1 : world) (s' : locals) (w2 : world) :
  classify_lines (readlines text) [] = Ok ls →
  ls !! n = Some li →
  run_lines no_br ls n w = (Ok s, w1) →
  lines_to_skip s = 0 →
  body no_br n s w1 = (Ok s', w2) →
  traversing_code_block s' = true →
  ∃ li1,
    lines s' !! n = Some li1
    ∧ output_content s'
      = output_content s ++ tabs_of s' ++ slice_from (content li1) 2 ++ [nl]
    ∧ (if is_type (type li) CODE_BLOCK_MARKER
       then content li1 = content li ∧ w2 = w1
       else directive_rewrite (content li) w1 = (Ok (content li1), w2))
    ∧ (no_trigger (content li) = true → content li1 = content li ∧ w2 = w1).
Proof.
  intros _ Hl0 Hrun Hskip Hbody Htr.
  pose proof (lookup_lt_Some _ _ _ Hl0) as Hn.
  assert (lines s !! n = Some li) as Hli.
  { by rewrite (run_lines_untouched no_br ls n w s w1 ltac:(lia) Hrun n). }
  destruct (body_processed _ _ _ _ _ _ _ Hli ltac:(lia) Hbody)
    as (li1 & r & Hlines & _ & _ & _ & Hrw & _ & _ & _ & Hr).
  assert (lines s' !! n = Some li1) as Hli1.
  { rewrite Hlines. apply list_lookup_insert_eq. by eapply lookup_lt_Some. }
  exists li1. split; [done|].
  destruct r as [c|]; [|destruct Hr as [Hf _]; congruence].
  destruct Hr as (Hout & _ & _ & Hc & _).
  split; [by rewrite Hout, (Hc Htr)|].
  destruct (is_type (type li) CODE_BLOCK_MARKER).
  - destruct Hrw as (-> & -> & _). done.
  - destruct Hrw as [Hrw _]. split; [done|].
    intros Hno. rewrite (directive_rewrite_no_trigger _ _ Hno) in Hrw.
    by injection Hrw as <- <-.
Qed.

(** A line of code between two fence markers. *)
Lemma code_block_line_witness :
  let text := page [lit "- ```"; lit "  x = 1"; lit "  ```"] in
  ∃ ls li s w1 s' w2,
    classify_lines (readlines text) [] = Ok ls
    ∧ ls !! 1%nat = Some li
    ∧ run_lines false ls 1 (fresh always_ok) = (Ok s, w1)
    ∧ body false 1 s w1 = (Ok s', w2)
    ∧ output_content s' = output_content s ++ lit "x = 1" ++ [nl]
    ∧ w2 = w1.
Proof.
  intros text.
  epose proof (code_block_line_stripped text false (fresh always_ok)
                 _ 1 _ _ _ _ _) as H.
  edestruct H as (li1 & Hli1 & Hout & _ & Hsame);
    [vm_compute; reflexivity.. |].
  eexists _, _, _, _, _, _.
  split; [vm_compute; reflexivity|].
  split; [vm_compute; reflexivity|].
  split; [vm_compute; reflexivity|].
  split; [vm_compute; reflexivity|].
  destruct Hsame as [Hc Hw]; [vm_compute; reflexivity|].
  split; [|exact Hw].
  rewrite Hout. vm_compute in Hli1. injection Hli1 as <-.
  vm_compute. reflexivity.
Defined.

(** C2 as stated fails: an asset link between two fence markers is
    rewritten, and the asset is imported. *)
Lemma code_block_counterexample :
  ¬ (∀ text no_br w ls n li s w1 s' w2,
       classify_lines (readlines text) [] = Ok ls →
       ls !! n = Some li →
       run_lines no_br ls n w = (Ok s, w1) →
       lines_to_skip s = 0 →
       body no_br n s w1 = (Ok s', w2) →
       traversing_code_block s' = true →
       output_content s'
       = output_content s ++ tabs_of s' ++ slice_from (content li) 2 ++ [nl]
       ∧ import_calls w2 = import_calls w1).
Proof.
  intros H.
  epose proof (H (page [lit "- ```"; lit "  ![x](../assets/img.png)"; lit "  ```"])
                 false (fresh always_ok) _ 1%nat _ _ _ _ _) as Hf.
  destruct Hf as [_ Hf]; [vm_compute; reflexivity..|].
  vm_compute in Hf. discriminate Hf.
Qed.

(** * Lines left out of the output *)

(** A line that holds no trigger of the rewrite chain is, after its own
    iteration, what the first loop made it. *)
Lemma plain_line_kept no_br ls n w s w1 s' w2 li :
  ls !! n = Some li →
  run_lines no_br ls n w = (Ok s, w1) →
  body no_br n s w1 = (Ok s', w2) →
  no_trigger (content li) = true →
  lines s' !! n = Some li ∧ w2 = w1.
Proof.
  intros Hl0 Hrun Hbody Hno.
  pose proof (lookup_lt_Some _ _ _ Hl0) as Hn.
  assert (lines s !! n = Some li) as Hli.
  { by rewrite (run_lines_untouched no_br ls n w s w1 ltac:(lia) Hrun n). }
  destruct (body_inv _ _ _ _ _ _ _ Hli Hbody) as [(_ & -> & ->)|[Hzero _]];
    [done|].
  destruct (body_processed _ _ _ _ _ _ _ Hli Hzero Hbody)
    as (li1 & r & Hlines & Hi & Ht & Hh & Hrw & _).
  rewrite Hlines, list_lookup_insert_eq by (by eapply lookup_lt_Some).
  destruct (is_type (type li) CODE_BLOCK_MARKER).
  - by destruct Hrw as (-> & -> & _).
  - destruct Hrw as [Hrw _].
    rewrite (directive_rewrite_no_trigger _ _ Hno) in Hrw.
    injection Hrw as Hc <-. split; [|done]. f_equal.
    destruct li, li1; cbn in *; congruence.
Qed.

(** * Task markers *)

Lemma none_before_todo c :
  none_before (lit "- TODO ") c = true →
  contains c (lit "../assets") = false
  ∧ contains c (lit "{{renderer :drawio,") = false.
Proof.
  unfold none_before.
  change (chain_before (lit "- TODO ") triggers)
    with [lit "../assets"; lit "{{renderer :drawio,"].
  cbn [forallb]. rewrite !andb_true_iff, !negb_true_iff. tauto.
Qed.

Lemma none_before_doing c :
  none_before (lit "- DOING ") c = true →
  none_before (lit "- TODO ") c = true ∧ contains c (lit "- TODO ") = false.
Proof.
  unfold none_before.
  change (chain_before (lit "- DOING ") triggers)
    with [lit "../assets"; lit "{{renderer :drawio,"; lit "- TODO "].
  change (chain_before (lit "- TODO ") triggers)
    with [lit "../assets"; lit "{{renderer :drawio,"].
  cbn [forallb]. rewrite !andb_true_iff, !negb_true_iff. tauto.
Qed.

Lemma none_before_done c :
  none_before (lit "- DONE ") c = true →
  none_before (lit "- DOING ") c = true ∧ contains c (lit "- DOING ") = false.
Proof.
  unfold none_before.
  change (chain_before (lit "- DONE ") triggers)
    with [lit "../assets"; lit "{{renderer :drawio,"; lit "- TODO ";
          lit "- DOING "].
  change (chain_before (lit "- DOING ") triggers)
    with [lit "../assets"; lit "{{renderer :drawio,"; lit "- TODO "].
  cbn [forallb]. rewrite !andb_true_iff, !negb_true_iff. tauto.
Qed.

Lemma none_before_later c :
  none_before (lit "- LATER ") c = true →
  none_before (lit "- DONE ") c = true ∧ contains c (lit "- DONE ") = false.
Proof.
  unfold none_before.
  change (chain_before (lit "- LATER ") triggers)
    with [lit "../assets"; lit "{{renderer :drawio,"; lit "- TODO ";
          lit "- DOING "; lit "- DONE "].
  change (chain_before (lit "- DONE ") triggers)
    with [lit "../assets"; lit "{{renderer :drawio,"; lit "- TODO ";
          lit "- DOING "].
  cbn [forallb]. rewrite !andb_true_iff, !negb_true_iff. tauto.
Qed.

Lemma none_before_now c :
  none_before (lit "- NOW ") c = true →
  none_before (lit "- LATER ") c = true ∧ contains c (lit "- LATER ") = false.
Proof.
  unfold none_before.
  change (chain_before (lit "- NOW ") triggers)
    with [lit "../assets"; lit "{{renderer :drawio,"; lit "- TODO ";
          lit "- DOING "; lit "- DONE "; lit "- LATER "].
  change (chain_before (lit "- LATER ") triggers)
    with [lit "../assets"; lit "{{renderer :drawio,"; lit "- TODO ";
          lit "- DOING "; lit "- DONE "].
  cbn [forallb]. rewrite !andb_true_iff, !negb_true_iff. tauto.
Qed.

Ltac chain_facts H :=
  repeat match type of H with
    | none_before (lit "- NOW ") _ = true =>
        apply none_before_now in H as [H ?]
    | none_before (lit "- LATER ") _ = true =>
        apply none_before_later in H as [H ?]
    | none_before (lit "- DONE ") _ = true =>
        apply none_before_done in H as [H ?]
    | none_before (lit "- DOING ") _ = true =>
        apply none_before_doing in H as [H ?]
    | none_before (lit "- TODO ") _ = true =>
        apply none_before_todo in H as [? ?]
    end.

(** C5.  A content that starts (after tabs, which stay in place) with a task
    marker, and on which no earlier test of the chain fires, is rewritten to
    the glyph, written as a numeric character reference, the marker word, and
    the rest of the line; DONE has no word and strikes the rest through. *)
Theorem task_marker_rewrite (k : nat) (rest : str) (w : world) :
  no_newline rest →
  (none_before (lit "- TODO ") (marked k "- TODO " rest) = true →
   directive_rewrite (marked k "- TODO " rest) w
   = (Ok (marked k "- **&#x2610; TODO** " rest), w))
  ∧ (none_before (lit "- DOING ") (marked k "- DOING " rest) = true →
     directive_rewrite (marked k "- DOING " rest) w
     = (Ok (marked k "- **&#x231B; DOING** " rest), w))
  ∧ (none_before (lit "- DONE ") (marked k "- DONE " rest) = true →
     directive_rewrite (marked k "- DONE " rest) w
     = (Ok (marked k "- **&#x2611;** ~~" rest ++ lit "~~"), w))
  ∧ (none_before (lit "- LATER ") (marked k "- LATER " rest) = true →
     directive_rewrite (marked k "- LATER " rest) w
     = (Ok (marked k "- **&#x23F2; LATER** " rest), w))
  ∧ (none_before (lit "- NOW ") (marked k "- NOW " rest) = true →
     directive_rewrite (marked k "- NOW " rest) w
     = (Ok (marked k "- **&#x23F0; NOW** " rest), w)).
Proof.
  intros Hrest. unfold marked.
  repeat split; intros H; chain_facts H; unfold directive_rewrite;
    repeat match goal with
      | E : contains ?c ?t = false |- context [contains ?c ?t] => rewrite E
      end;
    rewrite contains_app; unfold task_rewrite.
  - rewrite (re_task_spec re_todo "- TODO " k rest eq_refl) by done.
    cbn [group nth]. by rewrite (app_assoc (lit _) (lit _) rest).
  - rewrite (re_task_spec re_doing "- DOING " k rest eq_refl) by done.
    cbn [group nth]. by rewrite (app_assoc (lit _) (lit _) rest).
  - rewrite (re_task_spec re_done "- DONE " k rest eq_refl) by done.
    cbn [group nth]. by rewrite <- !app_assoc.
  - rewrite (re_task_spec re_later "- LATER " k rest eq_refl) by done.
    cbn [group nth]. by rewrite (app_assoc (lit _) (lit _) rest).
  - rewrite (re_task_spec re_now "- NOW " k rest eq_refl) by done.
    cbn [group nth]. by rewrite (app_assoc (lit _) (lit _) rest).
Qed.

(** The two lines of the claim, and a NOW marker behind a tab. *)
Lemma task_marker_witness :
  let w := fresh always_ok in
  directive_rewrite (lit "- TODO buy milk") w
  = (Ok (lit "- **&#x2610; TODO** buy milk"), w)
  ∧ directive_rewrite (lit "- DONE call mom") w
    = (Ok (lit "- **&#x2611;** ~~call mom~~"), w)
  ∧ directive_rewrite ([tab] ++ lit "- NOW fix it") w
    = (Ok ([tab] ++ lit "- **&#x23F0; NOW** fix it"), w).
Proof.
  intros w.
  split; [|split].
  - apply (task_marker_rewrite 0 (lit "buy milk") w);
      [repeat constructor; done|vm_compute; reflexivity].
  - apply (task_marker_rewrite 0 (lit "call mom") w);
      [repeat constructor; done|vm_compute; reflexivity].
  - apply (task_marker_rewrite 1 (lit "fix it") w);
      [repeat constructor; done|vm_compute; reflexivity].
Defined.

(** * Asset links *)

(** C6.  The content of the claim makes one call to [import_asset], for
    [img.png] with an empty [subdir], and is rewritten to the link into the
    output's [assets] directory (when the copy fails the call has been made
    and the exception leaves the loop). *)
Theorem asset_line_import_and_rewrite (w : world) :
  directive_rewrite (lit "![x](../assets/img.png)") w
  = (if copy_ok w [] (lit "img.png")
     then (Ok (lit "![x](assets/img.png)"),
           {| copy_ok := copy_ok w;
              import_calls := import_calls w ++ [(lit "img.png", [])];
              copied := copied w ++ [lit "img.png"];
              written := written w |})
     else (Raise OSError,
           {| copy_ok := copy_ok w;
              import_calls := import_calls w ++ [(lit "img.png", [])];
              copied := copied w;
              written := written w |}))
  ∧ (∃ ls s w',
       classify_lines (readlines (page [lit "![x](../assets/img.png)"])) []
       = Ok ls
       ∧ run_lines false ls 1 (fresh always_ok) = (Ok s, w')
       ∧ content <$> lines s = [lit "![x](assets/img.png)"]
       ∧ import_calls w' = [(lit "img.png", [])]
       ∧ copied w' = [lit "img.png"]).
Proof.
  split.
  - unfold directive_rewrite.
    change (contains (lit "![x](../assets/img.png)") (lit "../assets")) with true.
    change (re_search re_asset (lit "![x](../assets/img.png)"))
      with (Some [lit "![x]("; lit "../"; lit "img.png"]).
    cbn [group nth]. unfold mbind, M_bind, import_asset.
    destruct (copy_ok w [] (lit "img.png")); reflexivity.
  - eexists _, _, _. split; [vm_compute; reflexivity|].
    split; [vm_compute; reflexivity|]. repeat split.
Qed.

(** * The first loop *)

Lemma py_index_raises {A} (l : list A) k e :
  py_index l k = Raise e → e = IndexError.
Proof.
  unfold py_index. destruct (_ || _); [by intros [= <-]|].
  destruct (l !! _); [done|by intros [= <-]].
Qed.

Lemma third_char (c : str) :
  (if 2 <? Z.of_nat (length c) then c !! 2%nat else None) = c !! 2%nat.
Proof.
  destruct (Z.ltb_spec 2 (Z.of_nat (length c))); [done|].
  symmetry. apply lookup_ge_None. lia.
Qed.

Lemma get_line_type_raises line c e :
  get_line_type line c = Raise e → e = IndexError ∨ e = SystemExit 1.
Proof.
  unfold get_line_type.
  destruct (py_index c 0) as [L1|e0] eqn:H1; cbn [mbind result_bind].
  - rewrite third_char.
    repeat match goal with
      | |- context [if N.eqb ?a ?b then _ else _] => destruct (N.eqb a b)
      | |- context [match ?o with Some _ => _ | None => _ end] => destruct o
      end; intros [= <-]; auto.
  - intros [= <-]. left. by eapply py_index_raises.
Qed.

Lemma get_line_type_empty line : get_line_type line [] = Raise IndexError.
Proof. reflexivity. Qed.

Lemma bool_decide_is_Some {A} (o : option A) :
  bool_decide (is_Some o) = match o with Some _ => true | None => false end.
Proof.
  destruct o; [by rewrite bool_decide_eq_true_2|].
  rewrite bool_decide_eq_false_2; [done|by intros [? ?]].
Qed.

Lemma get_line_type_exit line c :
  get_line_type line c = Raise (SystemExit 1) ↔ no_rule_matches line c = true.
Proof.
  unfold get_line_type, no_rule_matches.
  destruct c as [|L1 c]; [done|].
  assert (py_index (L1 :: c) 0 = Ok L1) as ->
    by apply (py_index_nat (L1 :: c) 0 L1 eq_refl).
  cbn [mbind result_bind]. rewrite third_char, !bool_decide_is_Some.
  destruct c as [|c1 [|L2 c]]; cbn [lookup list_lookup];
    destruct (re_search re_parent_code_block line),
      (re_search re_child_code_block line).
  all: repeat match goal with
         | |- context [N.eqb ?a ?b] =>
             destruct (N.eqb_spec a b) as [?|?]; try subst
         end.
  all: try match goal with
         | H : chr _ = chr _ |- _ => by vm_compute in H
         end.
  all: by cbn [negb andb orb].
Qed.

Lemma classify_lines_raise lines_raw : ∀ acc line gs e,
  line ∈ lines_raw →
  re_search re_line line = Some gs →
  get_line_type line (group gs 1) = Raise e →
  ∃ e', classify_lines lines_raw acc = Raise e'
        ∧ (e' = IndexError ∨ e' = SystemExit 1).
Proof.
  induction lines_raw as [|l0 rest IH]; intros acc line gs e Hin Hre Hty.
  - by apply elem_of_nil in Hin.
  - cbn [classify_lines].
    destruct (re_search re_line l0) as [g0|] eqn:Hre0.
    + destruct (get_line_type l0 (group g0 1)) as [[t h]|e0] eqn:Hty0;
        cbn [mbind result_bind].
      * apply elem_of_cons in Hin as [->|Hin]; [congruence|]. by eapply IH.
      * exists e0. split; [done|]. by eapply get_line_type_raises.
    + apply elem_of_cons in Hin as [->|Hin]; [congruence|]. by eapply IH.
Qed.

Lemma classify_lines_first_raise pre : ∀ acc acc' line post gs e,
  classify_lines pre acc = Ok acc' →
  re_search re_line line = Some gs →
  get_line_type line (group gs 1) = Raise e →
  classify_lines (pre ++ line :: post) acc = Raise e.
Proof.
  induction pre as [|l0 pre IH]; intros acc acc' line post gs e Hpre Hre Hty.
  - cbn [app classify_lines]. by rewrite Hre, Hty.
  - cbn [app classify_lines] in Hpre |- *.
    destruct (re_search re_line l0) as [g0|]; [|by eapply IH].
    destruct (get_line_type l0 (group g0 1)) as [[t h]|e0];
      cbn [mbind result_bind] in Hpre |- *; [by eapply IH|done].
Qed.

Lemma export_first_pass_raise text no_br w e :
  classify_lines (readlines text) [] = Raise e →
  export_file_to_folder text no_br w = (Raise e, w).
Proof.
  intros H. unfold export_file_to_folder, mbind, M_bind, lift. by rewrite H.
Qed.

(** One dictionary per line of the page, in order, with a content that is
    not empty and holds no newline. *)
Lemma classify_lines_each lines_raw : ∀ acc ls,
  (∀ l, l ∈ lines_raw →
     ∃ k c, no_newline c ∧ re_search re_line l = Some [replicate k tab; c]) →
  classify_lines lines_raw acc = Ok ls →
  ∃ new,
    ls = acc ++ new
    ∧ length new = length lines_raw
    ∧ Forall (λ li, content li ≠ [] ∧ no_newline (content li) ∧ 0 ≤ indent li)
        new.
Proof.
  induction lines_raw as [|l rest IH]; intros acc ls Hre.
  - cbn. intros [= <-]. exists []. by rewrite app_nil_r.
  - cbn [classify_lines].
    destruct (Hre l) as (k & c & Hc & ->); [apply elem_of_cons; by left|].
    cbn [group nth].
    destruct (get_line_type l c) as [[t h]|e] eqn:Hty; [|done].
    cbn [mbind result_bind]. intros Hls.
    apply IH in Hls as (new & -> & Hlen & Hall).
    2: { intros l' Hl'. apply Hre, elem_of_cons. by right. }
    eexists (_ :: new). rewrite <- app_assoc. split; [done|].
    split; [cbn; by rewrite Hlen|].
    constructor; [|done]. cbn. split; [|split; [done|lia]].
    intros ->. by rewrite get_line_type_empty in Hty.
Qed.

Lemma classify_lines_readlines text ls :
  classify_lines (readlines text) [] = Ok ls →
  length ls = length (readlines text)
  ∧ Forall (λ li, content li ≠ [] ∧ no_newline (content li) ∧ 0 ≤ indent li) ls.
Proof.
  intros H. apply classify_lines_each in H as (new & -> & Hlen & Hall); [done|].
  intros l (k & c & e & _ & Hc & _ & Hre)%re_line_total. by exists k, c.
Qed.

(** C7.  When some line of the page has a content that no rule of the
    classifier matches, the run ends with a non-zero exit status in the first
    loop: nothing is imported and nothing is written.  The status is that of
    [exit(1)] when the lines before it classify (an earlier blank line ends
    the run first, with an IndexError). *)
Theorem unclassifiable_line_aborts
    (text : str) (no_br : bool) (w : world) (line : str) (gs : list str) :
  line ∈ readlines text →
  re_search re_line line = Some gs →
  no_rule_matches line (group gs 1) = true →
  (∃ e, export_file_to_folder text no_br w = (Raise e, w)
        ∧ exit_status (Raise e : result unit) ≠ 0)
  ∧ (∀ pre post acc,
       readlines text = pre ++ line :: post →
       classify_lines pre [] = Ok acc →
       export_file_to_folder text no_br w = (Raise (SystemExit 1), w)).
Proof.
  intros Hin Hre Hno. apply get_line_type_exit in Hno. split.
  - destruct (classify_lines_raise (readlines text) [] line gs _ Hin Hre Hno)
      as (e & He & Hcase).
    exists e. split; [by apply export_first_pass_raise|].
    by destruct Hcase as [-> | ->].
  - intros pre post acc Hlines Hpre.
    apply export_first_pass_raise. rewrite Hlines.
    by eapply classify_lines_first_raise.
Qed.

(** A line that starts with a letter and has two characters. *)
Lemma unclassifiable_line_witness :
  let text := page [lit "- a"; lit "ab"; lit "- b"] in
  let w := fresh always_ok in
  lit "ab" ++ [nl] ∈ readlines text
  ∧ export_file_to_folder text false w = (Raise (SystemExit 1), w)
  ∧ written w = None ∧ copied w = [].
Proof.
  intros text w.
  assert (lit "ab" ++ [nl] ∈ readlines text) as Hin.
  { vm_compute. apply elem_of_cons. right. apply elem_of_cons. by left. }
  split; [done|].
  destruct (unclassifiable_line_aborts text false w (lit "ab" ++ [nl])
              [[]; lit "ab"] Hin) as [_ Hexit];
    [vm_compute; reflexivity..|].
  split; [|done].
  eapply (Hexit [lit "- a" ++ [nl]] [lit "- b" ++ [nl]]);
    vm_compute; reflexivity.
Defined.

(** * Blank lines *)

(** C10.  A line that is empty after its leading tabs reaches the classifier
    with an empty content; the classifier reads its first character without
    a test.  The page is never exported, and when the lines before the blank
    one classify the run ends with an uncaught IndexError, not with the exit
    of a classification error. *)
Theorem blank_line_index_error
    (text : str) (no_br : bool) (w : world) (line : str) (k : nat) (e : str) :
  line ∈ readlines text →
  line = replicate k tab ++ e →
  e = [] ∨ e = [nl] →
  re_search re_line line = Some [replicate k tab; []]
  ∧ get_line_type line [] = Raise IndexError
  ∧ (∃ x, export_file_to_folder text no_br w = (Raise x, w))
  ∧ (∀ pre post acc,
       readlines text = pre ++ line :: post →
       classify_lines pre [] = Ok acc →
       export_file_to_folder text no_br w = (Raise IndexError, w)).
Proof.
  intros Hin -> He.
  assert (re_search re_line (replicate k tab ++ e) = Some [replicate k tab; []])
    as Hre by (apply (re_line_spec k [] e); [constructor|done|done]).
  split; [done|]. split; [done|]. split.
  - destruct (classify_lines_raise (readlines text) [] _ _ IndexError Hin Hre)
      as (x & Hx & _); [done|].
    exists x. by apply export_first_pass_raise.
  - intros pre post acc Hlines Hpre.
    apply export_first_pass_raise. rewrite Hlines.
    by eapply classify_lines_first_raise.
Qed.

(** An empty line between two bullets. *)
Lemma blank_line_witness :
  let text := page [lit "- a"; []; lit "- b"] in
  let w := fresh always_ok in
  [nl] ∈ readlines text
  ∧ export_file_to_folder text false w = (Raise IndexError, w).
Proof.
  intros text w.
  assert ([nl] ∈ readlines text) as Hin.
  { vm_compute. apply elem_of_cons. right. apply elem_of_cons. by left. }
  split; [done|].
  destruct (blank_line_index_error text false w [nl] 0 [nl] Hin)
    as (_ & _ & _ & Hraise); [reflexivity | by right |].
  eapply (Hraise [lit "- a" ++ [nl]] [lit "- b" ++ [nl]]);
    vm_compute; reflexivity.
Defined.

(** * Reading a match backwards *)

Lemma pushes_nil g : pushes [] g = g.
Proof. destruct g; cbn; [|done]. by rewrite app_nil_r. Qed.

Lemma pushes_app a b g : pushes b (pushes a g) = pushes (a ++ b) g.
Proof. destruct g; cbn; [|done]. by rewrite app_assoc. Qed.

Lemma push_pushes c g : push c g = pushes [c] g.
Proof. by destruct g. Qed.

(** What a star took: a run of fitting characters, after which the rest of
    the pattern matched. *)
Lemma star_inv a k s : ∀ bol g r,
  star a k bol g s = Some r →
  ∃ xs s', s = xs ++ s'
    ∧ Forall (λ c, atom_ok a c = true) xs
    ∧ k (match xs with [] => bol | _ => false end) (pushes xs g) s' = Some r.
Proof.
  induction s as [|c s IH]; intros bol g r; cbn [star].
  - intros H. exists [], []. by rewrite pushes_nil.
  - destruct (atom_ok a c) eqn:Hc.
    + destruct (star a k false (push c g) s) as [r0|] eqn:Hs.
      * intros [= <-]. apply IH in Hs as (xs & s' & -> & Hxs & Hk).
        exists (c :: xs), s'. split; [done|]. split; [by constructor|].
        rewrite <- pushes_push. by destruct xs.
      * intros H. exists [], (c :: s). by rewrite pushes_nil.
    + intros H. exists [], (c :: s). by rewrite pushes_nil.
Qed.

(** A run of literal characters in the pattern is read off the subject. *)
Lemma lits_inv (l : str) p : ∀ bol g gs s r,
  rmatch (map (λ c, One (Chr c)) l ++ p) bol g gs s = Some r →
  ∃ s', s = l ++ s'
    ∧ rmatch p (match l with [] => bol | _ => false end) (pushes l g) gs s'
      = Some r.
Proof.
  induction l as [|c l IH]; intros bol g gs s r; cbn [map app].
  - intros H. exists s. by rewrite pushes_nil.
  - cbn [rmatch atom_ok]. destruct s as [|d s]; [done|].
    destruct (N.eqb_spec d c) as [->|]; [|done].
    intros (s' & -> & H)%IH. exists s'. split; [done|].
    rewrite <- pushes_push. by destruct l.
Qed.

(** A pattern that cannot match away from the start of the subject is
    matched at the start, if at all. *)
Lemma search_from_anchored p s :
  (∀ s', rmatch p false None [] s' = None) →
  search_from p false s = None.
Proof.
  intros Hp. induction s as [|c s IH]; cbn [search_from]; by rewrite Hp.
Qed.

Lemma re_search_anchored p s gs :
  (∀ s', rmatch p false None [] s' = None) →
  re_search p s = Some gs → rmatch p true None [] s = Some gs.
Proof.
  intros Hp. unfold re_search.
  destruct s as [|c s]; cbn [search_from];
    destruct (rmatch p true None [] _) as [r|]; try done.
  by rewrite search_from_anchored.
Qed.

Lemma one_dot_inv p bol g gs s r :
  rmatch (One Dot :: p) bol g gs s = Some r →
  ∃ d s', s = d :: s' ∧ d ≠ nl ∧ rmatch p false (pushes [d] g) gs s' = Some r.
Proof.
  cbn [rmatch atom_ok]. destruct s as [|d s]; [done|].
  destruct (N.eqb_spec d nl); [done|]. cbn [negb]. intros H.
  exists d, s. by rewrite <- push_pushes.
Qed.

Lemma dot_run s : Forall (λ c, atom_ok Dot c = true) s → no_newline s.
Proof.
  apply Forall_impl. intros c Hc. cbn in Hc.
  by apply negb_true_iff, N.eqb_neq in Hc.
Qed.

Lemma tab_run s :
  Forall (λ c, atom_ok (Chr tab) c = true) s → s = replicate (length s) tab.
Proof.
  induction 1 as [|c s Hc _ IH]; [done|].
  cbn in Hc. apply N.eqb_eq in Hc as ->. cbn. by rewrite <- IH.
Qed.

(** The asset pattern, read backwards. *)
Lemma re_asset_inv c gs :
  re_search re_asset c = Some gs →
  ∃ x1 x2 d1 d2 f tail,
    c = (x1 ++ lit "[" ++ x2 ++ lit "](") ++ [d1; d2] ++ lit "/assets/"
          ++ f ++ lit ")" ++ tail
    ∧ gs = [x1 ++ lit "[" ++ x2 ++ lit "]("; [d1; d2] ++ lit "/"; f]
    ∧ no_newline x1 ∧ no_newline x2 ∧ d1 ≠ nl ∧ d2 ≠ nl ∧ no_newline f.
Proof.
  intros H. apply re_search_anchored in H; [|by rewrite re_asset_tokens].
  rewrite re_asset_tokens in H. cbn [app rmatch] in H.
  apply star_inv in H as (x1 & s1 & -> & Hx1 & H).
  unfold lits in H. apply lits_inv in H as (s2 & -> & H).
  cbn [app rmatch] in H.
  apply star_inv in H as (x2 & s3 & -> & Hx2 & H).
  apply lits_inv in H as (s4 & -> & H).
  rewrite ?pushes_app in H. cbn [pushes app rmatch close] in H.
  destruct s4 as [|d1 s5]; [done|].
  destruct (atom_ok Dot d1) eqn:Hd1; [|done].
  destruct s5 as [|d2 s6]; [done|].
  destruct (atom_ok Dot d2) eqn:Hd2; [|done].
  cbn [push app] in H.
  apply lits_inv in H as (s7 & -> & H).
  rewrite ?pushes_app in H. cbn [pushes app rmatch close] in H.
  apply lits_inv in H as (s8 & -> & H).
  cbn [app rmatch] in H.
  apply star_inv in H as (f & s9 & -> & Hf & H).
  cbn [pushes app rmatch close] in H.
  rewrite <- (app_nil_r (map _ (lit ")"))) in H.
  apply lits_inv in H as (tail & -> & H).
  cbn [rmatch] in H. injection H as <-.
  exists x1, x2, d1, d2, f, tail.
  split; [by rewrite <- !app_assoc|].
  split; [reflexivity|].
  cbn in Hd1, Hd2. apply negb_true_iff, N.eqb_neq in Hd1, Hd2.
  repeat split; auto using dot_run.
Qed.

(** The drawio pattern, read backwards. *)
Lemma re_drawio_inv c gs :
  re_search re_drawio c = Some gs →
  ∃ x1 x2 d tail,
    c = x1 ++ lit "{{renderer :drawio, " ++ (x2 ++ [d] ++ lit "svg")
          ++ lit "}}" ++ tail
    ∧ gs = [x1; x2 ++ [d] ++ lit "svg"]
    ∧ no_newline x1 ∧ no_newline x2 ∧ d ≠ nl.
Proof.
  intros H. apply re_search_anchored in H; [|by rewrite re_drawio_tokens].
  rewrite re_drawio_tokens in H. cbn [app rmatch] in H.
  apply star_inv in H as (x1 & s1 & -> & Hx1 & H).
  cbn [pushes app rmatch close] in H.
  unfold lits in H. apply lits_inv in H as (s2 & -> & H).
  cbn [app rmatch] in H.
  apply star_inv in H as (x2 & s3 & -> & Hx2 & H).
  cbn [pushes app rmatch] in H.
  destruct s3 as [|d s4]; [done|].
  destruct (atom_ok Dot d) eqn:Hd; [|done].
  cbn [push] in H.
  apply lits_inv in H as (s5 & -> & H).
  cbn [pushes app rmatch close] in H.
  rewrite <- (app_nil_r (map _ (lit "}}"))) in H.
  apply lits_inv in H as (tail & -> & H).
  cbn [rmatch] in H. injection H as <-.
  exists x1, x2, d, tail.
  split; [by rewrite <- !app_assoc|].
  split; [by rewrite <- !app_assoc|].
  cbn in Hd. apply negb_true_iff, N.eqb_neq in Hd.
  repeat split; auto using dot_run.
Qed.

(** A task pattern, read backwards: tabs, the marker, and the rest of the
    content up to its end. *)
Lemma re_task_inv (re : regex) (kw : string) c gs :
  re = [GOpen; Bol; Star (Chr tab); GClose] ++ lits kw
         ++ [GOpen; Star Dot; GClose; Eol] →
  re_search re c = Some gs →
  ∃ k rest e,
    c = replicate k tab ++ lit kw ++ rest ++ e
    ∧ gs = [replicate k tab; rest]
    ∧ no_newline rest ∧ (e = [] ∨ e = [nl]).
Proof.
  intros -> H. apply re_search_anchored in H; [|done].
  cbn [app rmatch] in H.
  apply star_inv in H as (x1 & s1 & -> & Hx1 & H).
  cbn [pushes app rmatch close] in H.
  unfold lits in H. apply lits_inv in H as (s2 & -> & H).
  cbn [app rmatch] in H.
  apply star_inv in H as (rest & e & -> & Hrest & H).
  cbn [pushes app rmatch close] in H.
  exists (length x1), rest, e. rewrite <- (tab_run x1 Hx1).
  destruct e as [|c [|]]; [|destruct (N.eqb_spec c nl) as [->|]|]; try done.
  all: injection H as <-; repeat split; auto using dot_run.
Qed.

(** The fence patterns, read backwards. *)
Lemma re_fence_inv (re : regex) (bullet : string) line gs :
  re = [Bol; GOpen; Star (Chr tab); GClose] ++ lits bullet
         ++ [GOpen] ++ lits "```" ++ [GClose] →
  re_search re line = Some gs →
  ∃ k tail, line = replicate k tab ++ lit bullet ++ lit "```" ++ tail.
Proof.
  intros -> H. apply re_search_anchored in H; [|done].
  cbn [app rmatch] in H.
  apply star_inv in H as (x1 & s1 & -> & Hx1 & H).
  cbn [pushes app rmatch close] in H.
  unfold lits in H. apply lits_inv in H as (s2 & -> & H).
  cbn [app rmatch] in H.
  apply lits_inv in H as (tail & -> & H).
  exists (length x1), tail. by rewrite <- (tab_run x1 Hx1).
Qed.

(** And forwards. *)
Lemma re_fence_spec (re : regex) (bullet : string) k tail :
  re = [Bol; GOpen; Star (Chr tab); GClose] ++ lits bullet
         ++ [GOpen] ++ lits "```" ++ [GClose] →
  match lit bullet with t :: _ => t ≠ tab | [] => False end →
  is_Some (re_search re (replicate k tab ++ lit bullet ++ lit "```" ++ tail)).
Proof.
  intros -> Hb.
  assert (∀ (l : str) p bol g gs s,
            rmatch (map (λ c, One (Chr c)) l ++ p) bol g gs (l ++ s)
            = rmatch p (match l with [] => bol | _ => false end)
                (pushes l g) gs s) as Hlits.
  { induction l as [|c l IH]; intros p bol g gs s; cbn [map app].
    - by rewrite pushes_nil.
    - cbn [rmatch atom_ok]. rewrite N.eqb_refl, IH, <- pushes_push.
      by destruct l. }
  eexists. apply re_search_at_start. cbn [app rmatch].
  apply star_greedy; [apply atom_ok_tab| |].
  { destruct (lit bullet) as [|t ?]; [done|]. cbn. by apply N.eqb_neq. }
  cbn [pushes app rmatch close]. unfold lits.
  rewrite Hlits. cbn [app rmatch]. rewrite Hlits. cbn [rmatch]. done.
Qed.

(** * More on the classifier *)

(** X1.  The classifier never answers CODE; a TITLE or a LIST always starts
    a node, a TEXT never does. *)
Theorem classifier_kinds (line c : str) (t : LineType) (h : LineHierarchy) :
  get_line_type line c = Ok (t, h) →
  t ≠ CODE
  ∧ (t = TITLE ∨ t = LIST → h = PARENT)
  ∧ (t = TEXT → h = CHILD).
Proof.
  unfold get_line_type.
  destruct (py_index c 0) as [L1|e0]; cbn [mbind result_bind]; [|done].
  rewrite third_char.
  repeat match goal with
    | |- context [if N.eqb ?a ?b then _ else _] => destruct (N.eqb a b)
    | |- context [match ?o with Some _ => _ | None => _ end] => destruct o
    end; intros [= <- <-]; repeat split; try done; intros [?|?]; done.
Qed.

Lemma classifier_kinds_witness :
  get_line_type (lit "- a") (lit "- a") = Ok (LIST, PARENT)
  ∧ LIST ≠ CODE
  ∧ (LIST = TITLE ∨ LIST = LIST → PARENT = PARENT)
  ∧ (LIST = TEXT → PARENT = CHILD).
Proof.
  split; [reflexivity|].
  apply (classifier_kinds (lit "- a") (lit "- a")). reflexivity.
Defined.

(** X2.  The classifier fails with IndexError on the empty content and on
    no other; a content that begins with [#], [-] or a space is always
    classified. *)
Theorem classifier_accepts (line c : str) :
  (get_line_type line c = Raise IndexError ↔ c = [])
  ∧ (∀ L1 r, c = L1 :: r →
       L1 = chr "#" ∨ L1 = chr "-" ∨ L1 = chr " " →
       ∃ t h, get_line_type line c = Ok (t, h)).
Proof.
  split.
  - split; [|by intros ->].
    destruct c as [|L1 r]; [done|]. intros H.
    pose proof (get_line_type_exit line (L1 :: r)) as Hexit.
    unfold get_line_type in H.
    assert (py_index (L1 :: r) 0 = Ok L1) as Hidx
      by apply (py_index_nat (L1 :: r) 0 L1 eq_refl).
    rewrite Hidx in H. cbn [mbind result_bind] in H.
    rewrite third_char in H.
    repeat match type of H with
      | context [if N.eqb ?a ?b then _ else _] => destruct (N.eqb a b)
      | context [match ?o with Some _ => _ | None => _ end] => destruct o
      end; discriminate H.
  - intros L1 r -> HL1. unfold get_line_type.
    assert (py_index (L1 :: r) 0 = Ok L1) as ->
      by apply (py_index_nat (L1 :: r) 0 L1 eq_refl).
    cbn [mbind result_bind]. rewrite third_char.
    destruct HL1 as [-> | [-> | ->]].
    all: change (N.eqb (chr "#") (chr "#")) with true;
      change (N.eqb (chr "-") (chr "#")) with false;
      change (N.eqb (chr " ") (chr "#")) with false;
      change (N.eqb (chr "-") (chr "-")) with true;
      change (N.eqb (chr " ") (chr "-")) with false;
      change (N.eqb (chr " ") (chr " ")) with true; cbv iota.
    all: repeat match goal with
      | |- context [if N.eqb ?a ?b then _ else _] => destruct (N.eqb a b)
      | |- context [match ?o with Some _ => _ | None => _ end] => destruct o
      end; by eexists _, _.
Qed.

Lemma classifier_accepts_witness :
  ∃ t h, get_line_type (lit "- a") (lit "- a") = Ok (t, h).
Proof.
  apply (proj2 (classifier_accepts (lit "- a") (lit "- a"))
           (chr "-") (lit " a") eq_refl).
  right. left. reflexivity.
Defined.

(** * Fences, seen from the content *)

Lemma startswith_inv p : ∀ s, startswith p s = true → ∃ r, s = p ++ r.
Proof.
  induction p as [|a p IH]; intros s; cbn [startswith].
  - intros _. by exists s.
  - destruct s as [|c s]; [done|].
    intros [->%N.eqb_eq (r & ->)%IH]%andb_true_iff. by exists r.
Qed.

(** A prefix without a newline that is found on the line is found in its
    content. *)
Lemma startswith_line_end p : ∀ c e,
  no_newline p → e = [] ∨ e = [nl] →
  startswith p (c ++ e) = true → startswith p c = true.
Proof.
  induction p as [|a p IH]; intros c e Hp He; [done|].
  unfold no_newline in Hp. apply Forall_cons_1 in Hp as [Ha Hp].
  destruct c as [|x c]; cbn [app startswith].
  - destruct He as [-> | ->]; cbn [startswith]; [done|].
    intros [->%N.eqb_eq _]%andb_true_iff. done.
  - intros [-> H]%andb_true_iff. cbn [andb]. by eapply IH.
Qed.

Lemma tabs_unique k : ∀ k' (a b : str),
  match a with x :: _ => x ≠ tab | [] => False end →
  match b with x :: _ => x ≠ tab | [] => False end →
  replicate k tab ++ a = replicate k' tab ++ b → a = b.
Proof.
  induction k as [|k IH]; intros [|k'] a b Ha Hb; cbn [replicate app].
  - done.
  - intros ->. done.
  - intros <-. done.
  - intros [= H]. by eapply IH.
Qed.

(** A fence pattern matches the line exactly when the content begins with
    the bullet and three backquotes. *)
Lemma fence_search (re : regex) (bullet : string) k c e :
  re = [Bol; GOpen; Star (Chr tab); GClose] ++ lits bullet
         ++ [GOpen] ++ lits "```" ++ [GClose] →
  match lit bullet with t :: _ => t ≠ tab | [] => False end →
  no_newline (lit bullet) →
  match c with x :: _ => x ≠ tab | [] => False end →
  e = [] ∨ e = [nl] →
  is_Some (re_search re (replicate k tab ++ c ++ e))
  ↔ ∃ r, c = lit bullet ++ lit "```" ++ r.
Proof.
  intros Hre Hb Hnb Hc He. split.
  - intros [gs Hgs].
    destruct (re_fence_inv re bullet _ gs Hre Hgs) as (k' & tail & Heq).
    apply tabs_unique in Heq.
    + assert (startswith (lit bullet ++ lit "```") (c ++ e) = true) as Hsw.
      { rewrite Heq, app_assoc. apply startswith_app. }
      apply startswith_line_end in Hsw; [|
        apply Forall_app; split; [done|by repeat constructor] | done].
      apply startswith_inv in Hsw as [r ->]. exists r. by rewrite <- app_assoc.
    + destruct c; [done|]. done.
    + destruct (lit bullet); done.
  - intros [r ->]. rewrite <- !app_assoc.
    by apply re_fence_spec.
Qed.

Lemma re_parent_code_block_tokens :
  re_parent_code_block
  = [Bol; GOpen; Star (Chr tab); GClose] ++ lits "- "
      ++ [GOpen] ++ lits "```" ++ [GClose].
Proof. reflexivity. Qed.

Lemma re_child_code_block_tokens :
  re_child_code_block
  = [Bol; GOpen; Star (Chr tab); GClose] ++ lits "  "
      ++ [GOpen] ++ lits "```" ++ [GClose].
Proof. reflexivity. Qed.

(** X3.  On a line made of tabs, a content and the line end, the classifier
    answers CODE_BLOCK_MARKER exactly when the content begins with a dash or
    a space, a space and three backquotes; and a line that starts a node has
    a content that begins with [#] or [-]. *)
Theorem fence_marker_iff (k : nat) (c e : str) (t : LineType)
    (h : LineHierarchy) :
  match c with x :: _ => x ≠ tab | [] => True end →
  e = [] ∨ e = [nl] →
  get_line_type (replicate k tab ++ c ++ e) c = Ok (t, h) →
  (t = CODE_BLOCK_MARKER
   ↔ (∃ r, c = lit "- ```" ++ r) ∨ (∃ r, c = lit "  ```" ++ r))
  ∧ (h = PARENT → ∃ r, c = chr "#" :: r ∨ c = chr "-" :: r).
Proof.
  intros Hc He.
  destruct c as [|L1 c]; [done|].
  pose proof (fence_search re_parent_code_block "- " k (L1 :: c) e
                re_parent_code_block_tokens) as Hp.
  pose proof (fence_search re_child_code_block "  " k (L1 :: c) e
                re_child_code_block_tokens) as Hch.
  specialize (Hp ltac:(done) ltac:(by repeat constructor) Hc He).
  specialize (Hch ltac:(done) ltac:(by repeat constructor) Hc He).
  unfold get_line_type.
  assert (py_index (L1 :: c) 0 = Ok L1) as ->
    by apply (py_index_nat (L1 :: c) 0 L1 eq_refl).
  cbn [mbind result_bind]. rewrite third_char.
  destruct (re_search re_parent_code_block _) as [gp|].
  { destruct (proj1 Hp ltac:(by eexists)) as [r Hr].
    cbn in Hr. injection Hr as -> ->. cbn. intros [= <- <-].
    split; [split; [|done]|].
    - intros _. left. by exists r.
    - intros _. exists (32 :: 96 :: 96 :: 96 :: r)%N. by right. }
  destruct (re_search re_child_code_block _) as [gc|].
  { destruct (proj1 Hch ltac:(by eexists)) as [r Hr].
    cbn in Hr. injection Hr as -> ->. cbn. intros [= <- <-].
    split; [split; [|done]|done].
    intros _. right. by exists r. }
  assert (¬ ((∃ r, L1 :: c = lit "- ```" ++ r)
             ∨ (∃ r, L1 :: c = lit "  ```" ++ r))) as Hno.
  { intros [Hr|Hr]; [apply Hp in Hr|apply Hch in Hr]; by destruct Hr. }
  clear Hp Hch.
  destruct c as [|c1 [|L2 c]]; cbn [lookup list_lookup].
  all: repeat match goal with
         | |- context [N.eqb ?a ?b] =>
             destruct (N.eqb_spec a b) as [?|?]; try subst
         end.
  all: try match goal with
         | H : chr _ = chr _ |- _ => by vm_compute in H
         end.
  all: intros [= <- <-].
  all: (split; [split; [done|by intros ?]|]).
  all: try done.
  all: intros _; eexists; by eauto.
Qed.

Lemma fence_marker_witness :
  get_line_type ([tab] ++ lit "- ```python" ++ [nl]) (lit "- ```python")
  = Ok (CODE_BLOCK_MARKER, PARENT)
  ∧ (CODE_BLOCK_MARKER = CODE_BLOCK_MARKER
     ↔ (∃ r, lit "- ```python" = lit "- ```" ++ r)
       ∨ (∃ r, lit "- ```python" = lit "  ```" ++ r))
  ∧ (PARENT = PARENT
     → ∃ r, lit "- ```python" = chr "#" :: r ∨ lit "- ```python" = chr "-" :: r).
Proof.
  split; [reflexivity|].
  apply (fence_marker_iff 1 (lit "- ```python") [nl]);
    [by vm_compute | by right | reflexivity].
Defined.

(** * The first loop keeps every line *)

Lemma re_line_shape text l :
  l ∈ readlines text →
  ∃ k c e, l = replicate k tab ++ c ++ e
           ∧ no_newline c ∧ (e = [] ∨ e = [nl])
           ∧ match c with t :: _ => t ≠ tab | [] => True end
           ∧ re_search re_line l = Some [replicate k tab; c].
Proof.
  intros (b & Hb & Hl)%readlines_shape.
  destruct (leading_tabs b) as (k & c & -> & Hc).
  assert (no_newline c) as Hnc.
  { unfold no_newline in Hb. by apply Forall_app in Hb as [_ ?]. }
  destruct Hl as [-> | [-> _]].
  - exists k, c, [nl]. rewrite <- app_assoc. repeat split; [done|by right|done|].
    apply re_line_spec; [done|done|by right].
  - exists k, c, []. rewrite app_nil_r. repeat split; [done|by left|done|].
    rewrite <- (app_nil_r c) at 1. apply re_line_spec; [done|done|by left].
Qed.

Lemma classify_lines_holds lines_raw : ∀ acc ls,
  (∀ l, l ∈ lines_raw →
     ∃ k c e, l = replicate k tab ++ c ++ e
              ∧ no_newline c ∧ (e = [] ∨ e = [nl])
              ∧ match c with t :: _ => t ≠ tab | [] => True end
              ∧ re_search re_line l = Some [replicate k tab; c]) →
  classify_lines lines_raw acc = Ok ls →
  ∃ new, ls = acc ++ new ∧ Forall2 holds_line lines_raw new.
Proof.
  induction lines_raw as [|l rest IH]; intros acc ls Hre.
  - cbn. intros [= <-]. exists []. by rewrite app_nil_r.
  - cbn [classify_lines].
    destruct (Hre l) as (k & c & e & Hl & Hc & He & Hhd & ->);
      [apply elem_of_cons; by left|].
    cbn [group nth].
    destruct (get_line_type l c) as [[t h]|e0] eqn:Hty; [|done].
    cbn [mbind result_bind]. intros Hls.
    apply IH in Hls as (new & -> & Hall).
    2: { intros l' Hl'. apply Hre, elem_of_cons. by right. }
    eexists (_ :: new). rewrite <- app_assoc. split; [done|].
    constructor; [|done]. exists e. cbn.
    rewrite Nat2Z.id, length_replicate. split; [done|]. split; [done|].
    split; [|split; [done|split; [|done]]].
    + intros ->. by rewrite get_line_type_empty in Hty.
    + destruct c; [done|]. cbn. congruence.
Qed.

(** X4.  The first loop makes one dictionary per line of the page, in
    order, and loses nothing: the line is its indentation in tabs, its
    content and its line end; the content is not empty, holds no newline and
    does not begin with a tab, and type and hierarchy are those the
    classifier gives for it. *)
Theorem first_loop_lossless (text : str) (ls : list line_info) :
  classify_lines (readlines text) [] = Ok ls →
  Forall2 holds_line (readlines text) ls.
Proof.
  intros H.
  apply classify_lines_holds in H as (new & -> & Hall); [done|].
  apply re_line_shape.
Qed.

Lemma first_loop_witness :
  ∃ ls,
    classify_lines (readlines (lit "- a" ++ [nl; tab] ++ lit "- b")) [] = Ok ls
    ∧ Forall2 holds_line (readlines (lit "- a" ++ [nl; tab] ++ lit "- b")) ls.
Proof.
  eexists. split; [vm_compute; reflexivity|].
  apply first_loop_lossless. vm_compute. reflexivity.
Defined.

(** * The rewrite chain, read backwards *)

(** X5.  A content that holds [../assets] and comes out of the rewrite chain
    is either unchanged, with no call made (the link pattern does not match
    it), or a link: any text, a bracketed text, an opening parenthesis, any
    two characters, [/assets/], a file name, a closing parenthesis and a
    tail.  Then the file is imported from [assets] itself and the copy
    succeeded, the two characters are dropped, and the tail after the last
    closing parenthesis is lost. *)
Theorem asset_rewrite_shape (c : str) (w : world) (c' : str) (w' : world) :
  contains c (lit "../assets") = true →
  directive_rewrite c w = (Ok c', w') →
  (re_search re_asset c = None ∧ c' = c ∧ w' = w)
  ∨ ∃ x1 x2 d1 d2 f tail,
      c = x1 ++ lit "[" ++ x2 ++ lit "](" ++ [d1; d2] ++ lit "/assets/"
            ++ f ++ lit ")" ++ tail
      ∧ c' = x1 ++ lit "[" ++ x2 ++ lit "](" ++ lit "assets/" ++ f ++ lit ")"
      ∧ no_newline f
      ∧ copy_ok w [] f = true
      ∧ import_calls w' = import_calls w ++ [(f, [])]
      ∧ copied w' = copied w ++ [f]
      ∧ written w' = written w.
Proof.
  intros Hc. unfold directive_rewrite. rewrite Hc.
  destruct (re_search re_asset c) as [gs|] eqn:Hre.
  - apply re_asset_inv in Hre
      as (x1 & x2 & d1 & d2 & f & tail & -> & -> & _ & _ & _ & _ & Hf).
    cbn [group nth]. unfold mbind, M_bind, import_asset.
    destruct (copy_ok w [] f) eqn:Hok; [|done].
    intros [-> ->]%ret_M_inv. right. exists x1, x2, d1, d2, f, tail.
    split; [by rewrite <- !app_assoc|].
    split; [by rewrite <- !app_assoc|]. done.
  - intros [= <- <-]. by left.
Qed.

Lemma asset_rewrite_witness :
  let c := lit "- see ![fig](../assets/a.png) (draft)." in
  contains c (lit "../assets") = true
  ∧ ∃ c' w',
      directive_rewrite c (fresh always_ok) = (Ok c', w')
      ∧ ((re_search re_asset c = None ∧ c' = c ∧ w' = fresh always_ok)
         ∨ ∃ x1 x2 d1 d2 f tail,
             c = x1 ++ lit "[" ++ x2 ++ lit "](" ++ [d1; d2] ++ lit "/assets/"
                   ++ f ++ lit ")" ++ tail
             ∧ c' = x1 ++ lit "[" ++ x2 ++ lit "](" ++ lit "assets/" ++ f
                      ++ lit ")"
             ∧ no_newline f
             ∧ copy_ok (fresh always_ok) [] f = true
             ∧ import_calls w' = import_calls (fresh always_ok) ++ [(f, [])]
             ∧ copied w' = copied (fresh always_ok) ++ [f]
             ∧ written w' = written (fresh always_ok)).
Proof.
  intros c. split; [reflexivity|].
  eexists _, _. split; [vm_compute; reflexivity|].
  apply (asset_rewrite_shape c (fresh always_ok)); [reflexivity|].
  vm_compute. reflexivity.
Defined.

(** X6.  A content without [../assets] that holds the drawio renderer tag
    and comes out of the rewrite chain is either unchanged, with no call
    made, or any text, the tag with a file name that ends in any character
    followed by [svg], the two closing braces and a tail.  Then the file is
    imported from the plugin's directory and the copy succeeded, the tag
    becomes an image link to the file under [assets], and the tail is
    lost. *)
Theorem drawio_rewrite_shape (c : str) (w : world) (c' : str) (w' : world) :
  contains c (lit "../assets") = false →
  contains c (lit "{{renderer :drawio,") = true →
  directive_rewrite c w = (Ok c', w') →
  (re_search re_drawio c = None ∧ c' = c ∧ w' = w)
  ∨ ∃ x1 x2 d f tail,
      f = x2 ++ [d] ++ lit "svg"
      ∧ c = x1 ++ lit "{{renderer :drawio, " ++ f ++ lit "}}" ++ tail
      ∧ c' = x1 ++ lit "![" ++ f ++ lit "](assets/" ++ f ++ lit ")"
      ∧ no_newline f
      ∧ copy_ok w drawio_subdir f = true
      ∧ import_calls w' = import_calls w ++ [(f, drawio_subdir)]
      ∧ copied w' = copied w ++ [f]
      ∧ written w' = written w.
Proof.
  intros Ha Hd. unfold directive_rewrite. rewrite Ha, Hd.
  destruct (re_search re_drawio c) as [gs|] eqn:Hre.
  - apply re_drawio_inv in Hre as (x1 & x2 & d & tail & -> & -> & _ & Hx2 & Hdn).
    cbn [group nth]. unfold mbind, M_bind, import_asset.
    fold drawio_subdir.
    destruct (copy_ok w drawio_subdir _) eqn:Hok; [|done].
    intros [-> ->]%ret_M_inv. right.
    exists x1, x2, d, (x2 ++ [d] ++ lit "svg"), tail.
    split; [done|]. split; [done|].
    split; [by rewrite <- !app_assoc|].
    split; [|done].
    apply Forall_app. split; [done|].
    apply Forall_app. split; [by constructor|]. by repeat constructor.
  - intros [= <- <-]. by left.
Qed.

Lemma drawio_rewrite_witness :
  let c := lit "- {{renderer :drawio, d1.svg}} (old)" in
  contains c (lit "../assets") = false
  ∧ contains c (lit "{{renderer :drawio,") = true
  ∧ ∃ c' w',
      directive_rewrite c (fresh always_ok) = (Ok c', w')
      ∧ ((re_search re_drawio c = None ∧ c' = c ∧ w' = fresh always_ok)
         ∨ ∃ x1 x2 d f tail,
             f = x2 ++ [d] ++ lit "svg"
             ∧ c = x1 ++ lit "{{renderer :drawio, " ++ f ++ lit "}}" ++ tail
             ∧ c' = x1 ++ lit "![" ++ f ++ lit "](assets/" ++ f ++ lit ")"
             ∧ no_newline f
             ∧ copy_ok (fresh always_ok) drawio_subdir f = true
             ∧ import_calls w'
               = import_calls (fresh always_ok) ++ [(f, drawio_subdir)]
             ∧ copied w' = copied (fresh always_ok) ++ [f]
             ∧ written w' = written (fresh always_ok)).
Proof.
  intros c. split; [reflexivity|]. split; [reflexivity|].
  eexists _, _. split; [vm_compute; reflexivity|].
  apply (drawio_rewrite_shape c (fresh always_ok)); [reflexivity..|].
  vm_compute. reflexivity.
Defined.

Lemma task_tokens :
  re_todo = [GOpen; Bol; Star (Chr tab); GClose] ++ lits "- TODO "
              ++ [GOpen; Star Dot; GClose; Eol]
  ∧ re_doing = [GOpen; Bol; Star (Chr tab); GClose] ++ lits "- DOING "
                 ++ [GOpen; Star Dot; GClose; Eol]
  ∧ re_done = [GOpen; Bol; Star (Chr tab); GClose] ++ lits "- DONE "
                ++ [GOpen; Star Dot; GClose; Eol]
  ∧ re_later = [GOpen; Bol; Star (Chr tab); GClose] ++ lits "- LATER "
                 ++ [GOpen; Star Dot; GClose; Eol]
  ∧ re_now = [GOpen; Bol; Star (Chr tab); GClose] ++ lits "- NOW "
               ++ [GOpen; Star Dot; GClose; Eol].
Proof. repeat split. Qed.

Lemma none_before_intro c :
  contains c (lit "../assets") = false →
  contains c (lit "{{renderer :drawio,") = false →
  none_before (lit "- TODO ") c = true
  ∧ (contains c (lit "- TODO ") = false →
     none_before (lit "- DOING ") c = true
     ∧ (contains c (lit "- DOING ") = false →
        none_before (lit "- DONE ") c = true
        ∧ (contains c (lit "- DONE ") = false →
           none_before (lit "- LATER ") c = true
           ∧ (contains c (lit "- LATER ") = false →
              none_before (lit "- NOW ") c = true)))).
Proof.
  intros H1 H2. unfold none_before.
  change (chain_before (lit "- TODO ") triggers)
    with [lit "../assets"; lit "{{renderer :drawio,"].
  change (chain_before (lit "- DOING ") triggers)
    with [lit "../assets"; lit "{{renderer :drawio,"; lit "- TODO "].
  change (chain_before (lit "- DONE ") triggers)
    with [lit "../assets"; lit "{{renderer :drawio,"; lit "- TODO ";
          lit "- DOING "].
  change (chain_before (lit "- LATER ") triggers)
    with [lit "../assets"; lit "{{renderer :drawio,"; lit "- TODO ";
          lit "- DOING "; lit "- DONE "].
  change (chain_before (lit "- NOW ") triggers)
    with [lit "../assets"; lit "{{renderer :drawio,"; lit "- TODO ";
          lit "- DOING "; lit "- DONE "; lit "- LATER "].
  cbn [forallb]. rewrite H1, H2. cbn [negb andb].
  split; [done|]. intros ->. split; [done|]. intros ->. split; [done|].
  intros ->. split; [done|]. by intros ->.
Qed.

(** X7.  A content without asset link and drawio tag never changes the file
    system, and it comes out of the rewrite chain changed only if it is
    tabs, a task marker and the rest of the line, for the first marker of
    the chain that occurs anywhere in it; then the marker is replaced as the
    table says. *)
Theorem task_rewrite_shape (c : str) (w : world) (c' : str) (w' : world) :
  contains c (lit "../assets") = false →
  contains c (lit "{{renderer :drawio,") = false →
  directive_rewrite c w = (Ok c', w') →
  w' = w
  ∧ (c' = c
     ∨ ∃ kw pre post k rest e,
         (kw, pre, post) ∈ task_markers
         ∧ none_before (lit kw) c = true
         ∧ c = replicate k tab ++ lit kw ++ rest ++ e
         ∧ (e = [] ∨ e = [nl]) ∧ no_newline rest
         ∧ c' = replicate k tab ++ lit pre ++ rest ++ lit post).
Proof.
  intros Ha Hd.
  destruct (none_before_intro c Ha Hd) as (N1 & N2).
  destruct task_tokens as (T1 & T2 & T3 & T4 & T5).
  unfold directive_rewrite, task_rewrite. rewrite Ha, Hd.
  destruct (contains c (lit "- TODO ")) eqn:C1.
  { destruct (re_search re_todo c) as [gs|] eqn:Hre; intros [-> ->]%ret_M_inv;
      (split; [done|]); [|by left].
    destruct (re_task_inv _ _ _ _ T1 Hre) as (k & rest & e & Hc & -> & Hr & He).
    right. exists "- TODO "%string, "- **&#x2610; TODO** "%string, ""%string,
      k, rest, e.
    split; [by repeat first [apply list_elem_of_here | apply list_elem_of_further]|].
    repeat (split; [done|]). cbn [group nth].
    change (lit "") with (@nil char). rewrite app_nil_r.
    by rewrite (app_assoc (lit _) (lit _) rest). }
  destruct (N2 eq_refl) as (N2' & N3).
  destruct (contains c (lit "- DOING ")) eqn:C2.
  { destruct (re_search re_doing c) as [gs|] eqn:Hre; intros [-> ->]%ret_M_inv;
      (split; [done|]); [|by left].
    destruct (re_task_inv _ _ _ _ T2 Hre) as (k & rest & e & Hc & -> & Hr & He).
    right. exists "- DOING "%string, "- **&#x231B; DOING** "%string, ""%string,
      k, rest, e.
    split; [by repeat first [apply list_elem_of_here | apply list_elem_of_further]|].
    repeat (split; [done|]). cbn [group nth].
    change (lit "") with (@nil char). rewrite app_nil_r.
    by rewrite (app_assoc (lit _) (lit _) rest). }
  destruct (N3 eq_refl) as (N3' & N4).
  destruct (contains c (lit "- DONE ")) eqn:C3.
  { destruct (re_search re_done c) as [gs|] eqn:Hre; intros [-> ->]%ret_M_inv;
      (split; [done|]); [|by left].
    destruct (re_task_inv _ _ _ _ T3 Hre) as (k & rest & e & Hc & -> & Hr & He).
    right. exists "- DONE "%string, "- **&#x2611;** ~~"%string, "~~"%string,
      k, rest, e.
    split; [by repeat first [apply list_elem_of_here | apply list_elem_of_further]|].
    repeat (split; [done|]). cbn [group nth]. done. }
  destruct (N4 eq_refl) as (N4' & N5).
  destruct (contains c (lit "- LATER ")) eqn:C4.
  { destruct (re_search re_later c) as [gs|] eqn:Hre; intros [-> ->]%ret_M_inv;
      (split; [done|]); [|by left].
    destruct (re_task_inv _ _ _ _ T4 Hre) as (k & rest & e & Hc & -> & Hr & He).
    right. exists "- LATER "%string, "- **&#x23F2; LATER** "%string, ""%string,
      k, rest, e.
    split; [by repeat first [apply list_elem_of_here | apply list_elem_of_further]|].
    repeat (split; [done|]). cbn [group nth].
    change (lit "") with (@nil char). rewrite app_nil_r.
    by rewrite (app_assoc (lit _) (lit _) rest). }
  specialize (N5 eq_refl).
  destruct (contains c (lit "- NOW ")) eqn:C5.
  { destruct (re_search re_now c) as [gs|] eqn:Hre; intros [-> ->]%ret_M_inv;
      (split; [done|]); [|by left].
    destruct (re_task_inv _ _ _ _ T5 Hre) as (k & rest & e & Hc & -> & Hr & He).
    right. exists "- NOW "%string, "- **&#x23F0; NOW** "%string, ""%string,
      k, rest, e.
    split; [by repeat first [apply list_elem_of_here | apply list_elem_of_further]|].
    repeat (split; [done|]). cbn [group nth].
    change (lit "") with (@nil char). rewrite app_nil_r.
    by rewrite (app_assoc (lit _) (lit _) rest). }
  intros [= <- <-]. split; [done|]. by left.
Qed.

Lemma task_rewrite_witness :
  let c := [tab] ++ lit "- LATER call back" in
  let w := fresh always_ok in
  contains c (lit "../assets") = false
  ∧ contains c (lit "{{renderer :drawio,") = false
  ∧ ∃ c' w',
      directive_rewrite c w = (Ok c', w')
      ∧ w' = w
      ∧ (c' = c
         ∨ ∃ kw pre post k rest e,
             (kw, pre, post) ∈ task_markers
             ∧ none_before (lit kw) c = true
             ∧ c = replicate k tab ++ lit kw ++ rest ++ e
             ∧ (e = [] ∨ e = [nl]) ∧ no_newline rest
             ∧ c' = replicate k tab ++ lit pre ++ rest ++ lit post).
Proof.
  intros c w. split; [reflexivity|]. split; [reflexivity|].
  eexists _, _. split; [vm_compute; reflexivity|].
  apply (task_rewrite_shape c w); [reflexivity..|].
  vm_compute. reflexivity.
Defined.

Lemma after_tabs_replicate k (a : str) :
  match a with x :: _ => x ≠ tab | [] => True end →
  after_tabs (replicate k tab ++ a) = a.
Proof.
  intros Ha. induction k as [|k IH]; cbn [replicate app after_tabs].
  - destruct a as [|x a]; [done|]. cbn. by destruct (N.eqb_spec x tab).
  - by rewrite N.eqb_refl.
Qed.

(** X8.  The marker must lead.  When the first task marker of the chain
    that occurs in a content (one without asset link and drawio tag) is not
    what the content begins with after its tabs, the content is left as it
    is, whatever it begins with: a DONE item that mentions a TODO marker is
    not struck through. *)
Theorem marker_must_lead (c : str) (w : world) (kw pre post : string) :
  (kw, pre, post) ∈ task_markers →
  none_before (lit kw) c = true →
  contains c (lit kw) = true →
  startswith (lit kw) (after_tabs c) = false →
  directive_rewrite c w = (Ok c, w).
Proof.
  intros Hin Hnb Hc Hlead.
  destruct task_tokens as (T1 & T2 & T3 & T4 & T5).
  unfold task_markers in Hin.
  repeat (apply elem_of_cons in Hin as [[= -> -> ->]|Hin]);
    [..|by apply elem_of_nil in Hin].
  all: chain_facts Hnb; unfold directive_rewrite, task_rewrite;
    repeat match goal with
      | E : contains ?c ?t = _ |- context [contains ?c ?t] => rewrite E
      end.
  all: match goal with
       | |- context [re_search ?re ?c0] =>
           destruct (re_search re c0) as [gs|] eqn:Hre; [exfalso|done]
       end.
  all: match type of Hre with
       | re_search re_todo _ = _ => pose proof (re_task_inv _ _ _ _ T1 Hre) as Hi
       | re_search re_doing _ = _ => pose proof (re_task_inv _ _ _ _ T2 Hre) as Hi
       | re_search re_done _ = _ => pose proof (re_task_inv _ _ _ _ T3 Hre) as Hi
       | re_search re_later _ = _ => pose proof (re_task_inv _ _ _ _ T4 Hre) as Hi
       | re_search re_now _ = _ => pose proof (re_task_inv _ _ _ _ T5 Hre) as Hi
       end.
  all: destruct Hi as (k & rest & e & -> & _).
  all: rewrite after_tabs_replicate, startswith_app in Hlead; done.
Qed.

Lemma marker_must_lead_witness :
  directive_rewrite (lit "- DONE file the - TODO list") (fresh always_ok)
  = (Ok (lit "- DONE file the - TODO list"), fresh always_ok).
Proof.
  apply (marker_must_lead _ _ "- TODO " "- **&#x2610; TODO** " "");
    [apply list_elem_of_here|reflexivity..].
Defined.

(** * What the export does to the file system *)

Lemma imports_refl w : imports w [] false w.
Proof.
  unfold imports. rewrite !app_nil_r. repeat split; constructor.
Qed.

Lemma imports_trans w a w1 b failed w2 :
  imports w a false w1 → imports w1 b failed w2 →
  imports w (a ++ b) failed w2.
Proof.
  intros (Hok1 & Hwr1 & Hc1 & Hsd1 & Ha & Hcp1) (Hok2 & Hwr2 & Hc2 & Hsd2 & Hb).
  rewrite Hok1 in Hb.
  unfold imports. rewrite Hok2, Hwr2, Hc2, Hc1, <- app_assoc.
  repeat (split; [done|]). split; [by apply Forall_app|].
  destruct failed.
  - destruct Hb as (before & f & sd & -> & Hf & Hbefore & Hcp2).
    exists (a ++ before), f, sd. rewrite <- app_assoc. split; [done|].
    split; [done|]. split; [by apply Forall_app|].
    by rewrite Hcp2, Hcp1, fmap_app, <- app_assoc.
  - destruct Hb as (Hb & Hcp2). split; [by apply Forall_app|].
    by rewrite Hcp2, Hcp1, fmap_app, <- app_assoc.
Qed.

Lemma import_asset_world f sd w r w' :
  sd = [] ∨ sd = drawio_subdir →
  import_asset f sd w = (r, w') →
  imports w [(f, sd)] (raised r) w' ∧ (∀ e, r = Raise e → e = OSError).
Proof.
  intros Hsd. unfold import_asset, imports.
  destruct (copy_ok w sd f) eqn:Hok; intros [= <- <-];
    cbn [copy_ok import_calls copied written raised].
  - split; [|done]. repeat (split; [done|]).
    split; [by apply Forall_singleton|]. split; [by apply Forall_singleton|done].
  - split; [|by intros e [= <-]]. repeat (split; [done|]).
    split; [by apply Forall_singleton|].
    exists [], f, sd. by rewrite app_nil_r.
Qed.

Lemma directive_rewrite_world c w r w' :
  directive_rewrite c w = (r, w') →
  ∃ calls, (length calls ≤ 1)%nat ∧ imports w calls (raised r) w'
           ∧ (∀ e, r = Raise e → e = OSError).
Proof.
  assert (∀ (x : str), (mret x : M str) w = (r, w') →
    ∃ calls, (length calls ≤ 1)%nat ∧ imports w calls (raised r) w'
             ∧ (∀ e, r = Raise e → e = OSError)) as Hret.
  { intros x [= <- <-]. exists []. split; [cbn; lia|].
    split; [apply imports_refl|done]. }
  assert (∀ f sd (x : str), sd = [] ∨ sd = drawio_subdir →
    (import_asset f sd ≫= λ _, mret x) w = (r, w') →
    ∃ calls, (length calls ≤ 1)%nat ∧ imports w calls (raised r) w'
             ∧ (∀ e, r = Raise e → e = OSError)) as Himp.
  { intros f sd x Hsd. unfold mbind, M_bind.
    destruct (import_asset f sd w) as [[[]|e] w1] eqn:Hi;
      apply (import_asset_world _ _ _ _ _ Hsd) in Hi as [Hi He];
      intros [= <- <-]; exists [(f, sd)]; (split; [cbn; lia|]);
      (split; [exact Hi|]); [done|]. intros e0 [= <-]. by apply He. }
  unfold directive_rewrite.
  repeat match goal with
    | |- context [if contains ?a ?b then _ else _] => destruct (contains a b)
    | |- context [match re_search ?a ?b with _ => _ end] =>
        destruct (re_search a b)
    end.
  all: try apply Hret.
  - apply Himp. by left.
  - apply Himp. by right.
Qed.

Lemma body_world no_br i s w r w' :
  (i < length (lines s))%nat →
  body no_br i s w = (r, w') →
  ∃ calls, (length calls ≤ 1)%nat ∧ imports w calls (raised r) w'
           ∧ (∀ e, r = Raise e → e = OSError).
Proof.
  intros Hi. unfold body.
  destruct (0 <? lines_to_skip s).
  { intros [= <- <-]. exists []. split; [cbn; lia|].
    split; [apply imports_refl|done]. }
  destruct (lookup_lt_is_Some_2 _ _ Hi) as [li Hli].
  unfold mbind at 1, M_bind at 1, lift at 1.
  rewrite (py_index_nat _ _ _ Hli).
  assert (∃ r1 w1 calls,
            rewrite_line i li s w = (r1, w1)
            ∧ (length calls ≤ 1)%nat ∧ imports w calls (raised r1) w1
            ∧ (∀ e, r1 = Raise e → e = OSError)
            ∧ (∀ s1, r1 = Ok s1 → length (lines s1) = length (lines s)))
    as (r1 & w1 & calls & Hrw & Hlen & Himp & He & Hl).
  { unfold rewrite_line. destruct (is_type _ _).
    - exists (Ok (set_traversing_code_block (negb (traversing_code_block s)) s)),
        w, []. split; [done|]. split; [cbn; lia|].
      split; [apply imports_refl|]. split; [done|]. by intros s1 [= <-].
    - destruct (directive_rewrite (content li) w) as [rc w1] eqn:Hc.
      destruct (directive_rewrite_world _ _ _ _ Hc) as (calls & Hlen & Himp & He).
      unfold mbind, M_bind. rewrite Hc. destruct rc as [c|e].
      + eexists _, _, calls. split; [reflexivity|]. split; [done|].
        split; [done|]. split; [done|].
        intros s1 [= <-]. cbn. by rewrite length_insert.
      + eexists _, _, calls. split; [reflexivity|]. split; [done|].
        split; [done|]. split; [|done].
        intros e0 [= <-]. by apply He. }
  unfold mbind at 1, M_bind at 1. rewrite Hrw.
  destruct r1 as [s1|e].
  2: { intros [= <- <-]. exists calls. split; [done|]. split; [done|].
       intros e0 [= <-]. by apply He. }
  specialize (Hl s1 eq_refl).
  destruct (lookup_lt_is_Some_2 (lines s1) i ltac:(lia)) as [li1 Hli1].
  unfold mbind at 1, M_bind at 1, lift at 1.
  rewrite (py_index_nat _ _ _ Hli1).
  destruct (target_indentation_spec i li1 s1 ltac:(lia)) as (t & d & Hti & _).
  unfold mbind at 1, M_bind at 1, lift at 1. rewrite Hti.
  match goal with
  | |- context [represent no_br i li1 ?s2] =>
      destruct (represent_spec no_br i li1 s2) as (rr & s3 & Hrep & _)
  end.
  unfold mbind at 1, M_bind at 1, lift at 1. rewrite Hrep.
  destruct rr; intros [= <- <-]; exists calls; done.
Qed.

Lemma run_world no_br ls n w r w' :
  (n ≤ length ls)%nat →
  run_lines no_br ls n w = (r, w') →
  ∃ calls, (length calls ≤ n)%nat ∧ imports w calls (raised r) w'
           ∧ (∀ e, r = Raise e → e = OSError).
Proof.
  revert r w'. induction n as [|n IH]; intros r w' Hn.
  - intros [= <- <-]. exists []. split; [done|].
    split; [apply imports_refl|done].
  - rewrite run_lines_S.
    destruct (run_lines no_br ls n w) as [[s|e] w1] eqn:Hrun.
    + destruct (IH _ _ ltac:(lia) eq_refl) as (a & Hla & Ha & _).
      intros Hbody. apply body_world in Hbody as (b & Hlb & Hb & He).
      * exists (a ++ b). rewrite length_app. split; [lia|].
        split; [by eapply imports_trans|done].
      * rewrite (invariant_length ls s); [lia|].
        eapply invariant_run; [|done]. lia.
    + destruct (IH _ _ ltac:(lia) eq_refl) as (a & Hla & Ha & He).
      intros [= <- <-]. exists a. split; [lia|]. done.
Qed.

Lemma classify_lines_raises lines_raw : ∀ acc e,
  classify_lines lines_raw acc = Raise e → e = IndexError ∨ e = SystemExit 1.
Proof.
  induction lines_raw as [|l rest IH]; intros acc e; cbn [classify_lines]; [done|].
  destruct (re_search re_line l) as [gs|]; [|apply IH].
  destruct (get_line_type l (group gs 1)) as [[t h]|e0] eqn:Hty;
    cbn [mbind result_bind]; [apply IH|].
  intros [= <-]. by eapply get_line_type_raises.
Qed.



(** X10.  An export that returns has classified every line of the page and
    run the second loop to its end; it made at most one call to
    [import_asset] per line, every copy succeeded, the files in the output's
    [assets] directory are the files asked for, in order, and the document
    written is the output of the second loop. *)
Theorem export_success (text : str) (no_br : bool) (w w' : world) :
  export_file_to_folder text no_br w = (Ok tt, w') →
  ∃ ls s w1 calls,
    classify_lines (readlines text) [] = Ok ls
    ∧ run_lines no_br ls (length ls) w = (Ok s, w1)
    ∧ (length calls ≤ length ls)%nat
    ∧ imports w calls false w1
    ∧ w' = {| copy_ok := copy_ok w1; import_calls := import_calls w1;
              copied := copied w1; written := Some (output_content s) |}.
Proof.
  unfold export_file_to_folder, mbind, M_bind, lift.
  destruct (classify_lines (readlines text) []) as [ls|e0] eqn:Hc; [|done].
  destruct (run_lines no_br ls (length ls) w) as [[s|e1] w1] eqn:Hrun; [|done].
  unfold write_output. intros [= <-].
  destruct (run_world _ _ _ _ _ _ (le_n _) Hrun) as (calls & Hlen & Himp & _).
  by exists ls, s, w1, calls.
Qed.

Lemma export_success_witness :
  let text := page [lit "- a ![x](../assets/a.png)";
                    lit "- {{renderer :drawio, d.svg}}"] in
  let w := fresh always_ok in
  ∃ w',
    export_file_to_folder text false w = (Ok tt, w')
    ∧ ∃ ls s w1 calls,
        classify_lines (readlines text) [] = Ok ls
        ∧ run_lines false ls (length ls) w = (Ok s, w1)
        ∧ (length calls ≤ length ls)%nat
        ∧ imports w calls false w1
        ∧ w' = {| copy_ok := copy_ok w1; import_calls := import_calls w1;
                  copied := copied w1; written := Some (output_content s) |}.
Proof.
  intros text w. eexists. split; [vm_compute; reflexivity|].
  apply (export_success text false w). vm_compute. reflexivity.
Defined.

(** * The option [no_br] *)

Lemma represent_no_br i li s :
  type li ≠ EMPTY →
  represent true i li s = represent false i li s.
Proof.
  intros Ht. unfold represent, by_type.
  destruct (traversing_code_block s); [done|]. by destruct (type li).
Qed.

Lemma body_no_br i s w :
  (∀ li, lines s !! i = Some li → type li ≠ EMPTY) →
  body true i s w = body false i s w.
Proof.
  intros Hne. unfold body.
  destruct (0 <? lines_to_skip s); [done|].
  unfold mbind at 1 6, M_bind at 1 6, lift at 1 5.
  destruct (py_index (lines s) (Z.of_nat i)) as [li|e] eqn:Hidx; [|done].
  assert (lines s !! i = Some li) as Hli.
  { unfold py_index in Hidx. destruct (_ || _) eqn:Hb; [done|].
    apply orb_false_iff in Hb as [Hb1 Hb2].
    destruct (Z.ltb_spec (Z.of_nat i) 0); [lia|].
    rewrite Nat2Z.id in Hidx. by destruct (lines s !! i) as [x|]; [injection Hidx as ->|]. }
  unfold mbind at 1 5, M_bind at 1 5.
  destruct (rewrite_line i li s w) as [[s1|e] w1] eqn:Hrw; [|done].
  assert (lines s1 !! i = Some li ∨ ∃ c, lines s1 !! i = Some (set_content c li))
    as Hl1.
  { apply rewrite_line_inv in Hrw as [(_ & -> & _)|(_ & c & _ & ->)]; cbn.
    - by left.
    - right. exists c. apply list_lookup_insert_eq. by eapply lookup_lt_Some. }
  assert (∃ li1, lines s1 !! i = Some li1 ∧ type li1 = type li) as (li1 & Hli1 & Hty).
  { destruct Hl1 as [?|[c ?]]; eauto. }
  unfold mbind at 1 4, M_bind at 1 4, lift at 1 4.
  rewrite (py_index_nat _ _ _ Hli1).
  unfold mbind at 1 3, M_bind at 1 3, lift at 1 3.
  destruct (target_indentation i li1 s1) as [s2|e]; [|done].
  unfold mbind, M_bind, lift.
  rewrite represent_no_br; [done|]. rewrite Hty. by apply Hne.
Qed.

Lemma run_lines_no_br ls n w :
  Forall (λ li, type li ≠ EMPTY) ls →
  (n ≤ length ls)%nat →
  run_lines true ls n w = run_lines false ls n w.
Proof.
  intros Hne. induction n as [|n IH]; intros Hn; [done|].
  rewrite !run_lines_S, <- IH by lia.
  destruct (run_lines true ls n w) as [[s|e] w1] eqn:Hrun; [|done].
  apply body_no_br. intros li Hli.
  assert (invariant ls s) as Hinv by (eapply invariant_run; [|done]; lia).
  destruct (lookup_lt_is_Some_2 ls n ltac:(lia)) as [l0 Hl0].
  destruct (invariant_lookup _ _ _ _ Hinv Hl0) as (li' & Hli' & Hsk).
  rewrite Hli in Hli'. injection Hli' as <-.
  assert (type li = type l0) as -> by (unfold skel in Hsk; congruence).
  by eapply (Forall_lookup_1 _ _ _ _ Hne Hl0).
Qed.

(** X11.  The option [no_br] matters to EMPTY lines only: on a page none of
    whose lines is classified EMPTY, the export with it and the export
    without it make the same calls and write the same document. *)
Theorem no_br_only_empty (text : str) (w : world) (ls : list line_info) :
  classify_lines (readlines text) [] = Ok ls →
  Forall (λ li, type li ≠ EMPTY) ls →
  export_file_to_folder text true w = export_file_to_folder text false w.
Proof.
  intros Hc Hne. unfold export_file_to_folder, mbind, M_bind, lift.
  rewrite Hc. by rewrite (run_lines_no_br ls (length ls) w Hne).
Qed.

Lemma no_br_only_empty_witness :
  let text := page [lit "# T"; lit "- a"; [tab] ++ lit "- b"; lit "  c"] in
  let w := fresh always_ok in
  export_file_to_folder text true w = export_file_to_folder text false w.
Proof.
  intros text w. eapply (no_br_only_empty text w); [vm_compute; reflexivity|].
  repeat first [apply Forall_nil_2 | apply Forall_cons_2; [done|]].
Defined.

(** * One level at a time *)

Lemma target_indentation_bound i li s :
  (i < length (lines s))%nat →
  0 ≤ last_target_line_indent s →
  ∃ s2, target_indentation i li s = Ok s2
        ∧ 0 ≤ target_line_indent s2 ≤ last_target_line_indent s + 1.
Proof.
  intros Hlt Hlast.
  destruct (py_index_prev (lines s) i Hlt) as (p & Hp & _).
  unfold target_indentation, is_type.
  repeat first
    [ progress cbn [mbind result_bind negb lines set_target_line_indent
                    set_cur_list_depth]
    | rewrite Hp
    | case_bool_decide
    | match goal with
      | |- context [if ?a <? ?b then _ else _] => destruct (Z.ltb_spec a b)
      end ].
  all: try congruence.
  all: eexists; (split; [reflexivity|]); cbn; lia.
Qed.

(** X12.  A processed line is never put more than one level deeper than the
    last line that started a node: its target indentation lies between 0 and
    that line's target plus one; and the baseline for the next lines is
    either this target, or the old one. *)
Theorem indent_one_level_at_a_time
    (text : str) (no_br : bool) (w : world) (ls : list line_info) (n : nat)
    (s : locals) (w1 : world) (s' : locals) (w2 : world) :
  classify_lines (readlines text) [] = Ok ls →
  (n < length ls)%nat →
  run_lines no_br ls n w = (Ok s, w1) →
  lines_to_skip s = 0 →
  body no_br n s w1 = (Ok s', w2) →
  0 ≤ target_line_indent s' ≤ last_target_line_indent s + 1
  ∧ (last_target_line_indent s' = target_line_indent s'
     ∨ last_target_line_indent s' = last_target_line_indent s).
Proof.
  intros _ Hn Hrun Hskip Hbody.
  assert (invariant ls s) as Hinv by (eapply invariant_run; [|done]; lia).
  destruct (lookup_lt_is_Some_2 ls n Hn) as [l0 Hl0].
  destruct (invariant_lookup _ _ _ _ Hinv Hl0) as (li & Hli & Hsk).
  destruct (body_inv _ _ _ _ _ _ _ Hli Hbody)
    as [(? & _)|(_ & s1 & li1 & s2 & r & s3 & Hrw & Hli1 & Hti & Hrep & ->)];
    [lia|].
  assert (last_target_line_indent s1 = last_target_line_indent s) as Hl1.
  { by apply rewrite_line_inv in Hrw as [(_ & -> & _)|(_ & c & _ & ->)]. }
  destruct (target_indentation_bound n li1 s1) as (s2' & Hti' & Hb).
  { by eapply lookup_lt_Some. }
  { rewrite Hl1. by destruct Hinv. }
  rewrite Hti' in Hti. injection Hti as ->.
  assert (last_target_line_indent s2 = last_target_line_indent s1) as Hl2.
  { destruct (target_indentation_spec n li1 s1) as (t & d & Hti'' & _);
      [by eapply lookup_lt_Some|].
    rewrite Hti'' in Hti'. by injection Hti' as <-. }
  destruct (represent_spec no_br n li1 s2) as (r' & s3' & Hrep' & Hf & _).
  rewrite Hrep' in Hrep. injection Hrep as <- <-.
  destruct Hf as (_ & Ht3 & Hl3 & _).
  rewrite Hl1 in Hb.
  destruct r' as [c|].
  - unfold emit. case_bool_decide; cbn; rewrite Ht3, ?Hl3, ?Hl2, ?Hl1; auto.
  - rewrite Ht3, Hl3, Hl2, Hl1. auto.
Qed.

Lemma indent_one_level_witness :
  let text := page [lit "- A"; [tab] ++ lit "- B"; [tab; tab] ++ lit "- C"] in
  ∃ ls s w1 s' w2,
    classify_lines (readlines text) [] = Ok ls
    ∧ run_lines false ls 2 (fresh always_ok) = (Ok s, w1)
    ∧ body false 2 s w1 = (Ok s', w2)
    ∧ 0 ≤ target_line_indent s' ≤ last_target_line_indent s + 1
    ∧ (last_target_line_indent s' = target_line_indent s'
       ∨ last_target_line_indent s' = last_target_line_indent s).
Proof.
  intros text.
  epose proof (indent_one_level_at_a_time text false (fresh always_ok)
                 _ 2 _ _ _ _) as H.
  eexists _, _, _, _, _.
  split; [vm_compute; reflexivity|].
  split; [vm_compute; reflexivity|].
  split; [vm_compute; reflexivity|].
  apply H; [vm_compute; reflexivity | cbn; lia | vm_compute; reflexivity..].
Defined.

(** * What the second loop assigns *)

Lemma body_lines no_br i s w s' w' li :
  lines s !! i = Some li →
  body no_br i s w = (Ok s', w') →
  lines s' = lines s
  ∨ ∃ li1, lines s' = <[i := li1]> (lines s)
           ∧ lines_to_skip s ≤ 0
           ∧ type li ≠ CODE_BLOCK_MARKER
           ∧ directive_rewrite (content li) w = (Ok (content li1), w')
           ∧ skel li1 = skel li.
Proof.
  intros Hli Hbody.
  destruct (body_inv _ _ _ _ _ _ _ Hli Hbody) as [(_ & -> & _)|[Hzero _]];
    [by left|].
  destruct (body_processed _ _ _ _ _ _ _ Hli Hzero Hbody)
    as (li1 & r & Hlines & Hi & Ht & Hh & Hrw & _).
  unfold is_type in Hrw. case_bool_decide as Hm.
  - destruct Hrw as (-> & _). left. rewrite Hlines. by apply list_insert_id.
  - destruct Hrw as [Hrw _]. right. exists li1. repeat (split; [done|]).
    unfold skel. congruence.
Qed.

Lemma run_lines_plain no_br ls n w s w' :
  (n ≤ length ls)%nat →
  run_lines no_br ls n w = (Ok s, w') →
  ∀ j l0, ls !! j = Some l0 →
    type l0 = CODE_BLOCK_MARKER ∨ no_trigger (content l0) = true →
    lines s !! j = Some l0.
Proof.
  revert s w'. induction n as [|n IH]; intros s w' Hn.
  - unfold run_lines. cbn [seq loop]. by intros [-> ->]%ret_M_inv.
  - rewrite run_lines_S.
    destruct (run_lines no_br ls n w) as [[s0|e] w0] eqn:Hrun; [|done].
    intros Hbody j l0 Hl0 Hplain.
    specialize (IH s0 w0 ltac:(lia) eq_refl j l0 Hl0 Hplain).
    destruct (lookup_lt_is_Some_2 (lines s0) n) as [li Hli].
    { rewrite (invariant_length ls s0); [lia|].
      eapply invariant_run; [|done]. lia. }
    destruct (body_lines _ _ _ _ _ _ _ Hli Hbody)
      as [->|(li1 & -> & _ & Hm & Hrw & Hsk)]; [done|].
    destruct (decide (j = n)) as [->|Hj].
    2: { by rewrite list_lookup_insert_ne. }
    rewrite list_lookup_insert_eq by (by eapply lookup_lt_Some).
    rewrite Hli in IH. injection IH as ->.
    destruct Hplain as [?|Hno]; [done|].
    rewrite (directive_rewrite_no_trigger _ _ Hno) in Hrw.
    injection Hrw as Hc _. f_equal. unfold skel in Hsk.
    destruct l0, li1; cbn in *; congruence.
Qed.

(** X13.  The second loop assigns nothing in the dictionaries but
    [content]: at any point the list has the length the first loop gave it
    and every dictionary its indentation, type and hierarchy; the lines not
    reached yet are untouched; and so is, for good, every fence marker and
    every line whose content holds none of the triggers of the rewrite
    chain. *)
Theorem second_loop_assigns_content
    (text : str) (no_br : bool) (w : world) (ls : list line_info) (n : nat)
    (s : locals) (w1 : world) :
  classify_lines (readlines text) [] = Ok ls →
  (n ≤ length ls)%nat →
  run_lines no_br ls n w = (Ok s, w1) →
  length (lines s) = length ls
  ∧ (∀ j l0, ls !! j = Some l0 →
       ∃ li, lines s !! j = Some li
             ∧ indent li = indent l0 ∧ type li = type l0
             ∧ hierarchy li = hierarchy l0)
  ∧ (∀ j, (n ≤ j)%nat → lines s !! j = ls !! j)
  ∧ (∀ j l0, ls !! j = Some l0 →
       type l0 = CODE_BLOCK_MARKER ∨ no_trigger (content l0) = true →
       lines s !! j = Some l0).
Proof.
  intros _ Hn Hrun.
  assert (invariant ls s) as Hinv by (eapply invariant_run; [|done]; lia).
  split; [by apply invariant_length|]. split; [|split].
  - intros j l0 Hl0.
    destruct (invariant_lookup _ _ _ _ Hinv Hl0) as (li & Hli & Hsk).
    exists li. unfold skel in Hsk. split; [done|].
    repeat split; congruence.
  - by eapply run_lines_untouched.
  - by eapply run_lines_plain.
Qed.

Lemma second_loop_assigns_content_witness :
  let text := page [lit "- TODO a"; lit "- ```"; lit "  - TODO b"; lit "  ```"] in
  ∃ ls s w1,
    classify_lines (readlines text) [] = Ok ls
    ∧ run_lines false ls 3 (fresh always_ok) = (Ok s, w1)
    ∧ length (lines s) = length ls
    ∧ (∀ j l0, ls !! j = Some l0 →
         ∃ li, lines s !! j = Some li
               ∧ indent li = indent l0 ∧ type li = type l0
               ∧ hierarchy li = hierarchy l0)
    ∧ (∀ j, (3 ≤ j)%nat → lines s !! j = ls !! j)
    ∧ (∀ j l0, ls !! j = Some l0 →
         type l0 = CODE_BLOCK_MARKER ∨ no_trigger (content l0) = true →
         lines s !! j = Some l0).
Proof.
  intros text.
  epose proof (second_loop_assigns_content text false (fresh always_ok)
                 _ 3 _ _) as H.
  eexists _, _, _.
  split; [vm_compute; reflexivity|].
  split; [vm_compute; reflexivity|].
  apply H; [vm_compute; reflexivity | cbn; lia | vm_compute; reflexivity].
Defined.

(** * Newlines in the output *)

Lemma newlines_app a b : newlines (a ++ b) = (newlines a + newlines b)%nat.
Proof. unfold newlines. by rewrite List.filter_app, length_app. Qed.

Lemma newlines_none s : no_newline s → newlines s = 0%nat.
Proof.
  unfold newlines. induction 1 as [|c s Hc _ IH]; [done|].
  cbn [List.filter]. destruct (N.eqb_spec nl c); [congruence|done].
Qed.

Lemma no_newline_app a b : no_newline a → no_newline b → no_newline (a ++ b).
Proof. intros. by apply Forall_app. Qed.

Lemma no_newline_slice s k : no_newline s → no_newline (slice_from s k).
Proof. apply Forall_drop. Qed.

Lemma no_newline_tabs k : no_newline (replicate k tab).
Proof. by apply Forall_replicate. Qed.

Lemma directive_rewrite_no_newline c w c' w' :
  no_newline c →
  directive_rewrite c w = (Ok c', w') → no_newline c'.
Proof.
  intros Hc. destruct task_tokens as (T1 & T2 & T3 & T4 & T5).
  assert (∀ a b : str, no_newline a → no_newline b → ∀ re kw,
            re = [GOpen; Bol; Star (Chr tab); GClose] ++ lits kw
                   ++ [GOpen; Star Dot; GClose; Eol] →
            ∀ g, re_search re c = Some g →
              no_newline (group g 0 ++ a ++ b ++ group g 1)) as Htask.
  { intros a b Ha Hb re kw Hre g Hg.
    destruct (re_task_inv _ _ _ _ Hre Hg) as (k & rest & e & _ & -> & Hr & _).
    cbn [group nth]. auto using no_newline_app, no_newline_tabs. }
  unfold directive_rewrite, task_rewrite.
  repeat match goal with
    | |- context [if contains ?a ?b then _ else _] => destruct (contains a b)
    end.
  all: match goal with
       | |- context [re_search ?re ?c0] =>
           destruct (re_search re c0) as [gs|] eqn:Hre;
             [|by intros [-> ->]%ret_M_inv]
       | |- _ => by intros [-> ->]%ret_M_inv
       end.
  - apply re_asset_inv in Hre
      as (x1 & x2 & d1 & d2 & f & tail & _ & -> & Hx1 & Hx2 & _ & _ & Hf).
    cbn [group nth]. unfold mbind, M_bind, import_asset.
    destruct (copy_ok w [] f); [|done]. intros [-> ->]%ret_M_inv.
    repeat apply no_newline_app; try done; by repeat constructor.
  - apply re_drawio_inv in Hre as (x1 & x2 & d & tail & _ & -> & Hx1 & Hx2 & Hd).
    cbn [group nth]. unfold mbind, M_bind, import_asset.
    destruct (copy_ok w _ _); [|done]. intros [-> ->]%ret_M_inv.
    assert (no_newline (x2 ++ [d] ++ lit "svg")) as Hf.
    { repeat apply no_newline_app; try done; by repeat constructor. }
    repeat apply no_newline_app; try done; by repeat constructor.
  - intros [-> ->]%ret_M_inv.
    eapply Htask; [| |exact T1|exact Hre]; by repeat constructor.
  - intros [-> ->]%ret_M_inv.
    eapply Htask; [| |exact T2|exact Hre]; by repeat constructor.
  - intros [-> ->]%ret_M_inv.
    destruct (re_task_inv _ _ _ _ T3 Hre) as (k & rest & e & _ & -> & Hr & _).
    cbn [group nth].
    repeat apply no_newline_app; try done;
      first [apply no_newline_tabs | by repeat constructor].
  - intros [-> ->]%ret_M_inv.
    eapply Htask; [| |exact T4|exact Hre]; by repeat constructor.
  - intros [-> ->]%ret_M_inv.
    eapply Htask; [| |exact T5|exact Hre]; by repeat constructor.
Qed.

Lemma newlines_nl : newlines [nl] = 1%nat.
Proof. reflexivity. Qed.

Lemma newlines_backslash : newlines (lit "\") = 0%nat.
Proof. reflexivity. Qed.

Lemma newlines_br : newlines (lit "<br>") = 0%nat.
Proof. reflexivity. Qed.

Lemma newlines_tabs k : newlines (replicate k tab) = 0%nat.
Proof. apply newlines_none, no_newline_tabs. Qed.

Lemma Ok_Some_inv {A B} (x c : A) (s s' : B) :
  Ok (Some x, s) = Ok (Some c, s') → c = x ∧ s' = s.
Proof. by intros [= -> ->]. Qed.

(** The text that the representation stage gives holds at most one
    newline, and none inside a code block or for a title, a quote or a
    fence marker. *)
Lemma represent_newlines no_br i li s c s' :
  no_newline (content li) →
  represent no_br i li s = Ok (Some c, s') →
  (newlines c ≤ 1)%nat
  ∧ (newlines c = 1%nat →
     traversing_code_block s = false
     ∧ (type li = LIST ∨ type li = TEXT ∨ type li = EMPTY)).
Proof.
  intros Hc.
  pose proof (newlines_none _ Hc) as H0.
  pose proof (newlines_none _ (no_newline_slice _ 2 Hc)) as H2.
  pose proof (newlines_none _
    (no_newline_slice _ (find (content li) (lit "#")) Hc)) as H3.
  unfold represent, by_type, continuation, is_type.
  destruct (traversing_code_block s).
  { intros [-> ->]%Ok_Some_inv. rewrite H2. split; [lia|done]. }
  destruct (type li) eqn:Ht; cbn [mbind result_bind].
  all: repeat first
    [ match goal with
      | |- context [next_line_is ?i ?s ?P] =>
          destruct (next_line_is_total i s P) as ([] & -> & _)
      | |- context [if contains ?a ?b then _ else _] => destruct (contains a b)
      | |- context [if ?a <? ?b then _ else _] => destruct (a <? b)
      | |- context [bool_decide ?P] => destruct (bool_decide P)
      | |- context [if negb ?b then _ else _] => is_var b; destruct b
      end
    | progress cbn [mbind result_bind negb] ].
  all: try done.
  all: intros [-> ->]%Ok_Some_inv.
  all: rewrite ?newlines_app, ?newlines_nl, ?newlines_backslash, ?newlines_br,
         ?H0, ?H2, ?H3.
  all: split; [lia|]; try (intros; lia); auto.
Qed.

(** What one iteration appends: nothing, or one chunk that ends with a
    newline and holds one or two of them. *)
Lemma body_chunk no_br i s w s' w' li :
  lines s !! i = Some li →
  no_newline (content li) →
  body no_br i s w = (Ok s', w') →
  ∃ chunk,
    output_content s' = output_content s ++ chunk
    ∧ (chunk = []
       ∨ (∃ t, chunk = t ++ [nl])
         ∧ (newlines chunk = 1%nat
            ∨ newlines chunk = 2%nat
              ∧ traversing_code_block s' = false
              ∧ (type li = LIST ∨ type li = TEXT ∨ type li = EMPTY))).
Proof.
  intros Hli Hc Hbody.
  destruct (body_inv _ _ _ _ _ _ _ Hli Hbody)
    as [(_ & -> & _)|(_ & s1 & li1 & s2 & r & s3 & Hrw & Hli1 & Hti & Hrep & ->)].
  { exists []. rewrite app_nil_r. split; [done|by left]. }
  assert (output_content s1 = output_content s
          ∧ type li1 = type li ∧ no_newline (content li1)) as (Ho1 & Hty & Hc1).
  { apply rewrite_line_inv in Hrw as [(_ & -> & _)|(_ & c & Hrw & ->)];
      cbn in Hli1 |- *.
    - rewrite Hli in Hli1. by injection Hli1 as <-.
    - rewrite list_lookup_insert_eq in Hli1 by (by eapply lookup_lt_Some).
      injection Hli1 as <-. cbn. split; [done|]. split; [done|].
      by eapply directive_rewrite_no_newline. }
  destruct (target_indentation_spec i li1 s1) as (t & d & Hti' & _).
  { by eapply lookup_lt_Some. }
  rewrite Hti' in Hti. injection Hti as <-.
  match type of Hrep with
  | represent _ _ _ ?s2 = _ =>
      destruct (represent_spec no_br i li1 s2) as (r' & s3' & Hrep' & Hf & _)
  end.
  pose proof Hrep as Hrep0.
  rewrite Hrep' in Hrep. injection Hrep as <- <-.
  destruct Hf as (_ & Ht3 & _ & Htr3 & Ho3). cbn in Ht3, Htr3, Ho3.
  destruct r' as [c|].
  2: { exists []. rewrite app_nil_r. split; [congruence|by left]. }
  destruct (represent_newlines _ _ _ _ _ _ Hc1 Hrep0) as (Hle & Hone).
  cbn in Hone.
  exists (replicate (Z.to_nat t) tab ++ c ++ [nl]). split.
  { unfold emit. case_bool_decide; cbn; by rewrite Ho3, Ht3, Ho1. }
  right. split; [exists (replicate (Z.to_nat t) tab ++ c); by rewrite <- app_assoc|].
  rewrite !newlines_app, newlines_tabs, newlines_nl.
  assert (traversing_code_block (emit li1 c s3') = traversing_code_block s3')
    as -> by (unfold emit; by case_bool_decide).
  rewrite Htr3, <- Hty.
  destruct (newlines c) as [|[|k]] eqn:Hk; [by left| |lia].
  right. split; [done|]. by apply Hone.
Qed.

Lemma run_lines_no_newline no_br ls n w s w' :
  Forall (λ l, no_newline (content l)) ls →
  (n ≤ length ls)%nat →
  run_lines no_br ls n w = (Ok s, w') →
  Forall (λ l, no_newline (content l)) (lines s).
Proof.
  intros Hls. revert s w'. induction n as [|n IH]; intros s w' Hn.
  - unfold run_lines. cbn [seq loop]. by intros [-> ->]%ret_M_inv.
  - rewrite run_lines_S.
    destruct (run_lines no_br ls n w) as [[s0|e] w0] eqn:Hrun; [|done].
    intros Hbody. specialize (IH s0 w0 ltac:(lia) eq_refl).
    destruct (lookup_lt_is_Some_2 (lines s0) n) as [li Hli].
    { rewrite (invariant_length ls s0); [lia|].
      eapply invariant_run; [|done]. lia. }
    destruct (body_lines _ _ _ _ _ _ _ Hli Hbody)
      as [->|(li1 & -> & _ & Hm & Hrw & Hsk)]; [done|].
    apply Forall_insert; [done|].
    eapply directive_rewrite_no_newline; [|exact Hrw].
    by eapply (Forall_lookup_1 _ _ _ _ IH Hli).
Qed.

Lemma classified_no_newline text ls :
  classify_lines (readlines text) [] = Ok ls →
  Forall (λ l, no_newline (content l)) ls.
Proof.
  intros [_ H]%classify_lines_readlines.
  eapply Forall_impl; [|exact H]. by intros l (_ & ? & _).
Qed.

(** X14.  What a line adds to the output is either nothing, or a piece
    that ends with a newline and holds one newline, or two; two only
    outside a code block and only for a LIST, TEXT or EMPTY line.  So no
    line of the page ever makes more than two lines of the document. *)
Theorem emitted_newlines
    (text : str) (no_br : bool) (w : world) (ls : list line_info) (n : nat)
    (li : line_info) (s : locals) (w1 : world) (s' : locals) (w2 : world) :
  classify_lines (readlines text) [] = Ok ls →
  ls !! n = Some li →
  run_lines no_br ls n w = (Ok s, w1) →
  body no_br n s w1 = (Ok s', w2) →
  ∃ chunk,
    output_content s' = output_content s ++ chunk
    ∧ (chunk = []
       ∨ (∃ t, chunk = t ++ [nl])
         ∧ (newlines chunk = 1%nat
            ∨ newlines chunk = 2%nat
              ∧ traversing_code_block s' = false
              ∧ (type li = LIST ∨ type li = TEXT ∨ type li = EMPTY))).
Proof.
  intros Hc Hl0 Hrun Hbody.
  pose proof (lookup_lt_Some _ _ _ Hl0) as Hn.
  assert (lines s !! n = Some li) as Hli.
  { by rewrite (run_lines_untouched no_br ls n w s w1 ltac:(lia) Hrun n). }
  eapply body_chunk; [exact Hli| |exact Hbody].
  by eapply (Forall_lookup_1 _ _ _ _ (classified_no_newline _ _ Hc) Hl0).
Qed.

Lemma emitted_newlines_witness :
  let text := page [lit "- a"; lit "  b"; lit "- c"] in
  ∃ ls li s w1 s' w2,
    classify_lines (readlines text) [] = Ok ls
    ∧ ls !! 1%nat = Some li
    ∧ run_lines false ls 1 (fresh always_ok) = (Ok s, w1)
    ∧ body false 1 s w1 = (Ok s', w2)
    ∧ ∃ chunk,
        output_content s' = output_content s ++ chunk
        ∧ (chunk = []
           ∨ (∃ t, chunk = t ++ [nl])
             ∧ (newlines chunk = 1%nat
                ∨ newlines chunk = 2%nat
                  ∧ traversing_code_block s' = false
                  ∧ (type li = LIST ∨ type li = TEXT ∨ type li = EMPTY))).
Proof.
  intros text.
  epose proof (emitted_newlines text false (fresh always_ok) _ 1 _ _ _ _ _)
    as H.
  eexists _, _, _, _, _, _.
  split; [vm_compute; reflexivity|].
  split; [vm_compute; reflexivity|].
  split; [vm_compute; reflexivity|].
  split; [vm_compute; reflexivity|].
  apply H; vm_compute; reflexivity.
Defined.

(** X15.  The output only grows: what the loop has written after [m] lines
    is the beginning of what it has written after any [n ≥ m] lines.  What
    comes in between is empty or ends with a newline, and holds at most two
    newlines for each of the [n - m] lines. *)
Theorem output_only_grows
    (text : str) (no_br : bool) (w : world) (ls : list line_info) (m n : nat)
    (sm sn : locals) (wm wn : world) :
  classify_lines (readlines text) [] = Ok ls →
  (m ≤ n ≤ length ls)%nat →
  run_lines no_br ls m w = (Ok sm, wm) →
  run_lines no_br ls n w = (Ok sn, wn) →
  ∃ t,
    output_content sn = output_content sm ++ t
    ∧ (newlines t ≤ 2 * (n - m))%nat
    ∧ (t = [] ∨ ∃ t', t = t' ++ [nl]).
Proof.
  intros Hc [Hmn Hn] Hm. revert sn wn.
  induction n as [|n IH]; intros sn wn Hrun.
  - assert (m = 0%nat) as -> by lia. rewrite Hm in Hrun. injection Hrun as <- <-.
    exists []. rewrite app_nil_r. split; [done|]. split; [cbn; lia|by left].
  - destruct (decide (m = S n)) as [->|Hne].
    { rewrite Hm in Hrun. injection Hrun as <- <-.
      exists []. rewrite app_nil_r. split; [done|]. split; [cbn; lia|by left]. }
    rewrite run_lines_S in Hrun.
    destruct (run_lines no_br ls n w) as [[s0|e] w0] eqn:Hrun0; [|done].
    destruct (IH ltac:(lia) ltac:(lia) s0 w0 eq_refl) as (t & Ht & Hnl & Hend).
    destruct (lookup_lt_is_Some_2 (lines s0) n) as [li Hli].
    { rewrite (invariant_length ls s0); [lia|].
      eapply invariant_run; [|done]. lia. }
    assert (no_newline (content li)) as Hli_nl.
    { assert (Forall (λ l, no_newline (content l)) (lines s0)) as Hall.
      { eapply (run_lines_no_newline no_br ls n w s0 w0);
          [by eapply classified_no_newline|lia|exact Hrun0]. }
      by eapply (Forall_lookup_1 _ _ _ _ Hall Hli). }
    destruct (body_chunk _ _ _ _ _ _ _ Hli Hli_nl Hrun)
      as (chunk & Hout & Hchunk).
    exists (t ++ chunk). rewrite Hout, Ht, <- app_assoc. split; [done|].
    rewrite newlines_app.
    destruct Hchunk as [->|[[t' ->] Hcount]].
    + rewrite app_nil_r. split; [cbn; lia|done].
    + split; [|right; exists (t ++ t'); by rewrite <- app_assoc].
      destruct Hcount as [->|[-> _]]; lia.
Qed.

Lemma output_only_grows_witness :
  let text := page [lit "- a"; lit "  b"; lit "- c"] in
  ∃ ls sm sn wm wn,
    classify_lines (readlines text) [] = Ok ls
    ∧ run_lines false ls 1 (fresh always_ok) = (Ok sm, wm)
    ∧ run_lines false ls 3 (fresh always_ok) = (Ok sn, wn)
    ∧ ∃ t,
        output_content sn = output_content sm ++ t
        ∧ (newlines t ≤ 2 * (3 - 1))%nat
        ∧ (t = [] ∨ ∃ t', t = t' ++ [nl]).
Proof.
  intros text.
  epose proof (output_only_grows text false (fresh always_ok) _ 1 3 _ _ _ _)
    as H.
  eexists _, _, _, _, _.
  split; [vm_compute; reflexivity|].
  split; [vm_compute; reflexivity|].
  split; [vm_compute; reflexivity|].
  apply H; [vm_compute; reflexivity | cbn; lia | vm_compute; reflexivity..].
Defined.

(** * Titles *)

Lemma classified_holds text ls n li :
  classify_lines (readlines text) [] = Ok ls →
  ls !! n = Some li → ∃ line, holds_line line li.
Proof.
  intros H Hli.
  apply classify_lines_holds in H as (new & -> & Hall); [|apply re_line_shape].
  cbn [app] in Hli.
  destruct (Forall2_lookup_r _ _ _ _ _ Hall Hli) as (line & _ & Hline).
  by exists line.
Qed.

Lemma title_has_hash line c h :
  get_line_type line c = Ok (TITLE, h) →
  h = PARENT
  ∧ (c !! 0%nat = Some (chr "#") ∨ c !! 2%nat = Some (chr "#")).
Proof.
  unfold get_line_type.
  destruct c as [|L1 c]; [done|].
  assert (py_index (L1 :: c) 0 = Ok L1) as ->
    by apply (py_index_nat (L1 :: c) 0 L1 eq_refl).
  cbn [mbind result_bind]. rewrite third_char.
  destruct (N.eqb_spec L1 (chr "#")) as [->|_].
  { intros [= <-]. split; [done|]. by left. }
  destruct c as [|c1 [|L2 c]]; cbn [lookup list_lookup].
  1,2: destruct (N.eqb L1 (chr "-")); [done|];
    by destruct (N.eqb L1 (chr " ")).
  destruct (N.eqb L2 (chr " ")); [done|].
  destruct (N.eqb L2 (chr ">")); [by destruct (N.eqb L1 (chr "-"))|].
  destruct (N.eqb_spec L2 (chr "#")) as [->|_].
  { destruct (N.eqb L1 (chr "-")); [|by destruct (N.eqb L1 (chr " "))].
    intros [= <-]. split; [done|]. by right. }
  destruct (N.eqb L2 (chr "`")).
  - destruct (re_search re_parent_code_block line); [done|].
    destruct (re_search re_child_code_block line); [done|].
    destruct (N.eqb L1 (chr "-")); [done|].
    by destruct (N.eqb L1 (chr " ")).
  - by destruct (N.eqb L1 (chr "-")).
Qed.

Lemma find_from_char (x : char) s : ∀ k,
  x ∈ s →
  ∃ j h, find_from [x] s k = k + Z.of_nat j ∧ drop j s = x :: h.
Proof.
  induction s as [|c s IH]; intros k Hx; [by apply elem_of_nil in Hx|].
  rewrite find_from_eq. cbn [startswith].
  destruct (N.eqb_spec x c) as [->|Hne]; cbn [andb].
  - exists 0%nat, s. split; [lia|done].
  - apply elem_of_cons in Hx as [?|Hx]; [done|].
    destruct (IH (k + 1) Hx) as (j & h & -> & Hdrop).
    exists (S j), h. split; [lia|done].
Qed.

(** A text that holds [x], cut at the first [x], begins with [x]. *)
Lemma slice_from_find (x : char) s :
  x ∈ s → ∃ h, slice_from s (find s [x]) = x :: h.
Proof.
  intros (j & h & Hf & Hd)%(find_from_char x s 0).
  exists h. unfold slice_from, find. rewrite Hf.
  destruct (Z.ltb_spec (0 + Z.of_nat j) 0); [lia|].
  by replace (Z.to_nat (0 + Z.of_nat j)) with j by lia.
Qed.

Lemma hash_in_prefix (p q r : str) (j : nat) :
  (p ++ q) !! j = Some (chr "#") → (j < length p)%nat → chr "#" ∈ p ++ r.
Proof.
  intros H Hj. rewrite lookup_app_l in H by done.
  apply elem_of_app. left. by eapply list_elem_of_lookup_2.
Qed.

(** The rewrite chain keeps a [#] among the first three characters in the
    content. *)
Lemma rewrite_keeps_hash c w c' w' :
  c !! 0%nat = Some (chr "#") ∨ c !! 2%nat = Some (chr "#") →
  directive_rewrite c w = (Ok c', w') →
  chr "#" ∈ c'.
Proof.
  intros Hc. destruct task_tokens as (T1 & T2 & T3 & T4 & T5).
  assert (chr "#" ∈ c) as Hin.
  { destruct Hc as [Hc|Hc]; by eapply list_elem_of_lookup_2. }
  assert (∀ re kw (a b : str) g,
            re = [GOpen; Bol; Star (Chr tab); GClose] ++ lits kw
                   ++ [GOpen; Star Dot; GClose; Eol] →
            re_search re c = Some g →
            chr "#" ∈ a →
            chr "#" ∈ group g 0 ++ a ++ b) as Htask.
  { intros re kw a b g _ _ Ha. apply elem_of_app. right.
    apply elem_of_app. by left. }
  unfold directive_rewrite, task_rewrite.
  repeat match goal with
    | |- context [if contains ?a ?b then _ else _] => destruct (contains a b)
    end.
  all: match goal with
       | |- context [re_search ?re ?c0] =>
           destruct (re_search re c0) as [gs|] eqn:Hre;
             [|by intros [-> ->]%ret_M_inv]
       | |- _ => by intros [-> ->]%ret_M_inv
       end.
  - apply re_asset_inv in Hre
      as (x1 & x2 & d1 & d2 & f & tail & -> & -> & _).
    cbn [group nth]. unfold mbind, M_bind, import_asset.
    destruct (copy_ok w [] f); [|done]. intros [-> ->]%ret_M_inv.
    assert (3 ≤ length (x1 ++ lit "[" ++ x2 ++ lit "]("))%nat as Hlen.
    { rewrite !length_app. cbn. lia. }
    destruct Hc as [Hc|Hc]; eapply hash_in_prefix; try exact Hc; lia.
  - apply re_drawio_inv in Hre as (x1 & x2 & d & tail & -> & -> & _).
    cbn [group nth]. unfold mbind, M_bind, import_asset.
    destruct (copy_ok w _ _); [|done]. intros [-> ->]%ret_M_inv.
    destruct x1 as [|a [|b [|c0 x1]]]; cbn [app lookup list_lookup] in Hc.
    + destruct Hc as [Hc|Hc]; by vm_compute in Hc.
    + destruct Hc as [[= ->]|Hc]; [apply list_elem_of_here|by vm_compute in Hc].
    + destruct Hc as [[= ->]|Hc]; [apply list_elem_of_here|by vm_compute in Hc].
    + destruct Hc as [[= ->]|[= ->]]; cbn [app];
        repeat first [apply list_elem_of_here | apply list_elem_of_further].
  - intros [-> ->]%ret_M_inv. eapply Htask; [exact T1|exact Hre|].
    vm_compute (lit _).
    repeat first [apply list_elem_of_here | apply list_elem_of_further].
  - intros [-> ->]%ret_M_inv. eapply Htask; [exact T2|exact Hre|].
    vm_compute (lit _).
    repeat first [apply list_elem_of_here | apply list_elem_of_further].
  - intros [-> ->]%ret_M_inv. eapply Htask; [exact T3|exact Hre|].
    vm_compute (lit _).
    repeat first [apply list_elem_of_here | apply list_elem_of_further].
  - intros [-> ->]%ret_M_inv. eapply Htask; [exact T4|exact Hre|].
    vm_compute (lit _).
    repeat first [apply list_elem_of_here | apply list_elem_of_further].
  - intros [-> ->]%ret_M_inv. eapply Htask; [exact T5|exact Hre|].
    vm_compute (lit _).
    repeat first [apply list_elem_of_here | apply list_elem_of_further].
Qed.

Lemma Ok_pair_inv {A B} (a a' : A) (b b' : B) :
  Ok (a, b) = Ok (a', b') → a' = a ∧ b' = b.
Proof. by intros [= -> ->]. Qed.

(** X16.  A TITLE line that the loop processes outside a code block is
    written as a heading at the left margin: no tabs, then the content from
    its first [#] on (there is one: the rewrite chain never takes it away),
    then one newline, with no continuation backslash even before a TEXT
    line; and it sets the list depth and both indentations to 0. *)
Theorem title_is_heading
    (text : str) (no_br : bool) (w : world) (ls : list line_info) (n : nat)
    (li : line_info) (s : locals) (w1 : world) (s' : locals) (w2 : world) :
  classify_lines (readlines text) [] = Ok ls →
  ls !! n = Some li →
  type li = TITLE →
  run_lines no_br ls n w = (Ok s, w1) →
  lines_to_skip s = 0 →
  traversing_code_block s = false →
  body no_br n s w1 = (Ok s', w2) →
  ∃ li1 h,
    lines s' !! n = Some li1
    ∧ slice_from (content li1) (find (content li1) (lit "#")) = chr "#" :: h
    ∧ output_content s' = output_content s ++ (chr "#" :: h) ++ [nl]
    ∧ target_line_indent s' = 0
    ∧ last_target_line_indent s' = 0
    ∧ cur_list_depth s' = 0.
Proof.
  intros Hc Hl0 Hty Hrun Hskip Htr Hbody.
  pose proof (lookup_lt_Some _ _ _ Hl0) as Hn.
  assert (lines s !! n = Some li) as Hli.
  { by rewrite (run_lines_untouched no_br ls n w s w1 ltac:(lia) Hrun n). }
  destruct (classified_holds _ _ _ _ Hc Hl0)
    as (line & e & _ & _ & _ & _ & _ & Hcls).
  rewrite Hty in Hcls. apply title_has_hash in Hcls as [Hpar Hhash].
  destruct (body_inv _ _ _ _ _ _ _ Hli Hbody)
    as [(? & _)|(_ & s1 & li1 & s2 & r & s3 & Hrw & Hli1 & Hti & Hrep & ->)];
    [lia|].
  apply rewrite_line_inv in Hrw as [(Hm & _)|(_ & c & Hrw & ->)]; [congruence|].
  cbn [lines set_lines] in Hli1.
  rewrite list_lookup_insert_eq in Hli1 by (by eapply lookup_lt_Some).
  injection Hli1 as <-.
  destruct (slice_from_find (chr "#") c) as [h Hh].
  { by eapply rewrite_keeps_hash. }
  destruct (target_indentation_spec n (set_content c li)
              (set_lines (<[n:=set_content c li]> (lines s)) s))
    as (t & d & Hti' & _ & Ht0 & _).
  { cbn. rewrite length_insert. by eapply lookup_lt_Some. }
  rewrite Hti' in Hti. injection Hti as <-.
  rewrite (Ht0 Hty) in Hrep. clear Ht0 Hti'.
  unfold represent in Hrep. cbn [traversing_code_block set_lines] in Hrep.
  rewrite Htr in Hrep.
  unfold by_type in Hrep. cbn [type set_content] in Hrep. rewrite Hty in Hrep.
  cbn [mbind result_bind] in Hrep.
  unfold continuation in Hrep. cbn [type set_content] in Hrep.
  rewrite Hty in Hrep.
  change (is_type TITLE CODE_BLOCK_MARKER) with false in Hrep.
  cbn [negb] in Hrep.
  match type of Hrep with
  | context [next_line_is ?i ?s0 ?P] =>
      destruct (next_line_is_total i s0 P) as (b & Hb & Hbtrue)
  end.
  rewrite Hb in Hrep. cbn [mbind result_bind] in Hrep.
  destruct b.
  { destruct (Hbtrue eq_refl) as (next & _ & Hnext).
    apply andb_true_iff in Hnext as [_ Hnext]. done. }
  apply Ok_pair_inv in Hrep as [-> ->].
  exists (set_content c li), h.
  unfold emit. cbn [hierarchy set_content]. rewrite Hpar.
  rewrite bool_decide_eq_true_2 by done.
  cbn [lines output_content target_line_indent last_target_line_indent
       cur_list_depth set_output_content set_last_target_line_indent
       set_cur_list_depth content set_content].
  rewrite list_lookup_insert_eq by (by eapply lookup_lt_Some).
  change (lit "#") with [chr "#"]. rewrite Hh.
  change (Z.to_nat 0) with 0%nat. cbn [replicate app]. done.
Qed.

Lemma title_is_heading_witness :
  let text := page [lit "- a"; [tab] ++ lit "- ## T ![x](../assets/a.png) z";
                    lit "  b"] in
  ∃ ls li s w1 s' w2,
    classify_lines (readlines text) [] = Ok ls
    ∧ ls !! 1%nat = Some li
    ∧ run_lines false ls 1 (fresh always_ok) = (Ok s, w1)
    ∧ body false 1 s w1 = (Ok s', w2)
    ∧ ∃ li1 h,
        lines s' !! 1%nat = Some li1
        ∧ slice_from (content li1) (find (content li1) (lit "#")) = chr "#" :: h
        ∧ output_content s' = output_content s ++ (chr "#" :: h) ++ [nl]
        ∧ target_line_indent s' = 0
        ∧ last_target_line_indent s' = 0
        ∧ cur_list_depth s' = 0.
Proof.
  intros text.
  epose proof (title_is_heading text false (fresh always_ok) _ 1 _ _ _ _ _)
    as H.
  eexists _, _, _, _, _, _.
  split; [vm_compute; reflexivity|].
  split; [vm_compute; reflexivity|].
  split; [vm_compute; reflexivity|].
  split; [vm_compute; reflexivity|].
  apply H; vm_compute; reflexivity.
Defined.

(** * A flat list, end to end *)

Lemma set_content_same li : set_content (content li) li = li.
Proof. by destruct li. Qed.

Lemma M_bind_Ok {A B} (m : M A) (f : A → M B) w a w1 :
  m w = (Ok a, w1) → (m ≫= f) w = f a w1.
Proof. intros H. unfold mbind, M_bind. by rewrite H. Qed.

Lemma next_line_is_on ls n s P (b0 : bool) :
  lines s = ls →
  (∀ next, ls !! S n = Some next → P next = b0) →
  next_line_is n s P = Ok (bool_decide (S n < length ls)%nat && b0).
Proof.
  intros Hl HP. unfold next_line_is. rewrite Hl.
  destruct (Z.ltb_spec (Z.of_nat n) (Z.of_nat (length ls) - 1))
    as [Hlt|Hge].
  - destruct (py_index_next _ _ Hlt) as (next & -> & Hnext).
    cbn [mbind result_bind]. rewrite (HP _ Hnext).
    by rewrite bool_decide_eq_true_2 by lia.
  - by rewrite bool_decide_eq_false_2 by lia.
Qed.

Lemma flat_step no_br ls k0 n w :
  Forall (λ l, type l = LIST ∧ indent l = k0
               ∧ no_trigger (content l) = true) ls →
  (n < length ls)%nat →
  body no_br n (flat_state ls n) w = (Ok (flat_state ls (S n)), w).
Proof.
  intros Hall Hn.
  destruct (lookup_lt_is_Some_2 ls n Hn) as [li Hli].
  destruct (Forall_lookup_1 _ _ _ _ Hall Hli) as (Hty & Hind & Hno).
  assert (rewrite_line n li (flat_state ls n) w = (Ok (flat_state ls n), w))
    as Hrw.
  { unfold rewrite_line. rewrite Hty.
    change (is_type LIST CODE_BLOCK_MARKER) with false. cbv iota.
    erewrite M_bind_Ok; [|by apply directive_rewrite_no_trigger].
    unfold mret, M_ret, set_lines, flat_state. cbn [lines].
    by rewrite set_content_same, (list_insert_id _ _ _ Hli). }
  assert (∀ out,
    target_indentation n li
      {| lines := ls; target_line_indent := 0; cur_list_depth := 0;
         last_target_line_indent := 0; traversing_code_block := false;
         lines_to_skip := 0; output_content := out |}
    = Ok {| lines := ls; target_line_indent := 0; cur_list_depth := 0;
            last_target_line_indent := 0; traversing_code_block := false;
            lines_to_skip := 0; output_content := out |}) as Hti.
  { intros out.
    destruct (py_index_prev ls n Hn) as (p & Hp & Hprev & Hzero).
    assert (type p = LIST ∧ indent p = k0) as [Htp Hip].
    { destruct n as [|j].
      - destruct (Forall_lookup_1 _ _ _ _ Hall (Hzero eq_refl)) as (? & ? & _).
        done.
      - destruct (Forall_lookup_1 _ _ _ _ Hall (Hprev j eq_refl)) as (? & ? & _).
        done. }
    unfold target_indentation. rewrite Hty.
    change (is_type LIST TITLE) with false.
    cbn [negb lines set_target_line_indent mbind result_bind].
    case_bool_decide; cbn [mbind result_bind lines set_target_line_indent];
      rewrite ?Hp; cbn [mbind result_bind]; rewrite Htp;
      change (is_type LIST TITLE) with false; cbn [negb];
      cbn [mbind result_bind lines]; rewrite ?Hp; cbn [mbind result_bind];
      rewrite ?Htp; change (is_type LIST TITLE) with false; cbn [negb];
      rewrite Hip, Hind, Z.ltb_irrefl; reflexivity. }
  assert (∀ out,
    represent no_br n li
      {| lines := ls; target_line_indent := 0; cur_list_depth := 0;
         last_target_line_indent := 0; traversing_code_block := false;
         lines_to_skip := 0; output_content := out |}
    = Ok (Some (slice_from (content li) 2
                  ++ (if bool_decide (S n < length ls)%nat then lit "\"
                      else [])),
          {| lines := ls; target_line_indent := 0; cur_list_depth := 0;
             last_target_line_indent := 0; traversing_code_block := false;
             lines_to_skip := 0; output_content := out |})) as Hrep.
  { intros out. unfold represent, by_type, continuation.
    cbn [traversing_code_block cur_list_depth]. rewrite Hty.
    change (0 <? 0) with false.
    change (is_type LIST CODE_BLOCK_MARKER) with false. cbn [negb]. cbv iota.
    rewrite (next_line_is_on ls n _ _ true); [|reflexivity|].
    2: { intros next Hnext.
         destruct (Forall_lookup_1 _ _ _ _ Hall Hnext) as (-> & -> & _).
         by rewrite Hind, Z.eqb_refl. }
    cbn [mbind result_bind].
    rewrite (next_line_is_on ls n _ _ false); [|reflexivity|].
    2: { intros next Hnext.
         by destruct (Forall_lookup_1 _ _ _ _ Hall Hnext) as (-> & _). }
    cbn [mbind result_bind]. rewrite andb_false_r, andb_true_r.
    by case_bool_decide; rewrite ?app_nil_r. }
  unfold body. cbn [lines_to_skip flat_state].
  change (0 <? 0) with false. cbv iota. fold (flat_state ls n).
  erewrite M_bind_Ok;
    [|unfold lift; cbn [lines flat_state]; by rewrite (py_index_nat _ _ _ Hli)].
  erewrite M_bind_Ok; [|exact Hrw].
  erewrite M_bind_Ok;
    [|unfold lift; cbn [lines flat_state]; by rewrite (py_index_nat _ _ _ Hli)].
  erewrite M_bind_Ok; [|unfold lift, flat_state; by rewrite Hti].
  erewrite M_bind_Ok; [|unfold lift; by rewrite Hrep].
  unfold mret, M_ret, flat_state. f_equal. unfold emit.
  cbn [target_line_indent output_content set_output_content hierarchy
       set_last_target_line_indent lines cur_list_depth
       last_target_line_indent traversing_code_block lines_to_skip].
  change (Z.to_nat 0) with 0%nat. cbn [replicate app].
  assert (concat (imap (flat_line ls) (take (S n) ls))
          = concat (imap (flat_line ls) (take n ls))
              ++ (slice_from (content li) 2
                    ++ (if bool_decide (S n < length ls)%nat then lit "\"
                        else [])) ++ [nl]) as ->.
  { rewrite (take_S_r _ _ _ Hli), imap_app, concat_app.
    cbn [imap concat]. rewrite app_nil_r, length_take_le by lia.
    unfold flat_line at 3. rewrite Nat.add_0_r. by rewrite <- app_assoc. }
  by destruct (bool_decide (hierarchy li = PARENT)).
Qed.

Lemma flat_run no_br ls k0 w n :
  Forall (λ l, type l = LIST ∧ indent l = k0
               ∧ no_trigger (content l) = true) ls →
  (n ≤ length ls)%nat →
  run_lines no_br ls n w = (Ok (flat_state ls n), w).
Proof.
  intros Hall. induction n as [|n IH]; intros Hn; [done|].
  rewrite run_lines_S, IH by lia. by eapply flat_step.
Qed.

(** X17.  A flat list, end to end.  A page whose lines are all LIST lines
    of one indentation, with none of the triggers of the rewrite chain, is
    exported without touching the assets, and the document is its contents
    without their bullets and without tabs, each followed by a backslash
    and a newline, the last one by a newline only. *)
Theorem flat_list_export
    (text : str) (no_br : bool) (w : world) (ls : list line_info) (k0 : Z) :
  classify_lines (readlines text) [] = Ok ls →
  Forall (λ l, type l = LIST ∧ indent l = k0
               ∧ no_trigger (content l) = true) ls →
  export_file_to_folder text no_br w
  = (Ok tt, {| copy_ok := copy_ok w; import_calls := import_calls w;
               copied := copied w; written := Some (flat_output ls) |}).
Proof.
  intros Hc Hall. unfold export_file_to_folder, mbind, M_bind, lift.
  rewrite Hc, (flat_run no_br ls k0 w (length ls) Hall (le_n _)).
  unfold write_output, flat_state, flat_output. cbn [output_content].
  by rewrite firstn_all.
Qed.

Lemma flat_list_export_witness :
  let text := page [lit "- apples"; lit "- pears"; lit "- plums"] in
  ∃ ls,
    classify_lines (readlines text) [] = Ok ls
    ∧ flat_output ls
      = lit "apples\" ++ [nl] ++ lit "pears\" ++ [nl] ++ lit "plums" ++ [nl]
    ∧ export_file_to_folder text false (fresh always_ok)
      = (Ok tt, {| copy_ok := always_ok; import_calls := []; copied := [];
                   written := Some (flat_output ls) |}).
Proof.
  intros text. eexists. split; [vm_compute; reflexivity|].
  split; [vm_compute; reflexivity|].
  apply (flat_list_export text false (fresh always_ok) _ 0);
    [vm_compute; reflexivity|].
  repeat first [apply Forall_nil_2
               | apply Forall_cons_2; [by vm_compute|]].
Defined.


(** * The text of an emitted line *)

Lemma next_line_is_eq i s P : next_line_is i s P = Ok (next_is i s P).
Proof.
  unfold next_line_is, next_is.
  destruct (Z.ltb_spec (Z.of_nat i) (Z.of_nat (length (lines s)) - 1))
    as [Hlt|Hge].
  - by destruct (py_index_next _ _ Hlt) as (next & -> & ->).
  - rewrite (lookup_ge_None_2 (lines s) (S i)); [done|lia].
Qed.

(** The next line is not both a LIST and a TEXT line. *)
Lemma next_is_list_text i s (k : Z) :
  next_is i s (λ next, is_type (type next) LIST && (indent next =? k)) = true →
  next_is i s (λ next, is_type (type next) TEXT) = false.
Proof.
  unfold next_is, is_type. destruct (lines s !! S i) as [next|]; [|done].
  intros [Hl _]%andb_true_iff. apply bool_decide_eq_true in Hl.
  rewrite Hl. done.
Qed.

(** The representation stage, in one formula; it leaves alone what the
    formula reads. *)
Lemma represent_rendered no_br i li s c s' :
  represent no_br i li s = Ok (Some c, s') →
  c = rendered no_br i li s
  ∧ rendered no_br i li s' = rendered no_br i li s
  ∧ breaks_line i li s' = breaks_line i li s.
Proof.
  unfold represent, by_type, continuation, rendered, base_text, breaks_line,
    continued.
  rewrite !next_line_is_eq.
  destruct (traversing_code_block s) eqn:Htr.
  { intros [-> ->]%Ok_Some_inv. rewrite Htr. cbn [negb andb].
    by rewrite !app_nil_r. }
  cbn [negb andb].
  destruct (type li) eqn:Ht; cbn [mbind result_bind].
  - (* TITLE *)
    change (is_type TITLE CODE_BLOCK_MARKER) with false.
    change (is_type TITLE TITLE) with true. cbn [negb].
    rewrite ?next_line_is_eq. cbn [mbind result_bind].
    unfold next_is. cbn [lines set_cur_list_depth].
    assert (match lines s !! S i with
            | Some next => is_type (type next) TEXT && false
            | None => false
            end = false) as ->.
    { destruct (lines s !! S i); [apply andb_false_r|done]. }
    intros [-> ->]%Ok_Some_inv.
    cbn [traversing_code_block set_cur_list_depth]. rewrite Htr.
    by rewrite !app_nil_r.
  - (* LIST *)
    change (is_type LIST CODE_BLOCK_MARKER) with false.
    change (is_type LIST TITLE) with false. cbn [negb].
    destruct (0 <? cur_list_depth s) eqn:Hd; cbn [mbind result_bind negb andb orb];
      rewrite ?next_line_is_eq; cbn [mbind result_bind].
    + intros [-> ->]%Ok_Some_inv. rewrite Htr, Hd. cbn [negb andb orb].
      split; [|done].
      assert (∀ b, next_is i s (λ next, is_type (type next) TEXT && b)
                   = next_is i s (λ next, is_type (type next) TEXT) && b)
        as Hb.
      { intros b. unfold next_is. destruct (lines s !! S i); [done|].
        by destruct b. }
      rewrite Hb, andb_true_r.
      destruct (next_is i s (λ next, indent next <? indent li));
        destruct (next_is i s (λ next, is_type (type next) TEXT));
        cbn [app]; by rewrite <- ?app_assoc, ?app_nil_r.
    + intros [-> ->]%Ok_Some_inv. rewrite Htr, Hd. cbn [negb andb orb].
      split; [|done].
      assert (∀ b, next_is i s (λ next, is_type (type next) TEXT && b)
                   = next_is i s (λ next, is_type (type next) TEXT) && b)
        as Hb.
      { intros b. unfold next_is. destruct (lines s !! S i); [done|].
        by destruct b. }
      rewrite Hb, andb_true_r.
      destruct (next_is i s (λ next,
                  is_type (type next) LIST && (indent next =? indent li)))
        eqn:Hsib.
      * rewrite (next_is_list_text _ _ _ Hsib). by cbn [orb app].
      * destruct (next_is i s (λ next, is_type (type next) TEXT));
          cbn [orb app]; by rewrite ?app_nil_r.
  - (* QUOTE *)
    change (is_type QUOTE CODE_BLOCK_MARKER) with false.
    change (is_type QUOTE TITLE) with false. cbn [negb].
    rewrite ?next_line_is_eq. cbn [mbind result_bind].
    intros [-> ->]%Ok_Some_inv. rewrite Htr. split; [|done].
    assert (next_is i s (λ next, is_type (type next) TEXT && true)
            = next_is i s (λ next, is_type (type next) TEXT)) as ->.
    { unfold next_is. destruct (lines s !! S i); [apply andb_true_r|done]. }
    destruct (next_is i s _); cbn [app]; by rewrite <- ?app_assoc, ?app_nil_r.
  - (* CODE_BLOCK_MARKER *)
    change (is_type CODE_BLOCK_MARKER CODE_BLOCK_MARKER) with true.
    cbn [negb]. intros [-> ->]%Ok_Some_inv. rewrite Htr.
    by rewrite !app_nil_r.
  - (* CODE *)
    change (is_type CODE CODE_BLOCK_MARKER) with false.
    change (is_type CODE TITLE) with false. cbn [negb].
    rewrite ?next_line_is_eq. cbn [mbind result_bind].
    intros [-> ->]%Ok_Some_inv. rewrite Htr. split; [|done].
    assert (next_is i s (λ next, is_type (type next) TEXT && true)
            = next_is i s (λ next, is_type (type next) TEXT)) as ->.
    { unfold next_is. destruct (lines s !! S i); [apply andb_true_r|done]. }
    destruct (next_is i s _); cbn [app]; by rewrite <- ?app_assoc, ?app_nil_r.
  - (* EMPTY *)
    change (is_type EMPTY CODE_BLOCK_MARKER) with false.
    change (is_type EMPTY TITLE) with false. cbn [negb].
    rewrite ?next_line_is_eq. cbn [mbind result_bind].
    intros [-> ->]%Ok_Some_inv. rewrite Htr. split; [|done].
    assert (next_is i s (λ next, is_type (type next) TEXT && true)
            = next_is i s (λ next, is_type (type next) TEXT)) as ->.
    { unfold next_is. destruct (lines s !! S i); [apply andb_true_r|done]. }
    destruct no_br; cbn [negb app];
      destruct (next_is i s _); cbn [app]; by rewrite <- ?app_assoc, ?app_nil_r.
  - (* TEXT *)
    change (is_type TEXT CODE_BLOCK_MARKER) with false.
    change (is_type TEXT TITLE) with false. cbn [negb].
    destruct (contains (content li) (lit "collapsed:: true")); [done|].
    destruct (contains (content li) (lit ":LOGBOOK:")); [done|].
    rewrite ?next_line_is_eq. cbn [mbind result_bind].
    rewrite ?next_line_is_eq. cbn [mbind result_bind].
    intros [-> ->]%Ok_Some_inv. rewrite Htr. split; [|done].
    assert (next_is i s (λ next, is_type (type next) TEXT && true)
            = next_is i s (λ next, is_type (type next) TEXT)) as ->.
    { unfold next_is. destruct (lines s !! S i); [apply andb_true_r|done]. }
    destruct (next_is i s (λ next, negb (is_type (type next) TEXT)));
      destruct (next_is i s (λ next, is_type (type next) TEXT));
      cbn [app]; by rewrite <- ?app_assoc, ?app_nil_r.
Qed.

Lemma base_text_no_newline no_br li s :
  no_newline (content li) → no_newline (base_text no_br li s).
Proof.
  intros Hc. unfold base_text.
  destruct (traversing_code_block s); [by apply no_newline_slice|].
  destruct (type li); try by apply no_newline_slice.
  - by destruct (0 <? cur_list_depth s); [|apply no_newline_slice].
  - destruct no_br; [constructor|by repeat constructor].
Qed.

Lemma newlines_rendered no_br i li s :
  no_newline (content li) →
  newlines (rendered no_br i li s)
  = (if breaks_line i li s then 1 else 0)%nat.
Proof.
  intros Hc. unfold rendered.
  rewrite !newlines_app, (newlines_none _ (base_text_no_newline no_br li s Hc)).
  by destruct (breaks_line i li s), (continued i li s).
Qed.

(** The emitted line: one newline at its end, and one more inside exactly
    when the text holds one. *)
Lemma newlines_emitted no_br i li s (k : nat) :
  no_newline (content li) →
  newlines (replicate k tab ++ rendered no_br i li s ++ [nl])
  = (if breaks_line i li s then 2 else 1)%nat.
Proof.
  intros Hc.
  rewrite !newlines_app, newlines_tabs, newlines_nl, (newlines_rendered _ _ _ _ Hc).
  by destruct (breaks_line i li s).
Qed.

Lemma rendered_emit no_br i li li' c s :
  rendered no_br i li (emit li' c s) = rendered no_br i li s
  ∧ breaks_line i li (emit li' c s) = breaks_line i li s.
Proof. unfold emit. by case_bool_decide. Qed.

Lemma rewrite_line_no_newline i li s w s1 w1 li1 :
  lines s !! i = Some li →
  no_newline (content li) →
  rewrite_line i li s w = (Ok s1, w1) →
  lines s1 !! i = Some li1 →
  no_newline (content li1).
Proof.
  intros Hli Hc Hrw Hli1.
  apply rewrite_line_inv in Hrw as [(_ & -> & _)|(_ & c & Hrw & ->)];
    cbn in Hli1.
  - rewrite Hli in Hli1. by injection Hli1 as <-.
  - rewrite list_lookup_insert_eq in Hli1 by (by eapply lookup_lt_Some).
    injection Hli1 as <-. cbn. by eapply directive_rewrite_no_newline.
Qed.

(** What a processed line adds to the output, from the variables after its
    iteration: nothing when it is left out, else the tabs, the text and a
    newline. *)
Lemma body_rendered no_br i s w s' w' li :
  lines s !! i = Some li →
  lines_to_skip s ≤ 0 →
  no_newline (content li) →
  body no_br i s w = (Ok s', w') →
  ∃ li1,
    lines s' !! i = Some li1
    ∧ no_newline (content li1)
    ∧ if negb (traversing_code_block s') && dropped li1
      then output_content s' = output_content s
      else output_content s'
           = output_content s ++ tabs_of s' ++ rendered no_br i li1 s' ++ [nl].
Proof.
  intros Hli Hskip Hc Hbody.
  destruct (body_inv _ _ _ _ _ _ _ Hli Hbody)
    as [(? & _)|(_ & s1 & li1 & s2 & r & s3 & Hrw & Hli1 & Hti & Hrep & ->)];
    [lia|].
  pose proof (rewrite_line_no_newline _ _ _ _ _ _ _ Hli Hc Hrw Hli1) as Hc1.
  assert (output_content s1 = output_content s) as Ho1.
  { by apply rewrite_line_inv in Hrw as [(_ & -> & _)|(_ & c & _ & ->)]. }
  destruct (target_indentation_spec i li1 s1) as (t & d & Hti' & _).
  { by eapply lookup_lt_Some. }
  rewrite Hti' in Hti. injection Hti as <-.
  match type of Hrep with
  | represent _ _ _ ?s2 = _ =>
      destruct (represent_spec no_br i li1 s2)
        as (r' & s3' & Hrep' & Hf & Hr)
  end.
  pose proof Hrep as Hrep0.
  rewrite Hrep' in Hrep. injection Hrep as <- <-.
  destruct Hf as (Hl3 & Ht3 & _ & Htr3 & Ho3). cbn in Hl3, Ht3, Htr3, Ho3.
  exists li1.
  destruct r' as [c|].
  - destruct (represent_rendered _ _ _ _ _ _ Hrep0) as (-> & Hren & _).
    destruct Hr as (_ & Hd & _). cbn in Hd.
    destruct (rendered_emit no_br i li1 li1
                (rendered no_br i li1
                   {| lines := lines s1; target_line_indent := t;
                      cur_list_depth := d;
                      last_target_line_indent := last_target_line_indent s1;
                      traversing_code_block := traversing_code_block s1;
                      lines_to_skip := lines_to_skip s1;
                      output_content := output_content s1 |}) s3')
      as [Hre _].
    rewrite Hre, Hren.
    assert (traversing_code_block
              (emit li1
                 (rendered no_br i li1
                    {| lines := lines s1; target_line_indent := t;
                       cur_list_depth := d;
                       last_target_line_indent := last_target_line_indent s1;
                       traversing_code_block := traversing_code_block s1;
                       lines_to_skip := lines_to_skip s1;
                       output_content := output_content s1 |}) s3')
            = traversing_code_block s1) as Htre.
    { unfold emit. by case_bool_decide. }
    assert (negb (traversing_code_block s1) && dropped li1 = false) as Hnd.
    { destruct Hd as [->| ->]; [done|apply andb_false_r]. }
    rewrite Htre, Hnd.
    split; [unfold emit; case_bool_decide; cbn; by rewrite Hl3|].
    split; [done|].
    unfold emit, tabs_of. case_bool_decide; cbn; by rewrite Ho3, Ht3, Ho1.
  - destruct Hr as (Htr & Hd & _). cbn in Htr.
    rewrite Htr3, Htr, Hd. cbn [negb andb].
    split; [by rewrite Hl3|]. split; [done|]. congruence.
Qed.

(** * What a line adds to the output *)

(** C4, amended.  Every line emitted into the output is: the tabs of the
    target indentation just computed, then the text that the representation
    stage gives for the rewritten line, then one newline; the tabs are put
    in front after all the rewriting.  The text is a text without newline,
    then a newline of its own in three cases only (outside a code block: an
    EMPTY line, a LIST line below the first level before a less indented
    line, a TEXT line before a line that is not TEXT), then a backslash
    when the next line continues this one.  So the emitted line ends with a
    newline and holds exactly one newline, or exactly two in those three
    cases. *)
Theorem emitted_line_tabs_text_newline
    (text : str) (no_br : bool) (w : world) (ls : list line_info) (n : nat)
    (s : locals) (w1 : world) (s' : locals) (w2 : world) :
  classify_lines (readlines text) [] = Ok ls →
  (n < length ls)%nat →
  run_lines no_br ls n w = (Ok s, w1) →
  body no_br n s w1 = (Ok s', w2) →
  output_content s' = output_content s
  ∨ ∃ li s1 li1 s2 c s3,
      lines s !! n = Some li
      ∧ rewrite_line n li s w1 = (Ok s1, w2)
      ∧ lines s1 !! n = Some li1
      ∧ target_indentation n li1 s1 = Ok s2
      ∧ represent no_br n li1 s2 = Ok (Some c, s3)
      ∧ output_content s'
        = output_content s
            ++ replicate (Z.to_nat (target_line_indent s2)) tab ++ c ++ [nl]
      ∧ c = base_text no_br li1 s2
              ++ (if breaks_line n li1 s2 then [nl] else [])
              ++ (if continued n li1 s2 then lit "\" else [])
      ∧ no_newline (base_text no_br li1 s2)
      ∧ newlines (replicate (Z.to_nat (target_line_indent s2)) tab ++ c ++ [nl])
        = (if breaks_line n li1 s2 then 2 else 1)%nat.
Proof.
  intros Hc Hn Hrun Hbody.
  assert (invariant ls s) as Hinv by (eapply invariant_run; [|done]; lia).
  destruct (lookup_lt_is_Some_2 ls n Hn) as [l0 Hl0].
  destruct (invariant_lookup _ _ _ _ Hinv Hl0) as (li & Hli & Hsk).
  assert (no_newline (content li)) as Hcli.
  { assert (Forall (λ l, no_newline (content l)) (lines s)) as Hall.
    { eapply (run_lines_no_newline no_br ls n w s w1);
        [by eapply classified_no_newline|lia|exact Hrun]. }
    by eapply (Forall_lookup_1 _ _ _ _ Hall Hli). }
  destruct (body_inv _ _ _ _ _ _ _ Hli Hbody)
    as [(_ & -> & _)|(_ & s1 & li1 & s2 & r & s3 & Hrw & Hli1 & Hti & Hrep & ->)];
    [by left|].
  pose proof (rewrite_line_no_newline _ _ _ _ _ _ _ Hli Hcli Hrw Hli1) as Hc1.
  assert (output_content s1 = output_content s) as Ho1.
  { by apply rewrite_line_inv in Hrw as [(_ & -> & _)|(_ & c & _ & ->)]. }
  destruct (target_indentation_spec n li1 s1) as (t & d & Hti' & _).
  { by eapply lookup_lt_Some. }
  rewrite Hti' in Hti. injection Hti as <-.
  match type of Hrep with
  | represent _ _ _ ?s2 = _ =>
      destruct (represent_spec no_br n li1 s2) as (r' & s3' & Hrep' & Hf & _)
  end.
  pose proof Hrep as Hrep0.
  rewrite Hrep' in Hrep. injection Hrep as <- <-.
  destruct Hf as (_ & Ht3 & _ & _ & Ho3). cbn in Ht3, Ho3.
  destruct r' as [c|].
  - destruct (represent_rendered _ _ _ _ _ _ Hrep0) as (Hren & _).
    right. eexists li, s1, li1, _, c, s3'.
    split; [done|]. split; [done|]. split; [done|].
    split; [exact Hti'|]. split; [exact Hrep0|].
    split; [unfold emit; case_bool_decide; cbn; by rewrite Ho3, Ht3, Ho1|].
    split; [exact Hren|].
    split; [by apply base_text_no_newline|].
    rewrite Hren. by apply newlines_emitted.
  - left. congruence.
Qed.

(** The second line of a three-line page: a TEXT line before a LIST line,
    emitted with a newline of its own. *)
Lemma emitted_line_witness :
  let text := page [lit "- A"; lit "  B"; lit "- C"] in
  ∃ ls s w1 s' w2,
    classify_lines (readlines text) [] = Ok ls
    ∧ run_lines false ls 1 (fresh always_ok) = (Ok s, w1)
    ∧ body false 1 s w1 = (Ok s', w2)
    ∧ (output_content s' = output_content s
       ∨ ∃ li s1 li1 s2 c s3,
           lines s !! 1%nat = Some li
           ∧ rewrite_line 1 li s w1 = (Ok s1, w2)
           ∧ lines s1 !! 1%nat = Some li1
           ∧ target_indentation 1 li1 s1 = Ok s2
           ∧ represent false 1 li1 s2 = Ok (Some c, s3)
           ∧ output_content s'
             = output_content s
                 ++ replicate (Z.to_nat (target_line_indent s2)) tab
                 ++ c ++ [nl]
           ∧ c = base_text false li1 s2
                   ++ (if breaks_line 1 li1 s2 then [nl] else [])
                   ++ (if continued 1 li1 s2 then lit "\" else [])
           ∧ no_newline (base_text false li1 s2)
           ∧ newlines (replicate (Z.to_nat (target_line_indent s2)) tab
                         ++ c ++ [nl])
             = (if breaks_line 1 li1 s2 then 2 else 1)%nat).
Proof.
  intros text.
  epose proof (emitted_line_tabs_text_newline text false (fresh always_ok)
                 _ 1 _ _ _ _) as H.
  eexists _, _, _, _, _.
  split; [vm_compute; reflexivity|].
  split; [vm_compute; reflexivity|].
  split; [vm_compute; reflexivity|].
  apply H; [vm_compute; reflexivity | cbn; lia | vm_compute; reflexivity..].
Defined.

(** C4 as stated fails: a bare bullet is emitted as [<br>] followed by two
    newlines. *)
Lemma emitted_line_counterexample :
  ¬ (∀ text no_br w ls n s w1 s' w2 line,
       classify_lines (readlines text) [] = Ok ls →
       (n < length ls)%nat →
       run_lines no_br ls n w = (Ok s, w1) →
       body no_br n s w1 = (Ok s', w2) →
       output_content s' = output_content s ++ line →
       line ≠ [] →
       ∃ t, line = t ++ [nl] ∧ ∀ t', t ≠ t' ++ [nl]).
Proof.
  intros H.
  epose proof (H (page [lit "-"]) false (fresh always_ok) _ 0%nat _ _ _ _
                 (lit "<br>" ++ [nl; nl])) as Hf.
  destruct Hf as (t & Ht & Hlast);
    [vm_compute; reflexivity | cbn; lia | vm_compute; reflexivity.. | done |].
  change (lit "<br>" ++ [nl; nl]) with ((lit "<br>" ++ [nl]) ++ [nl]) in Ht.
  apply app_inj_tail in Ht as [<- _]. by apply (Hlast (lit "<br>")).
Qed.


(** * Lines left out of the output, and lines written *)

(** C8, amended.  Take a line that the loop processes, and its content as
    the rewrite chain leaves it.  If it is TEXT outside a code block and
    contains [collapsed:: true], it adds nothing to the output.  Otherwise,
    if it is TEXT outside a code block and contains [:LOGBOOK:], then it and
    the lines after it, up to and including the first line that contains
    [:END:], add nothing; the search for [:END:] starts at the [:LOGBOOK:]
    line itself, and runs to the end of the page when there is none.  Any
    other processed line adds one piece to the end of the output: its tabs,
    its text and a newline, which is one line of the document, or two when
    the text holds a newline of its own (outside a code block: an EMPTY
    line, a LIST line below the first level before a less indented line, a
    TEXT line before a line that is not TEXT). *)
Theorem text_elision
    (text : str) (no_br : bool) (w : world) (ls : list line_info) (n : nat)
    (s : locals) (w1 : world) (s' : locals) (w2 : world) (li1 : line_info) :
  classify_lines (readlines text) [] = Ok ls →
  (n < length ls)%nat →
  run_lines no_br ls n w = (Ok s, w1) →
  lines_to_skip s = 0 →
  body no_br n s w1 = (Ok s', w2) →
  lines s' !! n = Some li1 →
  let text_outside :=
    is_type (type li1) TEXT && negb (traversing_code_block s') in
  if text_outside && contains (content li1) (lit "collapsed:: true") then
    output_content s' = output_content s ∧ lines_to_skip s' = 0
  else if text_outside && contains (content li1) (lit ":LOGBOOK:") then
    let e := Z.to_nat (lines_before_end (drop n (lines s'))) in
    (∀ k, (k ≤ e)%nat → (n + 1 + k ≤ length ls)%nat →
       ∃ sk, run_lines no_br ls (n + 1 + k) w = (Ok sk, w2)
             ∧ output_content sk = output_content s)
    ∧ (e = 0%nat → contains (content li1) (lit ":END:") = true)
    ∧ (e ≠ 0%nat → contains (content li1) (lit ":END:") = false)
    ∧ (∀ j l, (n < j < n + e)%nat → ls !! j = Some l →
         contains (content l) (lit ":END:") = false)
    ∧ (∀ l, e ≠ 0%nat → ls !! (n + e)%nat = Some l →
         contains (content l) (lit ":END:") = true)
  else
    output_content s'
    = output_content s ++ tabs_of s' ++ rendered no_br n li1 s' ++ [nl]
    ∧ no_newline (base_text no_br li1 s')
    ∧ newlines (tabs_of s' ++ rendered no_br n li1 s' ++ [nl])
      = (if breaks_line n li1 s' then 2 else 1)%nat.
Proof.
  intros Hc Hn Hrun Hskip Hbody Hli1 text_outside. subst text_outside.
  assert (run_lines no_br ls (S n) w = (Ok s', w2)) as Hrun'.
  { by rewrite run_lines_S, Hrun. }
  pose proof (run_lines_untouched no_br ls (S n) w s' w2 ltac:(lia) Hrun') as Hun.
  assert (invariant ls s) as Hinv by (eapply invariant_run; [|done]; lia).
  destruct (lookup_lt_is_Some_2 ls n Hn) as [l0 Hl0].
  destruct (invariant_lookup _ _ _ _ Hinv Hl0) as (li & Hli & Hsk).
  destruct (body_processed _ _ _ _ _ _ _ Hli ltac:(lia) Hbody)
    as (li1' & r & Hlines & _ & _ & _ & _ & _ & _ & _ & Hr).
  assert (li1' = li1) as ->.
  { rewrite Hlines, list_lookup_insert_eq in Hli1 by (by eapply lookup_lt_Some).
    by injection Hli1. }
  destruct r as [c|].
  - destruct Hr as (Hout & _ & _ & _ & Hd).
    assert (is_type (type li1) TEXT && negb (traversing_code_block s')
            && contains (content li1) (lit "collapsed:: true") = false) as ->.
    { unfold dropped in Hd. destruct (traversing_code_block s'); cbn [negb].
      - by rewrite andb_false_r.
      - destruct Hd as [?|Hd]; [done|]. rewrite andb_true_r.
        destruct (is_type _ _); [|done]. cbn [andb] in Hd |- *.
        by apply orb_false_iff in Hd as [-> _]. }
    assert (is_type (type li1) TEXT && negb (traversing_code_block s')
            && contains (content li1) (lit ":LOGBOOK:") = false) as ->.
    { unfold dropped in Hd. destruct (traversing_code_block s'); cbn [negb].
      - by rewrite andb_false_r.
      - destruct Hd as [?|Hd]; [done|]. rewrite andb_true_r.
        destruct (is_type _ _); [|done]. cbn [andb] in Hd |- *.
        by apply orb_false_iff in Hd as [_ ->]. }
    assert (no_newline (content li)) as Hcli.
    { assert (Forall (λ l, no_newline (content l)) (lines s)) as Hall.
      { eapply (run_lines_no_newline no_br ls n w s w1);
          [by eapply classified_no_newline|lia|exact Hrun]. }
      by eapply (Forall_lookup_1 _ _ _ _ Hall Hli). }
    destruct (body_rendered _ _ _ _ _ _ _ Hli ltac:(lia) Hcli Hbody)
      as (li1' & Hli1' & Hc1 & Hren).
    rewrite Hli1 in Hli1'. injection Hli1' as <-.
    assert (negb (traversing_code_block s') && dropped li1 = false) as Hnd.
    { destruct Hd as [->| ->]; [done|apply andb_false_r]. }
    rewrite Hnd in Hren.
    split; [exact Hren|]. split; [by apply base_text_no_newline|].
    by apply newlines_emitted.
  - destruct Hr as (Htr & Hd & Hout & _ & Hsk').
    rewrite Htr. unfold dropped in Hd.
    apply andb_true_iff in Hd as [-> Hd]. cbn [andb negb].
    unfold skip_after in Hsk'. cbn [lines_to_skip lines set_lines] in Hsk'.
    rewrite Hskip in Hsk'.
    destruct (contains (content li1) (lit "collapsed:: true")) eqn:Hcol;
      [done|].
    cbn [orb] in Hd. rewrite Hd. cbn zeta.
    pose proof (lines_before_end_nonneg (drop n (lines s'))) as Hnn.
    destruct (lines_before_end_spec (drop n (lines s'))) as [Hbefore Hat].
    cbn zeta in Hbefore, Hat.
    set (e := Z.to_nat (lines_before_end (drop n (lines s')))) in *.
    split; [|split; [|split; [|split]]].
    + intros k Hk Hlen.
      rewrite Nat.add_1_r, (skip_run _ _ _ k (S n) s' w2 Hrun') by lia.
      eexists. split; [reflexivity|]. done.
    + intros He. apply Hat. by rewrite lookup_drop, He, Nat.add_0_r.
    + intros He. apply (Hbefore 0%nat); [lia|].
      by rewrite lookup_drop, Nat.add_0_r.
    + intros j l Hj Hl. apply (Hbefore (j - n)%nat); [lia|].
      rewrite lookup_drop. replace (n + (j - n))%nat with j by lia.
      rewrite Hun by lia. done.
    + intros l He Hl. apply Hat. rewrite lookup_drop, Hun by lia. done.
Qed.

(** A :LOGBOOK: block of three lines under a bullet: the output after
    the :END: line is the output before the :LOGBOOK: line. *)
Lemma text_elision_witness :
  let text := page [lit "- a"; lit "  :LOGBOOK:"; lit "  x"; lit "  :END:";
                    lit "- b"] in
  ∃ ls s w1 s' w2 li1,
    classify_lines (readlines text) [] = Ok ls
    ∧ run_lines false ls 1 (fresh always_ok) = (Ok s, w1)
    ∧ lines_to_skip s = 0
    ∧ body false 1 s w1 = (Ok s', w2)
    ∧ lines s' !! 1%nat = Some li1
    ∧ ∃ sk, run_lines false ls 4 (fresh always_ok) = (Ok sk, w2)
            ∧ output_content sk = output_content s.
Proof.
  intros text.
  epose proof (text_elision text false (fresh always_ok) _ 1 _ _ _ _ _) as H.
  eexists _, _, _, _, _, _.
  split; [vm_compute; reflexivity|].
  split; [vm_compute; reflexivity|].
  split; [vm_compute; reflexivity|].
  split; [vm_compute; reflexivity|].
  split; [vm_compute; reflexivity|].
  specialize (H ltac:(vm_compute; reflexivity) ltac:(cbn; lia)
                ltac:(vm_compute; reflexivity) ltac:(vm_compute; reflexivity)
                ltac:(vm_compute; reflexivity) ltac:(vm_compute; reflexivity)).
  cbv zeta in H.
  repeat match type of H with
         | if ?c then _ else _ =>
             let v := eval vm_compute in c in change c with v in H
         end; cbv iota in H.
  destruct H as [H _]. apply (H 2%nat); vm_compute; lia.
Defined.

(** C8 as stated fails twice.  A :LOGBOOK: line that itself contains :END:
    closes the block at once: the lines after it, up to the next :END: line,
    are processed and written.  And the tags are looked for in the content
    as the rewrite chain leaves it: an asset link before [collapsed:: true]
    cuts the tag off, and the line is written.  And a line that is written
    does not always make one line of the document: a TEXT line before a
    LIST line is written with a blank line after it. *)
Lemma text_elision_counterexample :
  ¬ (∀ text no_br w ls n li s w1 e j sj wj sj' wj',
       classify_lines (readlines text) [] = Ok ls →
       ls !! n = Some li →
       type li = TEXT →
       run_lines no_br ls n w = (Ok s, w1) →
       lines_to_skip s = 0 →
       traversing_code_block s = false →
       contains (content li) (lit ":LOGBOOK:") = true →
       (n < e)%nat →
       (∃ l, ls !! e = Some l ∧ contains (content l) (lit ":END:") = true) →
       (∀ m l, (n < m < e)%nat → ls !! m = Some l →
          contains (content l) (lit ":END:") = false) →
       (n ≤ j ≤ e)%nat →
       run_lines no_br ls j w = (Ok sj, wj) →
       run_lines no_br ls (S j) w = (Ok sj', wj') →
       output_content sj' = output_content sj)
  ∧ ¬ (∀ text no_br w ls n li s w1 s' w2,
         classify_lines (readlines text) [] = Ok ls →
         ls !! n = Some li →
         type li = TEXT →
         run_lines no_br ls n w = (Ok s, w1) →
         lines_to_skip s = 0 →
         traversing_code_block s = false →
         contains (content li) (lit "collapsed:: true") = true →
         body no_br n s w1 = (Ok s', w2) →
         output_content s' = output_content s)
  ∧ ¬ (∀ text no_br w ls n li s w1 s' w2,
         classify_lines (readlines text) [] = Ok ls →
         ls !! n = Some li →
         run_lines no_br ls n w = (Ok s, w1) →
         lines_to_skip s = 0 →
         contains (content li) (lit "collapsed:: true") = false →
         contains (content li) (lit ":LOGBOOK:") = false →
         body no_br n s w1 = (Ok s', w2) →
         ∃ t, output_content s' = output_content s ++ t ++ [nl]
              ∧ no_newline t).
Proof.
  split; [|split]; intros H.
  - epose proof (H (page [lit "  :LOGBOOK: :END:"; lit "- x"; lit "  :END:"])
                   false (fresh always_ok) _ 0%nat _ _ _ 2%nat 1%nat _ _ _ _)
      as Hf.
    cut (@nil char = lit "x\" ++ [nl]); [discriminate|].
    etransitivity; [|etransitivity; [symmetry; apply Hf|]]; cycle 1.
    1-7: vm_compute; reflexivity.
    + lia.
    + eexists. split; vm_compute; reflexivity.
    + intros m l Hm. assert (m = 1%nat) as -> by lia.
      vm_compute. intros [= <-]. reflexivity.
    + lia.
    + vm_compute; reflexivity.
    + vm_compute; reflexivity.
    + vm_compute; reflexivity.
    + vm_compute; reflexivity.
  - epose proof (H (page [lit "- a";
                          lit "  ![x](../assets/a.png) collapsed:: true"])
                   false (fresh always_ok) _ 1%nat _ _ _ _ _) as Hf.
    cut (lit "a\" ++ [nl] ++ lit "![x](assets/a.png)" ++ [nl]
         = lit "a\" ++ [nl]); [discriminate|].
    etransitivity; [|etransitivity; [apply Hf|]]; cycle 1.
    1-8: vm_compute; reflexivity.
    all: vm_compute; reflexivity.
  - epose proof (H (page [lit "- a"; lit "  b"; lit "- c"])
                   false (fresh always_ok) _ 1%nat _ _ _ _ _) as Hf.
    destruct Hf as (t & Ht & Hnn); [vm_compute; reflexivity..|].
    assert (t = [98; 10]%N) as ->.
    { vm_compute in Ht. injection Ht as Ht.
      change ([98; 10; 10]%N) with ([98; 10]%N ++ [nl]) in Ht.
      by apply app_inj_tail in Ht as [<- _]. }
    unfold no_newline in Hnn.
    apply Forall_cons_1 in Hnn as [_ Hnn].
    apply Forall_cons_1 in Hnn as [Hnn _]. by apply Hnn.
Qed.

